(** * Vulkan WSI swapchain layer (vulkan/libvulkan/swapchain.cpp)

    A shallow embedding of the swapchain layer that sits between the Vulkan
    loader and the native window's buffer queue, and the properties of it
    that its specification states.

    Conventions of the embedding.
    - C++ integers are [Z]; unsigned arithmetic that can wrap is written
      with [u32] and [u64].
    - Pointers and non-dispatchable handles are [Z] addresses; [0] is
      [nullptr] / [VK_NULL_HANDLE].  [HandleFromSwapchain] and
      [SwapchainFromHandle] are [reinterpret_cast]s, hence the identity.
    - Every call that leaves the layer (native window, driver, allocator,
      libc and libsync) is logged in the world's trace together with what
      the callee answered; the answers are given by an arbitrary oracle.
    - A computation of the layer is a function from worlds to an optional
      result and world; [None] stands for an execution without a defined
      return (a wild pointer, an index outside an array, a loop that does
      not end).  [DestroySwapchainKHR], which can call the window through
      the null pointer, tells in its result at which call it has stopped
      then ([Ending]). *)

From Stdlib Require Import ZArith Lia Bool List Sorted.
From stdpp Require Import base decidable option list gmap.

#[local] Open Scope Z_scope.

(** ** Machine integers *)

Definition u32 (z : Z) : Z := z mod 2 ^ 32.
Definition u64 (z : Z) : Z := z mod 2 ^ 64.

(** ** Result codes and transform enumerators *)

(** [VkResult]: the enumerators that [swapchain.cpp] names, and the other
    values of the enum, which a driver may hand back.  The layer compares
    results and never looks at their numbers, so the other values are told
    apart by their place among themselves: [VK_RESULT_OTHER n] is the
    [n]-th value of the enum that has none of the names above.  Every value
    of the enum is one value of this type, and two values of this type are
    equal exactly when the values of the enum are. *)
Inductive VkResult : Type :=
  | VK_SUCCESS
  | VK_INCOMPLETE
  | VK_SUBOPTIMAL_KHR
  | VK_ERROR_OUT_OF_HOST_MEMORY
  | VK_ERROR_OUT_OF_DEVICE_MEMORY
  | VK_ERROR_INITIALIZATION_FAILED
  | VK_ERROR_DEVICE_LOST
  | VK_ERROR_SURFACE_LOST_KHR
  | VK_ERROR_NATIVE_WINDOW_IN_USE_KHR
  | VK_ERROR_OUT_OF_DATE_KHR
  | VK_RESULT_OTHER (n : nat).

#[global] Instance VkResult_eq_dec : EqDecision VkResult.
Proof. solve_decision. Defined.

(** [VkSurfaceTransformFlagBitsKHR]. *)
Inductive VkSurfaceTransformFlagBitsKHR : Type :=
  | VK_SURFACE_TRANSFORM_IDENTITY_BIT_KHR
  | VK_SURFACE_TRANSFORM_ROTATE_90_BIT_KHR
  | VK_SURFACE_TRANSFORM_ROTATE_180_BIT_KHR
  | VK_SURFACE_TRANSFORM_ROTATE_270_BIT_KHR
  | VK_SURFACE_TRANSFORM_HORIZONTAL_MIRROR_BIT_KHR
  | VK_SURFACE_TRANSFORM_HORIZONTAL_MIRROR_ROTATE_90_BIT_KHR
  | VK_SURFACE_TRANSFORM_HORIZONTAL_MIRROR_ROTATE_180_BIT_KHR
  | VK_SURFACE_TRANSFORM_HORIZONTAL_MIRROR_ROTATE_270_BIT_KHR
  | VK_SURFACE_TRANSFORM_INHERIT_BIT_KHR.

#[global] Instance VkSurfaceTransform_eq_dec :
  EqDecision VkSurfaceTransformFlagBitsKHR.
Proof. solve_decision. Defined.

(** The native window's transform bits, with the values the comments of
    [TranslateNativeToVulkanTransform] give: a horizontal flip, a vertical
    flip and a 90-degree rotation, combined by bitwise or. *)
Definition NATIVE_WINDOW_TRANSFORM_FLIP_H : Z := 1.
Definition NATIVE_WINDOW_TRANSFORM_FLIP_V : Z := 2.
Definition NATIVE_WINDOW_TRANSFORM_ROT_90 : Z := 4.
Definition NATIVE_WINDOW_TRANSFORM_ROT_180 : Z :=
  Z.lor NATIVE_WINDOW_TRANSFORM_FLIP_H NATIVE_WINDOW_TRANSFORM_FLIP_V.
Definition NATIVE_WINDOW_TRANSFORM_ROT_270 : Z :=
  Z.lor NATIVE_WINDOW_TRANSFORM_ROT_180 NATIVE_WINDOW_TRANSFORM_ROT_90.
Definition NATIVE_WINDOW_TRANSFORM_INVERSE_DISPLAY : Z := 8.

(** ** Transform codec *)

Definition TranslateNativeToVulkanTransform (native : Z)
  : VkSurfaceTransformFlagBitsKHR :=
  if native =? 0 then VK_SURFACE_TRANSFORM_IDENTITY_BIT_KHR
  else if native =? NATIVE_WINDOW_TRANSFORM_ROT_180
  then VK_SURFACE_TRANSFORM_ROTATE_180_BIT_KHR
  else if native =? NATIVE_WINDOW_TRANSFORM_ROT_90
  then VK_SURFACE_TRANSFORM_ROTATE_90_BIT_KHR
  else if native =? NATIVE_WINDOW_TRANSFORM_ROT_270
  then VK_SURFACE_TRANSFORM_ROTATE_270_BIT_KHR
  else VK_SURFACE_TRANSFORM_IDENTITY_BIT_KHR.

Definition InvertTransformToNative (transform : VkSurfaceTransformFlagBitsKHR)
  : Z :=
  match transform with
  | VK_SURFACE_TRANSFORM_ROTATE_90_BIT_KHR => NATIVE_WINDOW_TRANSFORM_ROT_270
  | VK_SURFACE_TRANSFORM_ROTATE_180_BIT_KHR => NATIVE_WINDOW_TRANSFORM_ROT_180
  | VK_SURFACE_TRANSFORM_ROTATE_270_BIT_KHR => NATIVE_WINDOW_TRANSFORM_ROT_90
  | _ => 0
  end.

(** The rotations the layer advertises ([kSupportedTransforms]). *)
Definition kSupportedTransforms : list VkSurfaceTransformFlagBitsKHR :=
  [ VK_SURFACE_TRANSFORM_IDENTITY_BIT_KHR;
    VK_SURFACE_TRANSFORM_ROTATE_90_BIT_KHR;
    VK_SURFACE_TRANSFORM_ROTATE_180_BIT_KHR;
    VK_SURFACE_TRANSFORM_ROTATE_270_BIT_KHR;
    VK_SURFACE_TRANSFORM_INHERIT_BIT_KHR ].

(** Clockwise quarter turns of a supported Vulkan transform (an inherited
    transform asks for no rotation of its own) and of a native rotation. *)
Definition vk_quarter_turns (t : VkSurfaceTransformFlagBitsKHR) : option Z :=
  match t with
  | VK_SURFACE_TRANSFORM_IDENTITY_BIT_KHR => Some 0
  | VK_SURFACE_TRANSFORM_ROTATE_90_BIT_KHR => Some 1
  | VK_SURFACE_TRANSFORM_ROTATE_180_BIT_KHR => Some 2
  | VK_SURFACE_TRANSFORM_ROTATE_270_BIT_KHR => Some 3
  | VK_SURFACE_TRANSFORM_INHERIT_BIT_KHR => Some 0
  | _ => None
  end.

Definition native_quarter_turns (native : Z) : option Z :=
  if native =? 0 then Some 0
  else if native =? NATIVE_WINDOW_TRANSFORM_ROT_90 then Some 1
  else if native =? NATIVE_WINDOW_TRANSFORM_ROT_180 then Some 2
  else if native =? NATIVE_WINDOW_TRANSFORM_ROT_270 then Some 3
  else None.

(** The compositor's rotation applied on top of the application's. *)
Definition compose_turns (a b : option Z) : option Z :=
  match a, b with
  | Some x, Some y => Some ((x + y) mod 4)
  | _, _ => None
  end.

(** ** Worst-result merge *)

Definition kWorstToBest : list VkResult :=
  [ VK_ERROR_DEVICE_LOST;
    VK_ERROR_SURFACE_LOST_KHR;
    VK_ERROR_OUT_OF_DATE_KHR;
    VK_ERROR_OUT_OF_DEVICE_MEMORY;
    VK_ERROR_OUT_OF_HOST_MEMORY;
    VK_SUBOPTIMAL_KHR ].

Fixpoint worst_scan (table : list VkResult) (a b : VkResult)
  : option VkResult :=
  match table with
  | [] => None
  | result :: rest =>
      if bool_decide (a = result) || bool_decide (b = result)
      then Some result
      else worst_scan rest a b
  end.

Definition WorstPresentResult (a b : VkResult) : VkResult :=
  match worst_scan kWorstToBest a b with
  | Some result => result
  | None => if bool_decide (a <> VK_SUCCESS) then a else b
  end.

(** The ranked set of the presentation results and its ranking. *)
Definition present_rank (r : VkResult) : option nat :=
  match r with
  | VK_ERROR_DEVICE_LOST => Some 6%nat
  | VK_ERROR_SURFACE_LOST_KHR => Some 5%nat
  | VK_ERROR_OUT_OF_DATE_KHR => Some 4%nat
  | VK_ERROR_OUT_OF_DEVICE_MEMORY => Some 3%nat
  | VK_ERROR_OUT_OF_HOST_MEMORY => Some 2%nat
  | VK_SUBOPTIMAL_KHR => Some 1%nat
  | VK_SUCCESS => Some 0%nat
  | _ => None
  end.

Definition ranked (r : VkResult) : Prop := is_Some (present_rank r).

Definition higher_priority (a b : VkResult) : VkResult :=
  match present_rank a, present_rank b with
  | Some ra, Some rb => if (rb <=? ra)%nat then a else b
  | _, _ => a
  end.

(** ** Timing records *)

Record VkPastPresentationTimingGOOGLE : Type := {
  presentID : Z;              (* uint32_t *)
  desiredPresentTime : Z;     (* uint64_t *)
  actualPresentTime : Z;      (* uint64_t *)
  earliestPresentTime : Z;    (* uint64_t *)
  presentMargin : Z           (* uint64_t *)
}.

Record VkPresentTimeGOOGLE : Type := {
  pt_presentID : Z;           (* uint32_t *)
  pt_desiredPresentTime : Z   (* uint64_t *)
}.

Record TimingInfo : Type := {
  vals_ : VkPastPresentationTimingGOOGLE;
  timestamp_desired_present_time_ : Z;
  timestamp_actual_present_time_ : Z;
  timestamp_render_complete_time_ : Z;
  timestamp_composition_latch_time_ : Z
}.

(** [TimingInfo(const VkPresentTimeGOOGLE* qp)]. *)
Definition TimingInfo_of (qp : VkPresentTimeGOOGLE) : TimingInfo :=
  {| vals_ := {| presentID := pt_presentID qp;
                 desiredPresentTime := pt_desiredPresentTime qp;
                 actualPresentTime := 0;
                 earliestPresentTime := 0;
                 presentMargin := 0 |};
     timestamp_desired_present_time_ := 0;
     timestamp_actual_present_time_ := 0;
     timestamp_render_complete_time_ := 0;
     timestamp_composition_latch_time_ := 0 |}.

Definition ready (ti : TimingInfo) : bool :=
  negb (timestamp_desired_present_time_ ti =? 0) &&
  negb (timestamp_actual_present_time_ ti =? 0) &&
  negb (timestamp_render_complete_time_ ti =? 0) &&
  negb (timestamp_composition_latch_time_ ti =? 0).

(** The [while] loop of [TimingInfo::calculate] on its two locals.  Each
    level of [fuel] pays for one turn of the loop. *)
Fixpoint calculate_loop (fuel : nat) (rdur latch early_time margin : Z)
  : option (Z * Z) :=
  if (margin >? rdur) && (u64 (early_time - rdur) >? latch) then
    match fuel with
    | O => None
    | S fuel' =>
        calculate_loop fuel' rdur latch
          (u64 (early_time - rdur)) (u64 (margin - rdur))
    end
  else Some (early_time, margin).

(** The loop takes every turn away [rdur] from [margin], so it makes at most
    [margin / rdur] turns; with a refresh duration of zero it stops at once
    or never. *)
Definition calculate_fuel (rdur margin : Z) : nat := Z.to_nat (margin / rdur).

Definition calculate (rdur : Z) (ti : TimingInfo) : option TimingInfo :=
  let actual := timestamp_actual_present_time_ ti in
  let margin := u64 (timestamp_composition_latch_time_ ti -
                     timestamp_render_complete_time_ ti) in
  match calculate_loop (calculate_fuel rdur margin) rdur
          (timestamp_composition_latch_time_ ti) actual margin with
  | None => None
  | Some (early_time, margin') =>
      Some {| vals_ := {| presentID := presentID (vals_ ti);
                          desiredPresentTime := desiredPresentTime (vals_ ti);
                          actualPresentTime := actual;
                          earliestPresentTime := early_time;
                          presentMargin := margin' |};
              timestamp_desired_present_time_ :=
                timestamp_desired_present_time_ ti;
              timestamp_actual_present_time_ :=
                timestamp_actual_present_time_ ti;
              timestamp_render_complete_time_ :=
                timestamp_render_complete_time_ ti;
              timestamp_composition_latch_time_ :=
                timestamp_composition_latch_time_ ti |}
  end.

Definition get_values (ti : TimingInfo) : VkPastPresentationTimingGOOGLE :=
  vals_ ti.

Definition compare_type (lhs rhs : TimingInfo) : Z :=
  if presentID (vals_ lhs) <? presentID (vals_ rhs) then -1
  else if presentID (vals_ lhs) >? presentID (vals_ rhs) then 1
  else 0.

Definition MAX_TIMING_INFOS : Z := 10.
Definition MIN_NUM_FRAMES_AGO : Z := 5.

(** ** The timing store

    Modelled from the spec: [android::SortedVector] is the utility library's
    container and not part of these sources.  The store is "an ordered
    sequence sorted by presentID" and [add] does "insert ordered by
    presentID"; as the container keeps one item per key, an item that
    compares equal to a stored one takes its place.  [removeAt] and
    [editItemAt] abort outside the vector. *)
Fixpoint SortedVector_add (item : TimingInfo) (v : list TimingInfo)
  : list TimingInfo :=
  match v with
  | [] => [item]
  | x :: rest =>
      if compare_type x item <? 0 then x :: SortedVector_add item rest
      else if compare_type x item =? 0 then item :: rest
      else item :: x :: rest
  end.

Definition SortedVector_removeAt (i : nat) (v : list TimingInfo)
  : option (list TimingInfo) :=
  if (i <? length v)%nat then Some (delete i v) else None.

(** The enrolment of [QueuePresentKHR]: add the record, then trim. *)
Definition enroll (time : VkPresentTimeGOOGLE) (timing : list TimingInfo)
  : list TimingInfo :=
  let timing' := SortedVector_add (TimingInfo_of time) timing in
  let num_timings := u32 (Z.of_nat (length timing')) in
  if num_timings >? MAX_TIMING_INFOS then
    match SortedVector_removeAt 0 timing' with
    | Some t => t
    | None => timing'
    end
  else timing'.

(** The [for] loop of [copy_ready_timings] on its locals [i], [num_timings]
    and [num_copied] (all [uint32_t]), the store and the caller's array.
    [fuel] pays for the turns of the loop. *)
Fixpoint copy_ready_loop (fuel : nat) (count i num_timings num_copied : Z)
    (timing : list TimingInfo) (timings : list VkPastPresentationTimingGOOGLE)
  : option (list TimingInfo * list VkPastPresentationTimingGOOGLE * Z) :=
  if i <? num_timings then
    match fuel with
    | O => None
    | S fuel' =>
        match timing !! Z.to_nat i with
        | None => None
        | Some ti =>
            if ready ti then
              if (Z.to_nat num_copied <? length timings)%nat then
                let timings' := <[Z.to_nat num_copied := get_values ti]> timings in
                let num_copied' := u32 (num_copied + 1) in
                match SortedVector_removeAt (Z.to_nat i) timing with
                | None => None
                | Some timing' =>
                    let i' := u32 (i - 1) in
                    let num_timings' := u32 (num_timings - 1) in
                    if count =? num_copied'
                    then Some (timing', timings', num_copied')
                    else copy_ready_loop fuel' count (u32 (i' + 1))
                           num_timings' num_copied' timing' timings'
                end
              else None
            else copy_ready_loop fuel' count (u32 (i + 1))
                   num_timings num_copied timing timings
        end
    end
  else Some (timing, timings, num_copied).

(** [copy_ready_timings]: the store, the caller's [*count] and array go in;
    the store, the array and [*count] come out. *)
Definition copy_ready_timings (timing : list TimingInfo) (count : Z)
    (timings : list VkPastPresentationTimingGOOGLE)
  : option (list TimingInfo * list VkPastPresentationTimingGOOGLE * Z) :=
  let num_timings := u32 (Z.of_nat (length timing)) in
  let num_timings := if count <? num_timings then count else num_timings in
  copy_ready_loop (length timing) count 0 num_timings 0 timing timings.

(** ** Objects of the layer *)

(** Modelled from the spec: [android::BufferQueue::NUM_BUFFER_SLOTS], "the
    window system's slot count constant", is declared in the buffer queue's
    header, which is not part of these sources. *)
Definition NUM_BUFFER_SLOTS : nat := 64.

Record Surface : Type := {
  window : Z;                 (* android::sp<ANativeWindow> *)
  swapchain_handle : Z        (* VkSwapchainKHR *)
}.

(** [Swapchain::Image]. *)
Record Image : Type := {
  image : Z;                  (* VkImage *)
  buffer : Z;                 (* android::sp<ANativeWindowBuffer> *)
  dequeue_fence : Z;          (* int *)
  dequeued : bool
}.

(** [Image()]. *)
Definition Image_new : Image :=
  {| image := 0; buffer := 0; dequeue_fence := -1; dequeued := false |}.

Definition with_image (v : Z) (img : Image) : Image :=
  {| image := v; buffer := buffer img;
     dequeue_fence := dequeue_fence img; dequeued := dequeued img |}.
Definition with_buffer (v : Z) (img : Image) : Image :=
  {| image := image img; buffer := v;
     dequeue_fence := dequeue_fence img; dequeued := dequeued img |}.
Definition with_dequeue_fence (v : Z) (img : Image) : Image :=
  {| image := image img; buffer := buffer img;
     dequeue_fence := v; dequeued := dequeued img |}.
Definition with_dequeued (v : bool) (img : Image) : Image :=
  {| image := image img; buffer := buffer img;
     dequeue_fence := dequeue_fence img; dequeued := v |}.

Record Swapchain : Type := {
  surface : Z;                (* Surface&, the address of the surface *)
  num_images : Z;             (* uint32_t *)
  frame_timestamps_enabled : bool;
  min_refresh_duration : Z;   (* uint64_t *)
  max_refresh_duration : Z;   (* uint64_t *)
  images : list Image;        (* Image images[NUM_BUFFER_SLOTS] *)
  timing : list TimingInfo    (* android::SortedVector<TimingInfo> *)
}.

Definition with_images (v : list Image) (sc : Swapchain) : Swapchain :=
  {| surface := surface sc; num_images := num_images sc;
     frame_timestamps_enabled := frame_timestamps_enabled sc;
     min_refresh_duration := min_refresh_duration sc;
     max_refresh_duration := max_refresh_duration sc;
     images := v; timing := timing sc |}.
Definition with_timing (v : list TimingInfo) (sc : Swapchain) : Swapchain :=
  {| surface := surface sc; num_images := num_images sc;
     frame_timestamps_enabled := frame_timestamps_enabled sc;
     min_refresh_duration := min_refresh_duration sc;
     max_refresh_duration := max_refresh_duration sc;
     images := images sc; timing := v |}.
Definition with_frame_timestamps_enabled (v : bool) (sc : Swapchain)
  : Swapchain :=
  {| surface := surface sc; num_images := num_images sc;
     frame_timestamps_enabled := v;
     min_refresh_duration := min_refresh_duration sc;
     max_refresh_duration := max_refresh_duration sc;
     images := images sc; timing := timing sc |}.

(** ** Calls that leave the layer *)

Inductive PixelFormat : Type :=
  | HAL_PIXEL_FORMAT_RGBA_8888
  | HAL_PIXEL_FORMAT_RGB_565.

Inductive WindowQuery : Type :=
  | NATIVE_WINDOW_DEFAULT_WIDTH
  | NATIVE_WINDOW_DEFAULT_HEIGHT
  | NATIVE_WINDOW_TRANSFORM_HINT
  | NATIVE_WINDOW_MIN_UNDEQUEUED_BUFFERS.

Inductive VkFormat : Type :=
  | VK_FORMAT_R8G8B8A8_UNORM
  | VK_FORMAT_R8G8B8A8_SRGB
  | VK_FORMAT_R5G6B5_UNORM_PACK16
  | VK_FORMAT_OTHER (code : Z).

Inductive VkPresentModeKHR : Type :=
  | VK_PRESENT_MODE_MAILBOX_KHR
  | VK_PRESENT_MODE_FIFO_KHR
  | VK_PRESENT_MODE_FRONT_BUFFERED_DEMAND_REFRESH_KHR
  | VK_PRESENT_MODE_FRONT_BUFFERED_CONTINUOUS_REFRESH_KHR
  | VK_PRESENT_MODE_OTHER (code : Z).

#[global] Instance VkPresentModeKHR_eq_dec : EqDecision VkPresentModeKHR.
Proof. solve_decision. Defined.

(** The allocator a call goes through: the caller's, or the one of the
    instance or device when the caller passes none. *)
Inductive Allocator : Type :=
  | CallerAllocator (callbacks : Z)
  | DefaultAllocator (owner : Z).

Definition pick_allocator (allocator owner : Z) : Allocator :=
  if allocator =? 0 then DefaultAllocator owner else CallerAllocator allocator.

Record android_native_rect_t : Type := {
  left : Z; top : Z; right : Z; bottom : Z
}.

Inductive Call : Type :=
  (* the native window *)
  | native_window_api_connect (win : Z)
  | native_window_api_disconnect (win : Z)
  | native_window_set_buffer_count (win count : Z)
  | setSwapInterval (win interval : Z)
  | native_window_set_shared_buffer_mode (win : Z) (on : bool)
  | native_window_set_auto_refresh (win : Z) (on : bool)
  | native_window_set_buffers_format (win : Z) (format : PixelFormat)
  | native_window_set_buffers_data_space_SRGB_LINEAR (win : Z)
  | native_window_set_buffers_dimensions (win width height : Z)
  | native_window_set_buffers_transform (win transform : Z)
  | native_window_set_scaling_mode_SCALE_TO_WINDOW (win : Z)
  | native_window_set_usage (win usage : Z)
  | native_window_set_buffers_timestamp (win timestamp : Z)
  | native_window_set_surface_damage
      (win : Z) (rects : list android_native_rect_t) (rcount : Z)
  | native_window_enable_frame_timestamps (win : Z) (enable : bool)
  | native_window_get_refresh_cycle_period (win : Z)
  | native_window_get_frame_timestamps (win frames_ago : Z)
  | query (win : Z) (what : WindowQuery)
  | dequeueBuffer (win : Z)
  | queueBuffer (win buf fence : Z)
  | cancelBuffer (win buf fence : Z)
  (* the driver *)
  | CreateImage (device : Z) (format : VkFormat) (usage : Z)
      (native_buffer : Z) (swapchain_image_usage : Z)
  | DestroyImage (device img : Z)
  | AcquireImageANDROID (device img fence_clone semaphore fence : Z)
  | QueueSignalReleaseImageANDROID
      (queue : Z) (wait_semaphores : list Z) (img : Z)
  | GetSwapchainGrallocUsage2ANDROID
      (device : Z) (format : VkFormat) (usage swapchain_image_usage : Z)
  | GetSwapchainGrallocUsageANDROID (device : Z) (format : VkFormat) (usage : Z)
  (* the allocator *)
  | pfnAllocation (allocator : Allocator)
  | pfnReallocation (allocator : Allocator) (original count : Z)
  | pfnFree (allocator : Allocator) (memory : Z)
  (* libc and libsync *)
  | close (fd : Z)
  | dup (fd : Z)
  | sync_wait (fd : Z).

(** What a callee hands back: its return value and what it stores through
    the pointers it is given.  A call reads the fields it has. *)
Record Answer : Type := {
  a_err : Z;                  (* the int of a window call *)
  a_result : VkResult;        (* the VkResult of a driver call *)
  a_value : Z;                (* a queried int, a pointer, a descriptor *)
  a_buffer : Z;               (* ANativeWindowBuffer* of dequeueBuffer *)
  a_fence : Z;                (* a fence descriptor *)
  a_image : Z;                (* VkImage of CreateImage *)
  a_desired_present_time : Z; (* int64_t *)
  a_render_complete_time : Z; (* int64_t *)
  a_composition_latch_time : Z; (* int64_t *)
  a_actual_present_time : Z;  (* int64_t *)
  a_min_rdur : Z;             (* int64_t *)
  a_max_rdur : Z              (* int64_t *)
}.

Definition Trace : Type := list (Call * Answer).

(** The entry points the driver's dispatch table may leave empty. *)
Record Dispatch : Type := {
  has_GetSwapchainGrallocUsage2ANDROID : bool;
  has_GetSwapchainGrallocUsageANDROID : bool
}.

Record World : Type := {
  surfaces : gmap Z Surface;
  swapchains : gmap Z Swapchain;
  trace : Trace;
  oracle : Trace -> Call -> Answer;
  dispatch : Dispatch
}.

Definition with_surfaces (v : gmap Z Surface) (w : World) : World :=
  {| surfaces := v; swapchains := swapchains w; trace := trace w;
     oracle := oracle w; dispatch := dispatch w |}.
Definition with_swapchains (v : gmap Z Swapchain) (w : World) : World :=
  {| surfaces := surfaces w; swapchains := v; trace := trace w;
     oracle := oracle w; dispatch := dispatch w |}.
Definition with_trace (v : Trace) (w : World) : World :=
  {| surfaces := surfaces w; swapchains := swapchains w; trace := v;
     oracle := oracle w; dispatch := dispatch w |}.

(** ** The monad of the layer's computations *)

Definition M (A : Type) : Type := World -> option (A * World).

Definition ret {A : Type} (a : A) : M A := fun w => Some (a, w).

Definition bind {A B : Type} (m : M A) (k : A -> M B) : M B :=
  fun w => match m w with
           | Some (a, w') => k a w'
           | None => None
           end.

Notation "'let*' x ':=' m 'in' k" := (bind m (fun x => k))
  (at level 10, x pattern, m at level 100, k at level 200).
Notation "m ';;' k" := (bind m (fun _ => k))
  (at level 100, k at level 200, right associativity).

(** No defined return. *)
Definition undefined {A : Type} : M A := fun _ => None.

Definition when (b : bool) (m : M unit) : M unit := if b then m else ret tt.

Definition call (c : Call) : M Answer :=
  fun w => let a := oracle w (trace w) c in
           Some (a, with_trace (trace w ++ [(c, a)]) w).

Definition get_dispatch : M Dispatch := fun w => Some (dispatch w, w).

(** [*SurfaceFromHandle(h)] and [*SwapchainFromHandle(h)]: reading and
    writing through a pointer to a live object. *)
Definition get_surface (p : Z) : M Surface :=
  fun w => match surfaces w !! p with
           | Some s => Some (s, w)
           | None => None
           end.

Definition put_surface (p : Z) (s : Surface) : M unit :=
  fun w => match surfaces w !! p with
           | Some _ => Some (tt, with_surfaces (<[p := s]> (surfaces w)) w)
           | None => None
           end.

Definition get_swapchain (p : Z) : M Swapchain :=
  fun w => match swapchains w !! p with
           | Some s => Some (s, w)
           | None => None
           end.

Definition put_swapchain (p : Z) (s : Swapchain) : M unit :=
  fun w => match swapchains w !! p with
           | Some _ => Some (tt, with_swapchains (<[p := s]> (swapchains w)) w)
           | None => None
           end.

(** Placement [new] and the destructor followed by the release of the
    memory. *)
Definition new_surface (p : Z) (s : Surface) : M unit :=
  fun w => Some (tt, with_surfaces (<[p := s]> (surfaces w)) w).
Definition delete_surface (p : Z) : M unit :=
  fun w => Some (tt, with_surfaces (delete p (surfaces w)) w).
Definition new_swapchain (p : Z) (s : Swapchain) : M unit :=
  fun w => Some (tt, with_swapchains (<[p := s]> (swapchains w)) w).
Definition delete_swapchain (p : Z) : M unit :=
  fun w => Some (tt, with_swapchains (delete p (swapchains w)) w).

(** [images[i]] of a C array. *)
Definition image_at (i : nat) (imgs : list Image) : M Image :=
  match imgs !! i with
  | Some img => ret img
  | None => undefined
  end.

(** [for (uint32_t i = first; i < first + n; i++) body(images[i]);] *)
Fixpoint for_images (n : nat) (i : nat) (body : Image -> M Image)
    (imgs : list Image) : M (list Image) :=
  match n with
  | O => ret imgs
  | S n' =>
      let* img := image_at i imgs in
      let* img' := body img in
      for_images n' (S i) body (<[i := img']> imgs)
  end.

(** ** Releasing a slot, orphaning a swapchain *)

Definition ReleaseSwapchainImage (device win release_fence : Z) (img : Image)
  : M Image :=
  let* img :=
    if dequeued img then
      let* release_fence :=
        if release_fence >=? 0 then
          when (dequeue_fence img >=? 0)
            (let* _ := call (close (dequeue_fence img)) in ret tt);;
          ret release_fence
        else ret (dequeue_fence img) in
      let img := with_dequeue_fence (-1) img in
      (if negb (win =? 0) then
         let* _ := call (cancelBuffer win (buffer img) release_fence) in ret tt
       else
         when (release_fence >=? 0)
           (let* _ := call (sync_wait release_fence) in
            let* _ := call (close release_fence) in ret tt));;
      ret (with_dequeued false img)
    else ret img in
  let* img :=
    if negb (image img =? 0) then
      let* _ := call (DestroyImage device (image img)) in
      ret (with_image 0 img)
    else ret img in
  ret (with_buffer 0 img).

Definition OrphanSwapchain (device swapchain : Z) : M unit :=
  let* sc := get_swapchain swapchain in
  let* surf := get_surface (surface sc) in
  if negb (swapchain_handle surf =? swapchain) then ret tt
  else
    let* imgs :=
      for_images (Z.to_nat (num_images sc)) 0
        (fun img =>
           if negb (dequeued img)
           then ReleaseSwapchainImage device 0 (-1) img
           else ret img)
        (images sc) in
    put_swapchain swapchain (with_images imgs sc);;
    put_surface (surface sc)
      {| window := window surf; swapchain_handle := 0 |};;
    put_swapchain swapchain (with_timing [] (with_images imgs sc)).

(** ** Collecting the timestamps of the presents *)

Definition with_timestamps (a : Answer) (ti : TimingInfo) : TimingInfo :=
  {| vals_ := vals_ ti;
     timestamp_desired_present_time_ := u64 (a_desired_present_time a);
     timestamp_actual_present_time_ := u64 (a_actual_present_time a);
     timestamp_render_complete_time_ := u64 (a_render_complete_time a);
     timestamp_composition_latch_time_ := u64 (a_composition_latch_time a) |}.

(** The inner loop of [get_num_ready_timings] over [f], for one record that
    is not ready; the flag tells whether [num_ready] is to be counted up. *)
Fixpoint probe_frames (n : nat) (f : Z) (win rdur : Z) (ti : TimingInfo)
  : M (TimingInfo * bool) :=
  match n with
  | O => ret (ti, false)
  | S n' =>
      let* a := call (native_window_get_frame_timestamps win f) in
      if negb (a_err a =? 0) then ret (ti, false)
      else if u64 (a_desired_present_time a) =? desiredPresentTime (vals_ ti)
      then
        let ti := with_timestamps a ti in
        if ready ti then
          match calculate rdur ti with
          | Some ti => ret (ti, true)
          | None => undefined
          end
        else ret (ti, false)
      else probe_frames n' (u32 (f + 1)) win rdur ti
  end.

(** The outer loop of [get_num_ready_timings] over [i]. *)
Fixpoint ready_loop (n : nat) (i : nat) (win rdur frames_ago : Z)
    (tm : list TimingInfo) (num_ready : Z) : M (list TimingInfo * Z) :=
  match n with
  | O => ret (tm, num_ready)
  | S n' =>
      match tm !! i with
      | None => undefined
      | Some ti =>
          if ready ti then
            ready_loop n' (S i) win rdur frames_ago tm (u32 (num_ready + 1))
          else
            let* (ti', counted) :=
              probe_frames (Z.to_nat (frames_ago - MIN_NUM_FRAMES_AGO))
                MIN_NUM_FRAMES_AGO win rdur ti in
            ready_loop n' (S i) win rdur frames_ago (<[i := ti']> tm)
              (if counted : bool then u32 (num_ready + 1) else num_ready)
      end
  end.

Definition get_num_ready_timings (swapchain : Z) : M Z :=
  let* sc := get_swapchain swapchain in
  let* surf := get_surface (surface sc) in
  let num_timings := u32 (Z.of_nat (length (timing sc))) in
  let frames_ago := num_timings in
  let* (tm, num_ready) :=
    ready_loop (Z.to_nat num_timings) 0 (window surf)
      (min_refresh_duration sc) frames_ago (timing sc) 0 in
  put_swapchain swapchain (with_timing tm sc);;
  ret num_ready.

(** ** Surfaces *)

Definition CreateAndroidSurfaceKHR (instance win allocator : Z)
  : M (VkResult * option Z) :=
  let allocator := pick_allocator allocator instance in
  let* mem := call (pfnAllocation allocator) in
  if a_value mem =? 0 then ret (VK_ERROR_OUT_OF_HOST_MEMORY, None)
  else
    let surface := a_value mem in
    new_surface surface {| window := win; swapchain_handle := 0 |};;
    let* err := call (native_window_api_connect win) in
    if negb (a_err err =? 0) then
      delete_surface surface;;
      let* _ := call (pfnFree allocator surface) in
      ret (VK_ERROR_INITIALIZATION_FAILED, None)
    else ret (VK_SUCCESS, Some surface).

Definition DestroySurfaceKHR (instance surface_handle allocator : Z)
  : M unit :=
  if surface_handle =? 0 then ret tt
  else
    let* surf := get_surface surface_handle in
    let* _ := call (native_window_api_disconnect (window surf)) in
    delete_surface surface_handle;;
    let allocator := pick_allocator allocator instance in
    let* _ := call (pfnFree allocator surface_handle) in
    ret tt.

Record VkSurfaceCapabilitiesKHR : Type := {
  minImageCount : Z;
  maxImageCount : Z;
  currentExtent : Z * Z;
  minImageExtent : Z * Z;
  maxImageExtent : Z * Z;
  maxImageArrayLayers : Z;
  supportedTransforms : list VkSurfaceTransformFlagBitsKHR;
  currentTransform : VkSurfaceTransformFlagBitsKHR
}.

Definition GetPhysicalDeviceSurfaceCapabilitiesKHR (surface : Z)
  : M (VkResult * option VkSurfaceCapabilitiesKHR) :=
  let* surf := get_surface surface in
  let win := window surf in
  let* width := call (query win NATIVE_WINDOW_DEFAULT_WIDTH) in
  if negb (a_err width =? 0) then ret (VK_ERROR_INITIALIZATION_FAILED, None)
  else
    let* height := call (query win NATIVE_WINDOW_DEFAULT_HEIGHT) in
    if negb (a_err height =? 0)
    then ret (VK_ERROR_INITIALIZATION_FAILED, None)
    else
      let* transform_hint := call (query win NATIVE_WINDOW_TRANSFORM_HINT) in
      if negb (a_err transform_hint =? 0)
      then ret (VK_ERROR_INITIALIZATION_FAILED, None)
      else
        ret (VK_SUCCESS,
             Some {| minImageCount := 2;
                     maxImageCount := 3;
                     currentExtent :=
                       (u32 (a_value width), u32 (a_value height));
                     minImageExtent := (1, 1);
                     maxImageExtent := (4096, 4096);
                     maxImageArrayLayers := 1;
                     supportedTransforms := kSupportedTransforms;
                     currentTransform :=
                       TranslateNativeToVulkanTransform
                         (a_value transform_hint) |}).

(** ** What a surface supports *)

Inductive VkColorSpaceKHR : Type :=
  | VK_COLOR_SPACE_SRGB_NONLINEAR_KHR.

Record VkSurfaceFormatKHR : Type := {
  format : VkFormat;
  colorSpace : VkColorSpaceKHR
}.

Definition kFormats : list VkSurfaceFormatKHR :=
  [ {| format := VK_FORMAT_R8G8B8A8_UNORM;
       colorSpace := VK_COLOR_SPACE_SRGB_NONLINEAR_KHR |};
    {| format := VK_FORMAT_R8G8B8A8_SRGB;
       colorSpace := VK_COLOR_SPACE_SRGB_NONLINEAR_KHR |};
    {| format := VK_FORMAT_R5G6B5_UNORM_PACK16;
       colorSpace := VK_COLOR_SPACE_SRGB_NONLINEAR_KHR |} ].

Definition kNumFormats : Z := Z.of_nat (length kFormats).

(** [GetPhysicalDeviceSurfaceFormatsKHR]: [*count] and the caller's array,
    if any, go in; the result, [*count] and the array come out.  [std::copy]
    into an array that is too short has no defined outcome. *)
Definition GetPhysicalDeviceSurfaceFormatsKHR (count : Z)
    (formats : option (list VkSurfaceFormatKHR))
  : option (VkResult * Z * option (list VkSurfaceFormatKHR)) :=
  match formats with
  | Some out =>
      let result :=
        if count <? kNumFormats then VK_INCOMPLETE else VK_SUCCESS in
      let count := Z.min count kNumFormats in
      if (Z.to_nat count <=? length out)%nat then
        Some (result, count,
              Some (take (Z.to_nat count) kFormats ++
                    drop (Z.to_nat count) out))
      else None
  | None => Some (VK_SUCCESS, kNumFormats, None)
  end.

Definition kModes : list VkPresentModeKHR :=
  [ VK_PRESENT_MODE_MAILBOX_KHR;
    VK_PRESENT_MODE_FIFO_KHR;
    VK_PRESENT_MODE_FRONT_BUFFERED_DEMAND_REFRESH_KHR;
    VK_PRESENT_MODE_FRONT_BUFFERED_CONTINUOUS_REFRESH_KHR ].

Definition kNumModes : Z := Z.of_nat (length kModes).

(** [GetPhysicalDeviceSurfacePresentModesKHR], in the same way. *)
Definition GetPhysicalDeviceSurfacePresentModesKHR (count : Z)
    (modes : option (list VkPresentModeKHR))
  : option (VkResult * Z * option (list VkPresentModeKHR)) :=
  match modes with
  | Some out =>
      let result :=
        if count <? kNumModes then VK_INCOMPLETE else VK_SUCCESS in
      let count := Z.min count kNumModes in
      if (Z.to_nat count <=? length out)%nat then
        Some (result, count,
              Some (take (Z.to_nat count) kModes ++
                    drop (Z.to_nat count) out))
      else None
  | None => Some (VK_SUCCESS, kNumModes, None)
  end.

(** ** Creating a swapchain *)

Record VkSwapchainCreateInfoKHR : Type := {
  ci_surface : Z;
  ci_minImageCount : Z;                         (* uint32_t *)
  ci_imageFormat : VkFormat;
  ci_imageExtent : Z * Z;                       (* uint32_t width, height *)
  ci_imageUsage : Z;
  ci_preTransform : VkSurfaceTransformFlagBitsKHR;
  ci_presentMode : VkPresentModeKHR;
  ci_oldSwapchain : Z
}.

(** [static_cast<int>] of a [uint32_t]. *)
Definition s32 (z : Z) : Z := (z + 2 ^ 31) mod 2 ^ 32 - 2 ^ 31.

Definition GRALLOC_USAGE_HW_TEXTURE : Z := 0x100.
Definition GRALLOC_USAGE_HW_RENDER : Z := 0x200.
Definition VK_SWAPCHAIN_IMAGE_USAGE_FRONT_BUFFER_BIT_ANDROID : Z := 1.

(** A window call whose failure ends the entry point with
    [VK_ERROR_INITIALIZATION_FAILED]. *)
Definition check {A : Type} (c : Call) (k : M (VkResult * option A))
  : M (VkResult * option A) :=
  let* a := call c in
  if negb (a_err a =? 0) then ret (VK_ERROR_INITIALIZATION_FAILED, None)
  else k.

Notation "'check*' c 'in' k" := (check c k)
  (at level 10, c at level 100, k at level 200).

(** The first loop of [CreateSwapchainKHR]: dequeue every buffer and create
    an image for it; [result] is the local of that name. *)
Fixpoint dequeue_all (n : nat) (i : nat) (device win : Z)
    (create_info : VkSwapchainCreateInfoKHR) (swapchain_image_usage : Z)
    (result : VkResult) (imgs : list Image) : M (VkResult * list Image) :=
  match n with
  | O => ret (result, imgs)
  | S n' =>
      let* img := image_at i imgs in
      let* a := call (dequeueBuffer win) in
      let img := with_dequeue_fence (a_fence a) img in
      if negb (a_err a =? 0)
      then ret (VK_ERROR_INITIALIZATION_FAILED, <[i := img]> imgs)
      else
        let img := with_dequeued true (with_buffer (a_buffer a) img) in
        let* c :=
          call (CreateImage device (ci_imageFormat create_info)
                  (ci_imageUsage create_info) (buffer img)
                  swapchain_image_usage) in
        let img := with_image (a_image c) img in
        if bool_decide (a_result c <> VK_SUCCESS)
        then ret (a_result c, <[i := img]> imgs)
        else dequeue_all n' (S i) device win create_info
               swapchain_image_usage (a_result c) (<[i := img]> imgs)
  end.

(** The body of the second loop: hand the buffer back, and on the error
    path destroy the image. *)
Definition cancel_one (device win : Z) (result : VkResult) (img : Image)
  : M Image :=
  let* img :=
    if dequeued img then
      let* _ := call (cancelBuffer win (buffer img) (dequeue_fence img)) in
      ret (with_dequeued false (with_dequeue_fence (-1) img))
    else ret img in
  when (bool_decide (result <> VK_SUCCESS))
    (when (negb (image img =? 0))
       (let* _ := call (DestroyImage device (image img)) in ret tt));;
  ret img.

(** The gralloc usage the driver asks for; [None] when the driver fails. *)
Definition swapchain_gralloc_usage (device : Z)
    (create_info : VkSwapchainCreateInfoKHR) (swapchain_image_usage : Z)
  : M (option Z) :=
  let* d := get_dispatch in
  if has_GetSwapchainGrallocUsage2ANDROID d then
    let* a :=
      call (GetSwapchainGrallocUsage2ANDROID device
              (ci_imageFormat create_info) (ci_imageUsage create_info)
              swapchain_image_usage) in
    if bool_decide (a_result a <> VK_SUCCESS) then ret None
    else ret (Some (a_value a))
  else if has_GetSwapchainGrallocUsageANDROID d then
    let* a :=
      call (GetSwapchainGrallocUsageANDROID device
              (ci_imageFormat create_info) (ci_imageUsage create_info)) in
    if bool_decide (a_result a <> VK_SUCCESS) then ret None
    else ret (Some (a_value a))
  else ret (Some (Z.lor GRALLOC_USAGE_HW_RENDER GRALLOC_USAGE_HW_TEXTURE)).

(** [Swapchain(surface, num_images)]. *)
Definition Swapchain_new (surface win num_images : Z) : M Swapchain :=
  let* a := call (native_window_get_refresh_cycle_period win) in
  ret {| surface := surface;
         num_images := num_images;
         frame_timestamps_enabled := false;
         min_refresh_duration := u64 (a_min_rdur a);
         max_refresh_duration := u64 (a_max_rdur a);
         images := replicate NUM_BUFFER_SLOTS Image_new;
         timing := [] |}.

(** The head of [CreateSwapchainKHR]: the surface must name the old
    swapchain, which is then orphaned.  [false]: the entry point returns
    [VK_ERROR_NATIVE_WINDOW_IN_USE_KHR]. *)
Definition create_orphan_step (device : Z)
    (create_info : VkSwapchainCreateInfoKHR) : M bool :=
  let* surf := get_surface (ci_surface create_info) in
  if negb (swapchain_handle surf =? ci_oldSwapchain create_info)
  then ret false
  else
    when (negb (ci_oldSwapchain create_info =? 0))
      (OrphanSwapchain device (ci_oldSwapchain create_info));;
    ret true.

(** From the allocation of the [Swapchain] to the return. *)
Definition create_allocated (device win : Z)
    (create_info : VkSwapchainCreateInfoKHR) (allocator : Allocator)
    (num_images swapchain_image_usage : Z) : M (VkResult * option Z) :=
  let* mem := call (pfnAllocation allocator) in
  if a_value mem =? 0 then ret (VK_ERROR_OUT_OF_HOST_MEMORY, None)
  else
    let swapchain := a_value mem in
    let* sc := Swapchain_new (ci_surface create_info) win num_images in
    new_swapchain swapchain sc;;
    let* (result, imgs) :=
      dequeue_all (Z.to_nat num_images) 0 device win create_info
        swapchain_image_usage VK_SUCCESS (images sc) in
    let* imgs :=
      for_images (Z.to_nat num_images) 0 (cancel_one device win result)
        imgs in
    if bool_decide (result <> VK_SUCCESS) then
      delete_swapchain swapchain;;
      let* _ := call (pfnFree allocator swapchain) in
      ret (result, None)
    else
      put_swapchain swapchain (with_images imgs sc);;
      let* surf := get_surface (ci_surface create_info) in
      put_surface (ci_surface create_info)
        {| window := window surf; swapchain_handle := swapchain |};;
      ret (VK_SUCCESS, Some swapchain).

(** From the reset of the native window to the return. *)
Definition create_after_orphan (device : Z)
    (create_info : VkSwapchainCreateInfoKHR) (allocator : Z)
  : M (VkResult * option Z) :=
  let allocator := pick_allocator allocator device in
  let* surf := get_surface (ci_surface create_info) in
  let win := window surf in
  let* _ := call (native_window_api_disconnect win) in
  let* _ := call (native_window_api_connect win) in
  check* native_window_set_buffer_count win 0 in
  check* setSwapInterval win 1 in
  check* native_window_set_shared_buffer_mode win false in
  check* native_window_set_auto_refresh win false in
  let native_format :=
    match ci_imageFormat create_info with
    | VK_FORMAT_R8G8B8A8_UNORM | VK_FORMAT_R8G8B8A8_SRGB =>
        HAL_PIXEL_FORMAT_RGBA_8888
    | VK_FORMAT_R5G6B5_UNORM_PACK16 => HAL_PIXEL_FORMAT_RGB_565
    | VK_FORMAT_OTHER _ => HAL_PIXEL_FORMAT_RGBA_8888
    end in
  check* native_window_set_buffers_format win native_format in
  check* native_window_set_buffers_data_space_SRGB_LINEAR win in
  check* native_window_set_buffers_dimensions win
           (s32 (fst (ci_imageExtent create_info)))
           (s32 (snd (ci_imageExtent create_info))) in
  check* native_window_set_buffers_transform win
           (InvertTransformToNative (ci_preTransform create_info)) in
  check* native_window_set_scaling_mode_SCALE_TO_WINDOW win in
  let* q := call (query win NATIVE_WINDOW_MIN_UNDEQUEUED_BUFFERS) in
  if negb (a_err q =? 0) || (a_value q <? 0)
  then ret (VK_ERROR_INITIALIZATION_FAILED, None)
  else
    let min_undequeued_buffers := u32 (a_value q) in
    let min_undequeued_buffers :=
      if bool_decide (ci_presentMode create_info = VK_PRESENT_MODE_MAILBOX_KHR)
      then u32 (min_undequeued_buffers + 1)
      else min_undequeued_buffers in
    let num_images :=
      u32 (u32 (ci_minImageCount create_info - 1) + min_undequeued_buffers) in
    check* native_window_set_buffer_count win num_images in
    let front_buffered :=
      bool_decide (ci_presentMode create_info =
                   VK_PRESENT_MODE_FRONT_BUFFERED_DEMAND_REFRESH_KHR) ||
      bool_decide (ci_presentMode create_info =
                   VK_PRESENT_MODE_FRONT_BUFFERED_CONTINUOUS_REFRESH_KHR) in
    let swapchain_image_usage :=
      if front_buffered
      then Z.lor 0 VK_SWAPCHAIN_IMAGE_USAGE_FRONT_BUFFER_BIT_ANDROID
      else 0 in
    let continue_shared (k : M (VkResult * option Z)) :=
      if front_buffered
      then check* native_window_set_shared_buffer_mode win true in k
      else k in
    let continue_refresh (k : M (VkResult * option Z)) :=
      if bool_decide (ci_presentMode create_info =
                      VK_PRESENT_MODE_FRONT_BUFFERED_CONTINUOUS_REFRESH_KHR)
      then check* native_window_set_auto_refresh win true in k
      else k in
    continue_shared (continue_refresh (
      let* usage :=
        swapchain_gralloc_usage device create_info swapchain_image_usage in
      match usage with
      | None => ret (VK_ERROR_INITIALIZATION_FAILED, None)
      | Some gralloc_usage =>
          check* native_window_set_usage win gralloc_usage in
          let swap_interval :=
            if bool_decide (ci_presentMode create_info =
                            VK_PRESENT_MODE_MAILBOX_KHR)
            then 0 else 1 in
          check* setSwapInterval win swap_interval in
          create_allocated device win create_info allocator num_images
            swapchain_image_usage
      end)).

Definition CreateSwapchainKHR (device : Z)
    (create_info : VkSwapchainCreateInfoKHR) (allocator : Z)
  : M (VkResult * option Z) :=
  let* go_on := create_orphan_step device create_info in
  if go_on : bool then create_after_orphan device create_info allocator
  else ret (VK_ERROR_NATIVE_WINDOW_IN_USE_KHR, None).

(** ** Destroying a swapchain, listing its images *)

(** How [DestroySwapchainKHR] ends: it returns, or it makes a call through
    the null pointer, which does not return; the run stops at that call,
    with the world as it was when the call was made. *)
Inductive Ending : Type :=
  | returned
  | null_call (c : Call).

(** [DestroySwapchainKHR].  The local [window] is the window of the surface
    when the swapchain is the one of its surface, and [nullptr] otherwise.
    [ReleaseSwapchainImage] tests it before it uses it;
    [native_window_enable_frame_timestamps] is called on it as it is. *)
Definition DestroySwapchainKHR (device handle allocator : Z)
  : M Ending :=
  if handle =? 0 then ret returned
  else
    let* sc := get_swapchain handle in
    let* surf := get_surface (surface sc) in
    let active := swapchain_handle surf =? handle in
    let win := if active then window surf else 0 in
    if frame_timestamps_enabled sc && negb active then
      ret (null_call (native_window_enable_frame_timestamps win false))
    else
      when (frame_timestamps_enabled sc)
        (let* _ := call (native_window_enable_frame_timestamps win false) in
         ret tt);;
      let* imgs :=
        for_images (Z.to_nat (num_images sc)) 0
          (ReleaseSwapchainImage device win (-1)) (images sc) in
      put_swapchain handle (with_images imgs sc);;
      when active
        (put_surface (surface sc)
           {| window := window surf; swapchain_handle := 0 |});;
      let allocator := pick_allocator allocator device in
      delete_swapchain handle;;
      let* _ := call (pfnFree allocator handle) in
      ret returned.

(** [GetSwapchainImagesKHR]; [imgs_out] is the caller's array, if any. *)
Definition GetSwapchainImagesKHR (handle count : Z)
    (imgs_out : option (list Z)) : M (VkResult * Z * option (list Z)) :=
  let* sc := get_swapchain handle in
  match imgs_out with
  | Some out =>
      let n := if count <? num_images sc then count else num_images sc in
      let result :=
        if count <? num_images sc then VK_INCOMPLETE else VK_SUCCESS in
      if (Z.to_nat n <=? length (images sc))%nat &&
         (Z.to_nat n <=? length out)%nat
      then ret (result, n,
                Some (map image (take (Z.to_nat n) (images sc)) ++
                      drop (Z.to_nat n) out))
      else undefined
  | None => ret (VK_SUCCESS, num_images sc, None)
  end.

(** ** Acquiring an image *)

(** The search loop of [AcquireNextImageKHR]: the index it stops at. *)
Fixpoint find_buffer (n : nat) (idx : nat) (buf : Z) (imgs : list Image)
  : M nat :=
  match n with
  | O => ret idx
  | S n' =>
      let* img := image_at idx imgs in
      if buffer img =? buf then ret idx
      else find_buffer n' (S idx) buf imgs
  end.

Definition AcquireNextImageKHR
    (device handle timeout semaphore vk_fence : Z)
  : M (VkResult * option Z) :=
  let* sc := get_swapchain handle in
  let* surf := get_surface (surface sc) in
  let win := window surf in
  if negb (swapchain_handle surf =? handle)
  then ret (VK_ERROR_OUT_OF_DATE_KHR, None)
  else
    let* a := call (dequeueBuffer win) in
    if negb (a_err a =? 0) then ret (VK_ERROR_INITIALIZATION_FAILED, None)
    else
      let buf := a_buffer a in
      let fence_fd := a_fence a in
      let* idx :=
        find_buffer (Z.to_nat (num_images sc)) 0 buf (images sc) in
      if Z.of_nat idx =? num_images sc then
        let* _ := call (cancelBuffer win buf fence_fd) in
        ret (VK_ERROR_OUT_OF_DATE_KHR, None)
      else
        let* img := image_at idx (images sc) in
        let img := with_dequeue_fence fence_fd (with_dequeued true img) in
        put_swapchain handle
          (with_images (<[idx := img]> (images sc)) sc);;
        let* fence_clone :=
          if negb (fence_fd =? -1) then
            let* d := call (dup fence_fd) in
            when (a_value d =? -1)
              (let* _ := call (sync_wait fence_fd) in ret tt);;
            ret (a_value d)
          else ret (-1) in
        let* r :=
          call (AcquireImageANDROID device (image img) fence_clone
                  semaphore vk_fence) in
        if bool_decide (a_result r <> VK_SUCCESS) then
          let* _ := call (cancelBuffer win buf fence_fd) in
          let img := with_dequeue_fence (-1) (with_dequeued false img) in
          put_swapchain handle
            (with_images (<[idx := img]> (images sc)) sc);;
          ret (a_result r, None)
        else ret (VK_SUCCESS, Some (Z.of_nat idx)).

(** ** Presenting *)

Record VkRectLayerKHR : Type := {
  offset_x : Z; offset_y : Z;           (* int32_t *)
  extent_width : Z; extent_height : Z;  (* uint32_t *)
  layer : Z
}.

Record VkPresentRegionKHR : Type := {
  rectangleCount : Z;
  pRectangles : list VkRectLayerKHR
}.

(** The rectangle the window is told for a rectangle of the application. *)
Definition native_rect (r : VkRectLayerKHR) : android_native_rect_t :=
  let x := offset_x r in
  let y := offset_y r in
  let width := s32 (extent_width r) in
  let height := s32 (extent_height r) in
  {| left := x; top := y + height; right := x + width; bottom := y |}.

(** The incremental-present hint of one swapchain; [rects] and [nrects]
    are the scratch array of [QueuePresentKHR] and its size. *)
Definition present_region (win : Z) (allocator : Allocator)
    (region : VkPresentRegionKHR) (rects nrects : Z) : M (Z * Z) :=
  let rcount := rectangleCount region in
  let* (scratch, rcount) :=
    if rcount >? nrects then
      let* a := call (pfnReallocation allocator rects rcount) in
      if negb (a_value a =? 0) then ret ((a_value a, rcount), rcount)
      else ret ((rects, nrects), 0)
    else ret ((rects, nrects), rcount) in
  if (Z.to_nat rcount <=? length (pRectangles region))%nat then
    let* _ :=
      call (native_window_set_surface_damage win
              (map native_rect (take (Z.to_nat rcount) (pRectangles region)))
              rcount) in
    ret scratch
  else undefined.

(** The timing hint of one swapchain. *)
Definition present_time (win : Z) (time : VkPresentTimeGOOGLE)
    (sc : Swapchain) : M Swapchain :=
  let* sc :=
    if negb (frame_timestamps_enabled sc) then
      let* _ := call (native_window_enable_frame_timestamps win true) in
      ret (with_frame_timestamps_enabled true sc)
    else ret sc in
  let sc := with_timing (enroll time (timing sc)) sc in
  when (negb (pt_desiredPresentTime time =? 0))
    (let* _ :=
       call (native_window_set_buffers_timestamp win
               (pt_desiredPresentTime time)) in
     ret tt);;
  ret sc.

Record VkPresentInfoKHR : Type := {
  pWaitSemaphores : list Z;
  swapchainCount : Z;
  pSwapchains : list Z;
  pImageIndices : list Z;
  (* the arrays of VkPresentRegionsKHR and VkPresentTimesInfoGOOGLE on the
     pNext chain, when they are there *)
  pRegions : option (list VkPresentRegionKHR);
  pTimes : option (list VkPresentTimeGOOGLE);
  (* whether pResults is given *)
  has_pResults : bool
}.

(** [array[i]] of a caller's array. *)
Definition index {A : Type} (i : nat) (array : list A) : M A :=
  match array !! i with
  | Some x => ret x
  | None => undefined
  end.

(** [ReleaseSwapchainImage] on [swapchain.images[image_idx]]. *)
Definition release_slot (device win release_fence handle : Z)
    (image_idx : nat) : M unit :=
  let* sc := get_swapchain handle in
  let* img := image_at image_idx (images sc) in
  let* img := ReleaseSwapchainImage device win release_fence img in
  put_swapchain handle (with_images (<[image_idx := img]> (images sc)) sc).

(** What the active branch of [QueuePresentKHR] does for one swapchain
    once the release fence is there: the hints, [queueBuffer], and the
    dequeue fence. *)
Definition present_queue (win : Z) (present_info : VkPresentInfoKHR)
    (sc_idx : nat) (handle : Z) (image_idx : nat) (fence : Z)
    (allocator : Allocator) (swapchain_result : VkResult)
    (rects nrects : Z) : M (VkResult * (Z * Z)) :=
  let* scratch :=
    match pRegions present_info with
    | Some regions =>
        let* region := index sc_idx regions in
        present_region win allocator region rects nrects
    | None => ret (rects, nrects)
    end in
  let* sc := get_swapchain handle in
  let* sc :=
    match pTimes present_info with
    | Some times =>
        let* time := index sc_idx times in
        present_time win time sc
    | None => ret sc
    end in
  let* img := image_at image_idx (images sc) in
  let* q := call (queueBuffer win (buffer img) fence) in
  let swapchain_result :=
    if negb (a_err q =? 0)
    then WorstPresentResult swapchain_result VK_ERROR_OUT_OF_DATE_KHR
    else swapchain_result in
  let* img :=
    if dequeue_fence img >=? 0 then
      let* _ := call (close (dequeue_fence img)) in
      ret (with_dequeue_fence (-1) img)
    else ret img in
  let img := with_dequeued false img in
  put_swapchain handle (with_images (<[image_idx := img]> (images sc)) sc);;
  ret (swapchain_result, scratch).

(** One turn of the loop of [QueuePresentKHR] over the swapchains: the
    result for the swapchain and the scratch array. *)
Definition present_one (queue device : Z) (present_info : VkPresentInfoKHR)
    (sc_idx : nat) (rects nrects : Z) : M (VkResult * (Z * Z)) :=
  let allocator := DefaultAllocator device in
  let* handle := index sc_idx (pSwapchains present_info) in
  let* image_idx := index sc_idx (pImageIndices present_info) in
  let image_idx := Z.to_nat image_idx in
  let* sc := get_swapchain handle in
  let* img := image_at image_idx (images sc) in
  let* a :=
    call (QueueSignalReleaseImageANDROID queue
            (pWaitSemaphores present_info) (image img)) in
  let fence := a_fence a in
  let swapchain_result :=
    if bool_decide (a_result a <> VK_SUCCESS) then a_result a
    else VK_SUCCESS in
  let* surf := get_surface (surface sc) in
  if swapchain_handle surf =? handle then
    let win := window surf in
    let* (swapchain_result, scratch) :=
      if bool_decide (swapchain_result = VK_SUCCESS)
      then present_queue win present_info sc_idx handle image_idx fence
             allocator swapchain_result rects nrects
      else ret (swapchain_result, (rects, nrects)) in
    when (bool_decide (swapchain_result <> VK_SUCCESS))
      (release_slot device win fence handle image_idx;;
       OrphanSwapchain device handle);;
    ret (swapchain_result, scratch)
  else
    release_slot device 0 fence handle image_idx;;
    ret (VK_ERROR_OUT_OF_DATE_KHR, (rects, nrects)).

Fixpoint present_loop (n : nat) (sc_idx : nat) (queue device : Z)
    (present_info : VkPresentInfoKHR) (rects nrects : Z)
    (final_result : VkResult) (results : list VkResult)
  : M (VkResult * list VkResult * Z) :=
  match n with
  | O => ret (final_result, results, rects)
  | S n' =>
      let* (swapchain_result, scratch) :=
        present_one queue device present_info sc_idx rects nrects in
      let final_result :=
        if bool_decide (swapchain_result <> final_result)
        then WorstPresentResult final_result swapchain_result
        else final_result in
      present_loop n' (S sc_idx) queue device present_info
        (fst scratch) (snd scratch) final_result
        (results ++ [swapchain_result])
  end.

(** [QueuePresentKHR]; [device] is the driver device of [queue].  The list
    is what is stored into [pResults] when that is given. *)
Definition QueuePresentKHR (queue device : Z)
    (present_info : VkPresentInfoKHR) : M (VkResult * option (list VkResult)) :=
  let* (final_result, results, rects) :=
    present_loop (Z.to_nat (swapchainCount present_info)) 0 queue device
      present_info 0 0 VK_SUCCESS [] in
  when (negb (rects =? 0))
    (let* _ := call (pfnFree (DefaultAllocator device) rects) in ret tt);;
  ret (final_result,
       if has_pResults present_info then Some results else None).

(** The turns of the loop of [QueuePresentKHR] from the swapchain [sc_idx]
    on, one for each of [results]: a turn starts in the world and with the
    scratch array that the turn before has left, and gives its result. *)
Fixpoint present_turns (queue device : Z) (present_info : VkPresentInfoKHR)
    (sc_idx : nat) (rects nrects : Z) (w : World) (results : list VkResult)
    (rects' : Z) (w' : World) : Prop :=
  match results with
  | [] => rects' = rects /\ w' = w
  | swapchain_result :: rest =>
      exists (scratch : Z * Z) (w1 : World),
        present_one queue device present_info sc_idx rects nrects w =
          Some ((swapchain_result, scratch), w1) /\
        present_turns queue device present_info (S sc_idx)
          (fst scratch) (snd scratch) w1 rest rects' w'
  end.

(** ** Display timing and status *)

Definition GetRefreshCycleDurationGOOGLE (handle : Z)
  : M (VkResult * (Z * Z)) :=
  let* sc := get_swapchain handle in
  ret (VK_SUCCESS, (min_refresh_duration sc, max_refresh_duration sc)).

Definition GetPastPresentationTimingGOOGLE (handle count : Z)
    (timings : option (list VkPastPresentationTimingGOOGLE))
  : M (VkResult * Z * option (list VkPastPresentationTimingGOOGLE)) :=
  let* sc := get_swapchain handle in
  let* surf := get_surface (surface sc) in
  let* sc :=
    if negb (frame_timestamps_enabled sc) then
      let* _ :=
        call (native_window_enable_frame_timestamps (window surf) true) in
      let sc := with_frame_timestamps_enabled true sc in
      put_swapchain handle sc;;
      ret sc
    else ret sc in
  match timings with
  | Some out =>
      match copy_ready_timings (timing sc) count out with
      | Some (tm, out, count) =>
          put_swapchain handle (with_timing tm sc);;
          ret (VK_SUCCESS, count, Some out)
      | None => undefined
      end
  | None =>
      let* count := get_num_ready_timings handle in
      ret (VK_SUCCESS, count, None)
  end.

Definition GetSwapchainStatusKHR (handle : Z) : M VkResult :=
  let* sc := get_swapchain handle in
  let* surf := get_surface (surface sc) in
  if negb (swapchain_handle surf =? handle)
  then ret VK_ERROR_OUT_OF_DATE_KHR
  else ret VK_SUCCESS.

(** ** The public entry points *)

Inductive EntryPoint : Type :=
  | vkCreateAndroidSurfaceKHR (instance win allocator : Z)
  | vkDestroySurfaceKHR (instance surface allocator : Z)
  | vkGetPhysicalDeviceSurfaceCapabilitiesKHR (surface : Z)
  | vkCreateSwapchainKHR
      (device : Z) (create_info : VkSwapchainCreateInfoKHR) (allocator : Z)
  | vkDestroySwapchainKHR (device handle allocator : Z)
  | vkGetSwapchainImagesKHR
      (handle count : Z) (imgs_out : option (list Z))
  | vkAcquireNextImageKHR (device handle timeout semaphore vk_fence : Z)
  | vkQueuePresentKHR (queue device : Z) (present_info : VkPresentInfoKHR)
  | vkGetRefreshCycleDurationGOOGLE (handle : Z)
  | vkGetPastPresentationTimingGOOGLE
      (handle count : Z)
      (timings : option (list VkPastPresentationTimingGOOGLE))
  | vkGetSwapchainStatusKHR (handle : Z).

Definition forget {A : Type} (m : M A) : M unit := let* _ := m in ret tt.

Definition enter (e : EntryPoint) : M unit :=
  match e with
  | vkCreateAndroidSurfaceKHR instance win allocator =>
      forget (CreateAndroidSurfaceKHR instance win allocator)
  | vkDestroySurfaceKHR instance surface allocator =>
      DestroySurfaceKHR instance surface allocator
  | vkGetPhysicalDeviceSurfaceCapabilitiesKHR surface =>
      forget (GetPhysicalDeviceSurfaceCapabilitiesKHR surface)
  | vkCreateSwapchainKHR device create_info allocator =>
      forget (CreateSwapchainKHR device create_info allocator)
  | vkDestroySwapchainKHR device handle allocator =>
      let* ending := DestroySwapchainKHR device handle allocator in
      match ending with
      | returned => ret tt
      | null_call _ => undefined
      end
  | vkGetSwapchainImagesKHR handle count imgs_out =>
      forget (GetSwapchainImagesKHR handle count imgs_out)
  | vkAcquireNextImageKHR device handle timeout semaphore vk_fence =>
      forget (AcquireNextImageKHR device handle timeout semaphore vk_fence)
  | vkQueuePresentKHR queue device present_info =>
      forget (QueuePresentKHR queue device present_info)
  | vkGetRefreshCycleDurationGOOGLE handle =>
      forget (GetRefreshCycleDurationGOOGLE handle)
  | vkGetPastPresentationTimingGOOGLE handle count timings =>
      forget (GetPastPresentationTimingGOOGLE handle count timings)
  | vkGetSwapchainStatusKHR handle =>
      forget (GetSwapchainStatusKHR handle)
  end.

(** What an application does to the layer: one entry point after the
    other, each on the world the one before has left. *)
Fixpoint enter_all (es : list EntryPoint) : M unit :=
  match es with
  | [] => ret tt
  | e :: es' => enter e;; enter_all es'
  end.

(** ** Invariants *)

(** The keys of a timing store, in the order of the store. *)
Definition store_keys (tm : list TimingInfo) : list Z :=
  map (fun ti => presentID (vals_ ti)) tm.


(** A dequeue fence that is a descriptor belongs to a dequeued slot. *)
Definition slot_ok (img : Image) : Prop :=
  0 <= dequeue_fence img -> dequeued img = true.

(** The same said of fences that are descriptors or -1, as the window hands
    them out: the fence is one of these, and it is -1 or the slot is
    dequeued. *)
Definition slot_tight (img : Image) : Prop :=
  -1 <= dequeue_fence img /\
  (dequeue_fence img = -1 \/ dequeued img = true).


Definition slot_inv (w : World) : Prop :=
  forall (handle : Z) (sc : Swapchain),
    swapchains w !! handle = Some sc -> Forall slot_ok (images sc).

Definition slot_tight_inv (w : World) : Prop :=
  forall (handle : Z) (sc : Swapchain),
    swapchains w !! handle = Some sc -> Forall slot_tight (images sc).

(** The window and the driver hand out fences that are descriptors or -1. *)
Definition fences_are_descriptors (w : World) : Prop :=
  forall (t : Trace) (c : Call), -1 <= a_fence (oracle w t c).

(** ** Reading the trace *)

(** [w'] comes after [w] and the calls [evs] have been made in between. *)
Definition extends (w w' : World) (evs : Trace) : Prop :=
  trace w' = trace w ++ evs.

(** [w'] differs from [w] by its trace at most: the objects of the layer
    and the outside are the same. *)
Definition same_heap (w w' : World) : Prop :=
  surfaces w' = surfaces w /\ swapchains w' = swapchains w /\
  oracle w' = oracle w /\ dispatch w' = dispatch w.

(** The native window a call is made on. *)
Definition window_of (c : Call) : option Z :=
  match c with
  | native_window_api_connect win
  | native_window_api_disconnect win
  | native_window_set_buffer_count win _
  | setSwapInterval win _
  | native_window_set_shared_buffer_mode win _
  | native_window_set_auto_refresh win _
  | native_window_set_buffers_format win _
  | native_window_set_buffers_data_space_SRGB_LINEAR win
  | native_window_set_buffers_dimensions win _ _
  | native_window_set_buffers_transform win _
  | native_window_set_scaling_mode_SCALE_TO_WINDOW win
  | native_window_set_usage win _
  | native_window_set_buffers_timestamp win _
  | native_window_set_surface_damage win _ _
  | native_window_enable_frame_timestamps win _
  | native_window_get_refresh_cycle_period win
  | native_window_get_frame_timestamps win _
  | query win _
  | dequeueBuffer win
  | queueBuffer win _ _
  | cancelBuffer win _ _ => Some win
  | _ => None
  end.

(** A call that takes a fence descriptor off the layer's hands: [close],
    and the window calls that are given the fence with the buffer. *)
Definition disposes (fd : Z) (c : Call) : bool :=
  match c with
  | close f | cancelBuffer _ _ f | queueBuffer _ _ f => f =? fd
  | _ => false
  end.

(** How often the calls of a trace dispose of a descriptor. *)
Definition disposals (fd : Z) (evs : Trace) : nat :=
  length (List.filter (fun e => disposes fd e.1) evs).

(** A call that asks a window for the timestamps of a frame. *)
Definition asks_timestamps (win : Z) (e : Call * Answer) : Prop :=
  exists f, e.1 = native_window_get_frame_timestamps win f.

(** What a call that has acquired something owes: a buffer that has been
    dequeued is to go back to its window with its fence, an image that has
    been created is to be destroyed, memory that has been allocated is to
    be freed through its allocator. *)
Definition owes (c : Call) (a : Answer) : option Call :=
  match c with
  | dequeueBuffer win =>
      if a_err a =? 0
      then Some (cancelBuffer win (a_buffer a) (a_fence a)) else None
  | CreateImage device _ _ _ _ =>
      if bool_decide (a_result a = VK_SUCCESS) && negb (a_image a =? 0)
      then Some (DestroyImage device (a_image a)) else None
  | pfnAllocation allocator =>
      if negb (a_value a =? 0)
      then Some (pfnFree allocator (a_value a)) else None
  | _ => None
  end.

(** Every debt of a trace is paid later in the trace. *)
Definition settled (evs : Trace) : Prop :=
  forall (before after : Trace) (c c' : Call) (a : Answer),
    evs = before ++ (c, a) :: after -> owes c a = Some c' ->
    exists a' : Answer, In (c', a') after.

(** What [ReleaseSwapchainImage] leaves of a slot. *)
Definition released (img : Image) : Image :=
  {| image := 0; buffer := 0;
     dequeue_fence := if dequeued img then -1 else dequeue_fence img;
     dequeued := false |}.

(** A computation that returns from every world. *)
Definition always_returns {A : Type} (m : M A) : Prop :=
  forall w, is_Some (m w).

(** What an invariant [P] of the slots has to respect, [F] being what is
    known of the fences the outside hands out: [P] reads the fence and the
    flag only, it holds of a slot without fence that is not dequeued and of
    a dequeued slot with a fence from outside, and it stays when a slot
    that holds no descriptor stops being dequeued. *)
Definition slot_closed (P : Image -> Prop) (F : Z -> Prop) : Prop :=
  (forall img img',
     dequeue_fence img' = dequeue_fence img ->
     dequeued img' = dequeued img -> P img -> P img') /\
  (forall img, dequeue_fence img = -1 -> dequeued img = false -> P img) /\
  (forall img, F (dequeue_fence img) -> dequeued img = true -> P img) /\
  (forall img img',
     P img -> dequeue_fence img < 0 ->
     dequeue_fence img' = dequeue_fence img -> dequeued img' = false ->
     P img').

(** What an invariant [Q] of the timing store has to respect: it holds of
    the empty store, and it stays when a record is enrolled, when ready
    records are copied out, and when records change but their keys. *)
Definition timing_closed (Q : list TimingInfo -> Prop) : Prop :=
  Q [] /\
  (forall time tm, Q tm -> Q (enroll time tm)) /\
  (forall tm count timings tm' timings' count',
     copy_ready_timings tm count timings = Some (tm', timings', count') ->
     Q tm -> Q tm') /\
  (forall tm tm', store_keys tm' = store_keys tm -> Q tm -> Q tm').

Definition heap_ok (P : Image -> Prop) (Q : list TimingInfo -> Prop)
    (m : gmap Z Swapchain) : Prop :=
  forall (handle : Z) (sc : Swapchain),
    m !! handle = Some sc -> Forall P (images sc) /\ Q (timing sc).

Definition good (P : Image -> Prop) (Q : list TimingInfo -> Prop)
    (F : Z -> Prop) (w : World) : Prop :=
  (forall (t : Trace) (c : Call), F (a_fence (oracle w t c))) /\
  heap_ok P Q (swapchains w).

(** The second loop of [CreateSwapchainKHR] on one slot. *)
Definition cancelled (img : Image) : Image :=
  if dequeued img then with_dequeued false (with_dequeue_fence (-1) img)
  else img.

(** A part of [CreateSwapchainKHR] that cleans up when it fails: it stores
    no handle and leaves the surfaces alone, every debt of its calls is
    settled, and the memory it has allocated holds no swapchain. *)
Definition cleans_up (m : M (VkResult * option Z)) : Prop :=
  forall (w w' : World) (r : VkResult) (out : option Z),
    m w = Some ((r, out), w') -> r <> VK_SUCCESS ->
    out = None /\ surfaces w' = surfaces w /\
    exists evs, extends w w' evs /\ settled evs /\
      forall alloc a, In (pfnAllocation alloc, a) evs -> a_value a <> 0 ->
                      swapchains w' !! a_value a = None.

(** A part of [CreateSwapchainKHR] that returns [VK_SUCCESS] only through
    [post], after calls that leave the objects of the layer alone. *)
Definition on_success (m : M (VkResult * option Z))
    (post : World -> World -> option Z -> Prop) : Prop :=
  forall (w w' : World) (out : option Z),
    m w = Some ((VK_SUCCESS, out), w') ->
    exists w1 evs, same_heap w w1 /\ extends w w1 evs /\ post w1 w' out.

(** What [CreateSwapchainKHR] has made when it returns [VK_SUCCESS], [w]
    being the world in which it allocates the swapchain: the swapchain
    lives at the handle, which is not null, and the surface holds it;
    nothing has been collected and no timestamps are asked for; the slots
    from [num_images] on are empty; each slot below holds a buffer the
    window has handed out and the image the driver has created for that
    buffer, and the buffer has gone back to the window with the fence it
    came with. *)
Definition created (device win : Z) (create_info : VkSwapchainCreateInfoKHR)
    (w w' : World) (out : option Z) : Prop :=
  exists (handle : Z) (sc : Swapchain) (surf : Surface) (evs : Trace),
    out = Some handle /\ handle <> 0 /\
    surfaces w !! ci_surface create_info = Some surf /\
    swapchains w' = <[handle := sc]> (swapchains w) /\
    surfaces w' =
      <[ci_surface create_info :=
          {| window := window surf; swapchain_handle := handle |}]>
        (surfaces w) /\
    trace w' = trace w ++ evs /\
    surface sc = ci_surface create_info /\
    timing sc = [] /\ frame_timestamps_enabled sc = false /\
    length (images sc) = NUM_BUFFER_SLOTS /\
    (Z.to_nat (num_images sc) <= NUM_BUFFER_SLOTS)%nat /\
    (forall j, (Z.to_nat (num_images sc) <= j < NUM_BUFFER_SLOTS)%nat ->
               images sc !! j = Some Image_new) /\
    (forall j, (j < Z.to_nat (num_images sc))%nat ->
       exists (a c a' : Answer) (usage : Z),
         images sc !! j =
           Some {| image := a_image c; buffer := a_buffer a;
                   dequeue_fence := -1; dequeued := false |} /\
         a_err a = 0 /\ a_result c = VK_SUCCESS /\
         In (dequeueBuffer win, a) evs /\
         In (CreateImage device (ci_imageFormat create_info)
               (ci_imageUsage create_info) (a_buffer a) usage, c) evs /\
         In (cancelBuffer win (a_buffer a) (a_fence a), a') evs).

(** A computation that keeps an invariant of the world. *)
Definition keeps {A : Type} (I : World -> Prop) (m : M A) : Prop :=
  forall (w w' : World) (a : A), m w = Some (a, w') -> I w -> I w'.

(** ** A small world to run the entry points in

    One surface at address 100 on the window 7.  The outside answers every
    call with success; the window needs one buffer for itself, hands out
    the buffers 500 and 501 with the fences 30 and 31 in turn, memory is
    allocated at 4096, and the driver has an image for the first buffer
    only. *)
Definition sample_answer : Answer :=
  {| a_err := 0; a_result := VK_SUCCESS; a_value := 0; a_buffer := 0;
     a_fence := -1; a_image := 0;
     a_desired_present_time := 0; a_render_complete_time := 0;
     a_composition_latch_time := 0; a_actual_present_time := 0;
     a_min_rdur := 16666666; a_max_rdur := 16666666 |}.

Definition with_a_value (v : Z) (a : Answer) : Answer :=
  {| a_err := a_err a; a_result := a_result a; a_value := v;
     a_buffer := a_buffer a; a_fence := a_fence a; a_image := a_image a;
     a_desired_present_time := a_desired_present_time a;
     a_render_complete_time := a_render_complete_time a;
     a_composition_latch_time := a_composition_latch_time a;
     a_actual_present_time := a_actual_present_time a;
     a_min_rdur := a_min_rdur a; a_max_rdur := a_max_rdur a |}.

Definition with_a_buffer (buf fence : Z) (a : Answer) : Answer :=
  {| a_err := a_err a; a_result := a_result a; a_value := a_value a;
     a_buffer := buf; a_fence := fence; a_image := a_image a;
     a_desired_present_time := a_desired_present_time a;
     a_render_complete_time := a_render_complete_time a;
     a_composition_latch_time := a_composition_latch_time a;
     a_actual_present_time := a_actual_present_time a;
     a_min_rdur := a_min_rdur a; a_max_rdur := a_max_rdur a |}.

Definition with_a_image (r : VkResult) (img : Z) (a : Answer) : Answer :=
  {| a_err := a_err a; a_result := r; a_value := a_value a;
     a_buffer := a_buffer a; a_fence := a_fence a; a_image := img;
     a_desired_present_time := a_desired_present_time a;
     a_render_complete_time := a_render_complete_time a;
     a_composition_latch_time := a_composition_latch_time a;
     a_actual_present_time := a_actual_present_time a;
     a_min_rdur := a_min_rdur a; a_max_rdur := a_max_rdur a |}.

Definition with_a_err (e : Z) (a : Answer) : Answer :=
  {| a_err := e; a_result := a_result a; a_value := a_value a;
     a_buffer := a_buffer a; a_fence := a_fence a; a_image := a_image a;
     a_desired_present_time := a_desired_present_time a;
     a_render_complete_time := a_render_complete_time a;
     a_composition_latch_time := a_composition_latch_time a;
     a_actual_present_time := a_actual_present_time a;
     a_min_rdur := a_min_rdur a; a_max_rdur := a_max_rdur a |}.

(** How many buffers a trace has dequeued. *)
Definition dequeues (t : Trace) : Z :=
  Z.of_nat (length (List.filter
                      (fun e => match e.1 with
                                | dequeueBuffer _ => true
                                | _ => false
                                end) t)).

Definition sample_oracle (t : Trace) (c : Call) : Answer :=
  match c with
  | query _ NATIVE_WINDOW_MIN_UNDEQUEUED_BUFFERS =>
      with_a_value 1 sample_answer
  | pfnAllocation _ => with_a_value 4096 sample_answer
  | dequeueBuffer _ =>
      with_a_buffer (500 + dequeues t) (30 + dequeues t) sample_answer
  | CreateImage _ _ _ buf _ =>
      if buf =? 500 then with_a_image VK_SUCCESS 900 sample_answer
      else with_a_image VK_ERROR_OUT_OF_DEVICE_MEMORY 0 sample_answer
  | _ => sample_answer
  end.

Definition sample_world : World :=
  {| surfaces := {[ 100 := {| window := 7; swapchain_handle := 0 |} ]};
     swapchains := ∅;
     trace := [];
     oracle := sample_oracle;
     dispatch := {| has_GetSwapchainGrallocUsage2ANDROID := false;
                    has_GetSwapchainGrallocUsageANDROID := false |} |}.

Definition sample_create_info : VkSwapchainCreateInfoKHR :=
  {| ci_surface := 100;
     ci_minImageCount := 2;
     ci_imageFormat := VK_FORMAT_R8G8B8A8_UNORM;
     ci_imageExtent := (800, 600);
     ci_imageUsage := 16;
     ci_preTransform := VK_SURFACE_TRANSFORM_ROTATE_90_BIT_KHR;
     ci_presentMode := VK_PRESENT_MODE_FIFO_KHR;
     ci_oldSwapchain := 0 |}.

(** The same outside with a driver that has an image for every buffer and
    an allocator that hands out a fresh page each time; the window goes
    round its two buffers, the driver's release fence is 40 and [dup] gives
    the descriptor 50. *)
Definition allocations (t : Trace) : Z :=
  Z.of_nat (length (List.filter
                      (fun e => match e.1 with
                                | pfnAllocation _ => true
                                | _ => false
                                end) t)).

Definition friendly_oracle (t : Trace) (c : Call) : Answer :=
  match c with
  | query _ NATIVE_WINDOW_MIN_UNDEQUEUED_BUFFERS =>
      with_a_value 1 sample_answer
  | pfnAllocation _ => with_a_value (4096 * (1 + allocations t)) sample_answer
  | dequeueBuffer _ =>
      with_a_buffer (500 + dequeues t mod 2) (30 + dequeues t) sample_answer
  | CreateImage _ _ _ buf _ => with_a_image VK_SUCCESS (400 + buf) sample_answer
  | QueueSignalReleaseImageANDROID _ _ _ => with_a_buffer 0 40 sample_answer
  | dup _ => with_a_value 50 sample_answer
  | _ => sample_answer
  end.

Definition friendly_world : World :=
  {| surfaces := surfaces sample_world;
     swapchains := swapchains sample_world;
     trace := [];
     oracle := friendly_oracle;
     dispatch := dispatch sample_world |}.

(** The world a computation leaves. *)
Definition after {A : Type} (m : M A) (w : World) : World :=
  match m w with
  | Some (_, w') => w'
  | None => w
  end.

(** A swapchain has been created at 4096 ... *)
Definition created_world : World :=
  after (CreateSwapchainKHR 1 sample_create_info 0) friendly_world.

(** ... its first image has been acquired ... *)
Definition acquired_world : World :=
  after (AcquireNextImageKHR 1 4096 (-1) 0 0) created_world.

(** ... and presented with a timing hint ... *)
Definition sample_present_info : VkPresentInfoKHR :=
  {| pWaitSemaphores := [];
     swapchainCount := 1;
     pSwapchains := [4096];
     pImageIndices := [0];
     pRegions := None;
     pTimes := Some [{| pt_presentID := 1; pt_desiredPresentTime := 16 |}];
     has_pResults := true |}.

Definition presented_world : World :=
  after (QueuePresentKHR 2 1 sample_present_info) acquired_world.

(** ... its second image has been acquired ... *)
Definition reacquired_world : World :=
  after (AcquireNextImageKHR 1 4096 (-1) 0 0) presented_world.

(** ... and then a second swapchain has taken its place. *)
Definition replaced_world : World :=
  after (CreateSwapchainKHR 1
           {| ci_surface := 100;
              ci_minImageCount := 2;
              ci_imageFormat := VK_FORMAT_R8G8B8A8_UNORM;
              ci_imageExtent := (800, 600);
              ci_imageUsage := 16;
              ci_preTransform := VK_SURFACE_TRANSFORM_IDENTITY_BIT_KHR;
              ci_presentMode := VK_PRESENT_MODE_FIFO_KHR;
              ci_oldSwapchain := 4096 |} 0)
        reacquired_world.

(** A present of the second image of the swapchain that has been
    replaced. *)
Definition late_present_info : VkPresentInfoKHR :=
  {| pWaitSemaphores := [];
     swapchainCount := 1;
     pSwapchains := [4096];
     pImageIndices := [1];
     pRegions := None;
     pTimes := None;
     has_pResults := true |}.

(** A window that fails to hand out a buffer once two have been dequeued,
    and the world with a swapchain on it. *)
Definition flaky_oracle (t : Trace) (c : Call) : Answer :=
  match c with
  | dequeueBuffer _ =>
      if 2 <=? dequeues t then with_a_err (-19) sample_answer
      else friendly_oracle t c
  | _ => friendly_oracle t c
  end.

Definition flaky_world : World :=
  after (CreateSwapchainKHR 1 sample_create_info 0)
    {| surfaces := surfaces sample_world;
       swapchains := swapchains sample_world;
       trace := [];
       oracle := flaky_oracle;
       dispatch := dispatch sample_world |}.

(** The world where the first image has been acquired, with a window that
    has gone stale since: it refuses the buffers queued to it. *)
Definition stale_oracle (t : Trace) (c : Call) : Answer :=
  match c with
  | queueBuffer _ _ _ => with_a_err (-19) sample_answer
  | _ => friendly_oracle t c
  end.

Definition stale_world : World :=
  {| surfaces := surfaces acquired_world;
     swapchains := swapchains acquired_world;
     trace := trace acquired_world;
     oracle := stale_oracle;
     dispatch := dispatch acquired_world |}.

(** A window of 800 by 600 that is turned by a quarter. *)
Definition sized_oracle (t : Trace) (c : Call) : Answer :=
  match c with
  | query _ NATIVE_WINDOW_DEFAULT_WIDTH => with_a_value 800 sample_answer
  | query _ NATIVE_WINDOW_DEFAULT_HEIGHT => with_a_value 600 sample_answer
  | query _ NATIVE_WINDOW_TRANSFORM_HINT =>
      with_a_value NATIVE_WINDOW_TRANSFORM_ROT_90 sample_answer
  | _ => friendly_oracle t c
  end.

Definition sized_world : World :=
  {| surfaces := surfaces sample_world;
     swapchains := swapchains sample_world;
     trace := [];
     oracle := sized_oracle;
     dispatch := dispatch sample_world |}.

(** A window with a refresh cycle of 10 that has the timestamps of every
    frame: desired at 16, rendered at 50, latched at 100, presented at
    1000. *)
Definition timed_oracle (t : Trace) (c : Call) : Answer :=
  match c with
  | native_window_get_refresh_cycle_period _ =>
      {| a_err := 0; a_result := VK_SUCCESS; a_value := 0; a_buffer := 0;
         a_fence := -1; a_image := 0;
         a_desired_present_time := 0; a_render_complete_time := 0;
         a_composition_latch_time := 0; a_actual_present_time := 0;
         a_min_rdur := 10; a_max_rdur := 10 |}
  | native_window_get_frame_timestamps _ _ =>
      {| a_err := 0; a_result := VK_SUCCESS; a_value := 0; a_buffer := 0;
         a_fence := -1; a_image := 0;
         a_desired_present_time := 16; a_render_complete_time := 50;
         a_composition_latch_time := 100; a_actual_present_time := 1000;
         a_min_rdur := 0; a_max_rdur := 0 |}
  | _ => friendly_oracle t c
  end.

(** The present of the frame [k] of an application that goes round the two
    images of the swapchain at 4096, and [n] such frames from [k] on. *)
Definition frame_present_info (k : Z) : VkPresentInfoKHR :=
  {| pWaitSemaphores := [];
     swapchainCount := 1;
     pSwapchains := [4096];
     pImageIndices := [k mod 2];
     pRegions := None;
     pTimes := Some [{| pt_presentID := k + 1; pt_desiredPresentTime := 16 |}];
     has_pResults := true |}.

Fixpoint present_frames (n : nat) (k : Z) : M unit :=
  match n with
  | O => ret tt
  | S n' =>
      let* _ := AcquireNextImageKHR 1 4096 (-1) 0 0 in
      let* _ := QueuePresentKHR 2 1 (frame_present_info k) in
      present_frames n' (k + 1)
  end.

(** The world after six frames on that window. *)
Definition timed_world : World :=
  after (present_frames 6 0)
    (after (CreateSwapchainKHR 1 sample_create_info 0)
       {| surfaces := surfaces sample_world;
          swapchains := swapchains sample_world;
          trace := [];
          oracle := timed_oracle;
          dispatch := dispatch sample_world |}).

(** A record that has its timestamps. *)
Definition stamped (id : Z) : TimingInfo :=
  {| vals_ := {| presentID := id; desiredPresentTime := 16;
                 actualPresentTime := 1000; earliestPresentTime := 960;
                 presentMargin := 10 |};
     timestamp_desired_present_time_ := 16;
     timestamp_actual_present_time_ := 1000;
     timestamp_render_complete_time_ := 50;
     timestamp_composition_latch_time_ := 100 |}.

(** The objects at an address of a world that has them there. *)
Definition swapchain_at (handle : Z) (w : World) : Swapchain :=
  default {| surface := 0; num_images := 0;
             frame_timestamps_enabled := false;
             min_refresh_duration := 0; max_refresh_duration := 0;
             images := []; timing := [] |}
          (swapchains w !! handle).

Definition surface_at (p : Z) (w : World) : Surface :=
  default {| window := 0; swapchain_handle := 0 |} (surfaces w !! p).

(** * Properties *)

(** ** Transform codec *)

Lemma native_rotation_values :
  NATIVE_WINDOW_TRANSFORM_ROT_180 = 3 /\ NATIVE_WINDOW_TRANSFORM_ROT_270 = 7.
Proof. split; reflexivity. Qed.

(** Every native value but the four rotations falls to the [default] of the
    [switch]. *)
Lemma TranslateNativeToVulkanTransform_default (native : Z) :
  native = 0 \/ native = NATIVE_WINDOW_TRANSFORM_ROT_180 \/
  native = NATIVE_WINDOW_TRANSFORM_ROT_90 \/
  native = NATIVE_WINDOW_TRANSFORM_ROT_270 \/
  TranslateNativeToVulkanTransform native =
    VK_SURFACE_TRANSFORM_IDENTITY_BIT_KHR.
Proof.
  unfold TranslateNativeToVulkanTransform.
  destruct (Z.eqb_spec native 0) as [-> | _]; [by left |].
  destruct (Z.eqb_spec native NATIVE_WINDOW_TRANSFORM_ROT_180) as [-> | _];
    [by right; left |].
  destruct (Z.eqb_spec native NATIVE_WINDOW_TRANSFORM_ROT_90) as [-> | _];
    [by right; right; left |].
  destruct (Z.eqb_spec native NATIVE_WINDOW_TRANSFORM_ROT_270) as [-> | _];
    [by right; right; right; left |].
  by right; right; right; right.
Qed.

(** C7.  The rotation [InvertTransformToNative] asks of the compositor undoes
    the application's: for each of the supported transforms the quarter
    turns of the two add up to a full turn, by the value table rot90 to
    ROT_270, rot180 to ROT_180, rot270 to ROT_90, identity and inherit to 0.
    [TranslateNativeToVulkanTransform] sends 0, ROT_180, ROT_90 and ROT_270
    to the flags of the same name and every other native value,
    INVERSE_DISPLAY among them, to the identity. *)
Theorem transform_codec_round_trip :
  Forall (fun t =>
            compose_turns (vk_quarter_turns t)
              (native_quarter_turns (InvertTransformToNative t)) = Some 0)
         kSupportedTransforms /\
  (InvertTransformToNative VK_SURFACE_TRANSFORM_ROTATE_90_BIT_KHR =
     NATIVE_WINDOW_TRANSFORM_ROT_270 /\
   InvertTransformToNative VK_SURFACE_TRANSFORM_ROTATE_180_BIT_KHR =
     NATIVE_WINDOW_TRANSFORM_ROT_180 /\
   InvertTransformToNative VK_SURFACE_TRANSFORM_ROTATE_270_BIT_KHR =
     NATIVE_WINDOW_TRANSFORM_ROT_90 /\
   InvertTransformToNative VK_SURFACE_TRANSFORM_IDENTITY_BIT_KHR = 0 /\
   InvertTransformToNative VK_SURFACE_TRANSFORM_INHERIT_BIT_KHR = 0) /\
  (TranslateNativeToVulkanTransform 0 =
     VK_SURFACE_TRANSFORM_IDENTITY_BIT_KHR /\
   TranslateNativeToVulkanTransform NATIVE_WINDOW_TRANSFORM_ROT_180 =
     VK_SURFACE_TRANSFORM_ROTATE_180_BIT_KHR /\
   TranslateNativeToVulkanTransform NATIVE_WINDOW_TRANSFORM_ROT_90 =
     VK_SURFACE_TRANSFORM_ROTATE_90_BIT_KHR /\
   TranslateNativeToVulkanTransform NATIVE_WINDOW_TRANSFORM_ROT_270 =
     VK_SURFACE_TRANSFORM_ROTATE_270_BIT_KHR /\
   TranslateNativeToVulkanTransform NATIVE_WINDOW_TRANSFORM_INVERSE_DISPLAY =
     VK_SURFACE_TRANSFORM_IDENTITY_BIT_KHR) /\
  (forall native : Z,
     native = 0 \/ native = NATIVE_WINDOW_TRANSFORM_ROT_180 \/
     native = NATIVE_WINDOW_TRANSFORM_ROT_90 \/
     native = NATIVE_WINDOW_TRANSFORM_ROT_270 \/
     TranslateNativeToVulkanTransform native =
       VK_SURFACE_TRANSFORM_IDENTITY_BIT_KHR).
Proof.
  split; [| split; [| split]].
  - unfold kSupportedTransforms. repeat constructor.
  - repeat split.
  - repeat split.
  - exact TranslateNativeToVulkanTransform_default.
Qed.

(** ** Worst-result merge *)

Lemma ranked_cases (r : VkResult) :
  ranked r ->
  r = VK_ERROR_DEVICE_LOST \/ r = VK_ERROR_SURFACE_LOST_KHR \/
  r = VK_ERROR_OUT_OF_DATE_KHR \/ r = VK_ERROR_OUT_OF_DEVICE_MEMORY \/
  r = VK_ERROR_OUT_OF_HOST_MEMORY \/ r = VK_SUBOPTIMAL_KHR \/ r = VK_SUCCESS.
Proof.
  intros [n Hn]. destruct r; simpl in Hn; try discriminate; tauto.
Qed.

Ltac ranked_split H :=
  apply ranked_cases in H;
  destruct H as [-> | [-> | [-> | [-> | [-> | [-> | ->]]]]]].

Lemma WorstPresentResult_ranked (a b : VkResult) :
  ranked a -> ranked b -> ranked (WorstPresentResult a b).
Proof.
  intros Ha Hb. ranked_split Ha; ranked_split Hb; vm_compute; eauto.
Qed.

(** C6.  On the ranked set DEVICE_LOST > SURFACE_LOST > OUT_OF_DATE >
    OUT_OF_DEVICE_MEMORY > OUT_OF_HOST_MEMORY > SUBOPTIMAL > SUCCESS the
    merge [WorstPresentResult] is commutative and associative, and it gives
    back the one of its two arguments that ranks higher. *)
Theorem WorstPresentResult_assoc_comm (a b c : VkResult) :
  ranked a -> ranked b -> ranked c ->
  WorstPresentResult a b = WorstPresentResult b a /\
  WorstPresentResult (WorstPresentResult a b) c =
    WorstPresentResult a (WorstPresentResult b c) /\
  WorstPresentResult a b = higher_priority a b.
Proof.
  intros Ha Hb Hc.
  ranked_split Ha; ranked_split Hb; ranked_split Hc;
    repeat split; reflexivity.
Qed.

Lemma WorstPresentResult_assoc_comm_witness :
  ranked VK_ERROR_OUT_OF_DATE_KHR /\
  WorstPresentResult VK_SUBOPTIMAL_KHR VK_ERROR_OUT_OF_DATE_KHR =
    VK_ERROR_OUT_OF_DATE_KHR /\
  WorstPresentResult VK_SUBOPTIMAL_KHR VK_ERROR_OUT_OF_DATE_KHR =
    WorstPresentResult VK_ERROR_OUT_OF_DATE_KHR VK_SUBOPTIMAL_KHR.
Proof.
  assert (H1 : ranked VK_SUBOPTIMAL_KHR) by (vm_compute; eauto).
  assert (H2 : ranked VK_ERROR_OUT_OF_DATE_KHR) by (vm_compute; eauto).
  assert (H3 : ranked VK_SUCCESS) by (vm_compute; eauto).
  split; [exact H2 |].
  pose proof (WorstPresentResult_assoc_comm
                VK_SUBOPTIMAL_KHR VK_ERROR_OUT_OF_DATE_KHR VK_SUCCESS
                H1 H2 H3) as [Hcomm [_ Hmax]].
  split; [rewrite Hmax; reflexivity | exact Hcomm].
Defined.

(** Outside the ranked set the merge is not commutative: the last line of
    [WorstPresentResult] gives back its first argument. *)
Lemma WorstPresentResult_unranked :
  WorstPresentResult VK_ERROR_INITIALIZATION_FAILED VK_INCOMPLETE <>
  WorstPresentResult VK_INCOMPLETE VK_ERROR_INITIALIZATION_FAILED.
Proof. vm_compute. discriminate. Qed.

(** ** Timing records: [calculate] *)

Lemma u64_small (z : Z) : 0 <= z < 2 ^ 64 -> u64 z = z.
Proof. intros H. unfold u64. by apply Z.mod_small. Qed.

Lemma u64_range (z : Z) : 0 <= u64 z < 2 ^ 64.
Proof. unfold u64. apply Z.mod_pos_bound. lia. Qed.

Lemma u32_small (z : Z) : 0 <= z < 2 ^ 32 -> u32 z = z.
Proof. intros H. unfold u32. by apply Z.mod_small. Qed.

Lemma u32_range (z : Z) : 0 <= u32 z < 2 ^ 32.
Proof. unfold u32. apply Z.mod_pos_bound. lia. Qed.

Lemma calculate_fuel_step (rdur margin : Z) :
  0 < rdur -> rdur < margin ->
  (margin - rdur) / rdur = margin / rdur - 1.
Proof.
  intros Hr Hm.
  replace (margin - rdur) with (margin + (-1) * rdur) by lia.
  rewrite Z.div_add by lia. lia.
Qed.

(** With a positive refresh duration the loop of [calculate] ends: the
    margin shrinks by [rdur] at every turn and never wraps. *)
Lemma calculate_loop_total (fuel : nat) (rdur latch early_time margin : Z) :
  0 < rdur -> 0 <= margin < 2 ^ 64 ->
  margin / rdur <= Z.of_nat fuel ->
  exists e m, calculate_loop fuel rdur latch early_time margin = Some (e, m) /\
              0 <= m <= margin.
Proof.
  intros Hr. revert early_time margin.
  induction fuel as [| fuel IH]; intros early_time margin Hm Hfuel; simpl.
  - destruct (Z.gtb_spec margin rdur) as [Hgt | Hle]; simpl.
    + assert (1 <= margin / rdur) by (apply Z.div_le_lower_bound; lia).
      exfalso. lia.
    + eexists _, _. split; [reflexivity | lia].
  - destruct ((margin >? rdur) && (u64 (early_time - rdur) >? latch)) eqn:Hc.
    + apply andb_true_iff in Hc as [Hgt _]. apply Z.gtb_lt in Hgt.
      rewrite (u64_small (margin - rdur)) by lia.
      destruct (IH (u64 (early_time - rdur)) (margin - rdur))
        as (e & m & He & Hm'); [lia | |].
      * rewrite calculate_fuel_step by lia. lia.
      * exists e, m. split; [exact He | lia].
    + eexists _, _. split; [reflexivity | lia].
Qed.

(** More fuel does not change what the loop returns. *)
Lemma calculate_loop_fuel (fuel fuel' : nat) (rdur latch early_time margin : Z)
    (r : Z * Z) :
  calculate_loop fuel rdur latch early_time margin = Some r ->
  (fuel <= fuel')%nat ->
  calculate_loop fuel' rdur latch early_time margin = Some r.
Proof.
  revert fuel' early_time margin.
  induction fuel as [| fuel IH]; intros fuel' early_time margin H Hle.
  - simpl in H. destruct fuel'; simpl;
      destruct ((margin >? rdur) && (u64 (early_time - rdur) >? latch));
      congruence.
  - destruct fuel' as [| fuel']; [lia |]. simpl in *.
    destruct ((margin >? rdur) && (u64 (early_time - rdur) >? latch));
      [| exact H].
    apply IH; [exact H | lia].
Qed.

(** When the composition latch lies between the end of rendering and the
    present, no subtraction of the loop wraps and the earliest present time
    stays between the latch and the actual present time. *)
Lemma calculate_loop_chronological (fuel : nat)
    (rdur latch early_time margin : Z) :
  0 < rdur -> 0 <= margin <= latch -> latch <= early_time < 2 ^ 64 ->
  margin / rdur <= Z.of_nat fuel ->
  exists e m, calculate_loop fuel rdur latch early_time margin = Some (e, m) /\
              latch <= e <= early_time /\ 0 <= m <= margin.
Proof.
  intros Hr. revert early_time margin.
  induction fuel as [| fuel IH]; intros early_time margin Hm He Hfuel; simpl.
  - destruct (Z.gtb_spec margin rdur) as [Hgt | Hle]; simpl.
    + assert (1 <= margin / rdur) by (apply Z.div_le_lower_bound; lia).
      exfalso. lia.
    + eexists _, _. split; [reflexivity | lia].
  - destruct ((margin >? rdur) && (u64 (early_time - rdur) >? latch)) eqn:Hc.
    + apply andb_true_iff in Hc as [Hgt Hlatch]. apply Z.gtb_lt in Hgt.
      rewrite (u64_small (early_time - rdur)) in * by lia.
      apply Z.gtb_lt in Hlatch.
      rewrite (u64_small (margin - rdur)) by lia.
      destruct (IH (early_time - rdur) (margin - rdur))
        as (e & m & Hloop & He' & Hm'); [lia | lia | |].
      * rewrite calculate_fuel_step by lia. lia.
      * exists e, m. split; [exact Hloop | lia].
    + eexists _, _. split; [reflexivity | lia].
Qed.

(** [calculate] on timestamps in the order of the events they stamp: it
    returns, the earliest present time is not after the actual one and the
    margin does not exceed the time between the end of rendering and the
    latch. *)
Lemma calculate_chronological (rdur : Z) (ti : TimingInfo) :
  0 < rdur ->
  0 <= timestamp_render_complete_time_ ti <=
    timestamp_composition_latch_time_ ti ->
  timestamp_composition_latch_time_ ti <=
    timestamp_actual_present_time_ ti < 2 ^ 64 ->
  exists ti', calculate rdur ti = Some ti' /\
    actualPresentTime (vals_ ti') = timestamp_actual_present_time_ ti /\
    timestamp_composition_latch_time_ ti <= earliestPresentTime (vals_ ti')
      <= actualPresentTime (vals_ ti') /\
    0 <= presentMargin (vals_ ti') <=
      timestamp_composition_latch_time_ ti -
      timestamp_render_complete_time_ ti.
Proof.
  intros Hr Hrc Hact. unfold calculate.
  rewrite (u64_small (_ - _)) by lia.
  destruct (calculate_loop_chronological
              (calculate_fuel rdur (timestamp_composition_latch_time_ ti -
                                    timestamp_render_complete_time_ ti))
              rdur (timestamp_composition_latch_time_ ti)
              (timestamp_actual_present_time_ ti)
              (timestamp_composition_latch_time_ ti -
               timestamp_render_complete_time_ ti))
    as (e & m & Hloop & He & Hm); [lia | lia | lia | |].
  - unfold calculate_fuel. rewrite Z2Nat.id; [lia |].
    apply Z.div_pos; lia.
  - rewrite Hloop. eexists. split; [reflexivity |]. simpl. lia.
Qed.

Lemma calculate_chronological_witness :
  exists ti', calculate 10
    {| vals_ := {| presentID := 1; desiredPresentTime := 7;
                   actualPresentTime := 0; earliestPresentTime := 0;
                   presentMargin := 0 |};
       timestamp_desired_present_time_ := 7;
       timestamp_actual_present_time_ := 1000;
       timestamp_render_complete_time_ := 50;
       timestamp_composition_latch_time_ := 100 |} = Some ti' /\
    earliestPresentTime (vals_ ti') <= actualPresentTime (vals_ ti').
Proof.
  destruct (calculate_chronological 10
    {| vals_ := {| presentID := 1; desiredPresentTime := 7;
                   actualPresentTime := 0; earliestPresentTime := 0;
                   presentMargin := 0 |};
       timestamp_desired_present_time_ := 7;
       timestamp_actual_present_time_ := 1000;
       timestamp_render_complete_time_ := 50;
       timestamp_composition_latch_time_ := 100 |})
    as (ti' & H & _ & He & _); [lia | simpl; lia | simpl; lia |].
  exists ti'. split; [exact H | lia].
Defined.

(** The loop of [calculate] in closed form.  With a positive refresh
    duration it ends after some number of turns: each of them has found the
    margin above [rdur] and the earlier present time, taken in [uint64_t],
    after the latch, and after the last the test fails. *)
Lemma calculate_loop_turns (fuel : nat) (rdur latch : Z) :
  0 < rdur ->
  forall (early_time margin : Z),
    0 <= margin < 2 ^ 64 -> 0 <= early_time < 2 ^ 64 ->
    margin / rdur <= Z.of_nat fuel ->
    exists (e m turns : Z),
      calculate_loop fuel rdur latch early_time margin = Some (e, m) /\
      0 <= turns /\
      m = margin - turns * rdur /\
      e = u64 (early_time - turns * rdur) /\
      (0 < turns -> 0 < m) /\ 0 <= m /\
      (m <= rdur \/ u64 (e - rdur) <= latch) /\
      (forall k, 0 <= k < turns ->
         rdur < margin - k * rdur /\
         latch < u64 (early_time - (k + 1) * rdur)).
Proof.
  intros Hr.
  induction fuel as [| fuel IH]; intros early_time margin Hm He Hfuel; simpl.
  - destruct ((margin >? rdur) && (u64 (early_time - rdur) >? latch)) eqn:Hc.
    + apply andb_true_iff in Hc as [Hgt _]. apply Z.gtb_lt in Hgt.
      assert (1 <= margin / rdur) by (apply Z.div_le_lower_bound; lia).
      exfalso. lia.
    + exists early_time, margin, 0.
      split; [reflexivity |]. split; [lia |]. split; [lia |].
      split; [rewrite Z.sub_0_r; symmetry; by apply u64_small |].
      split; [lia |]. split; [lia |]. split; [| intros k Hk; lia].
      apply andb_false_iff in Hc as [Hc | Hc].
      * left. rewrite Z.gtb_ltb in Hc. apply Z.ltb_ge in Hc. lia.
      * right. rewrite Z.gtb_ltb in Hc. by apply Z.ltb_ge in Hc.
  - destruct ((margin >? rdur) && (u64 (early_time - rdur) >? latch)) eqn:Hc.
    + apply andb_true_iff in Hc as [Hgt Hlatch].
      apply Z.gtb_lt in Hgt. apply Z.gtb_lt in Hlatch.
      rewrite (u64_small (margin - rdur)) by lia.
      destruct (IH (u64 (early_time - rdur)) (margin - rdur))
        as (e & m & turns & Hloop & Hturns & Hm' & He' & Hpos & Hm0 & Hstop &
            Hall); [lia | apply u64_range | |].
      { rewrite calculate_fuel_step by lia. lia. }
      assert (forall k, u64 (u64 (early_time - rdur) - k * rdur) =
                        u64 (early_time - (k + 1) * rdur)) as Hmod.
      { intros k. unfold u64. rewrite Zminus_mod_idemp_l. f_equal. lia. }
      exists e, m, (turns + 1).
      split; [exact Hloop |]. split; [lia |]. split; [lia |].
      split; [by rewrite He', Hmod |].
      split.
      { intros _. destruct (Z.eq_dec turns 0) as [-> | Hne]; [lia |].
        apply Hpos. lia. }
      split; [done |]. split; [done |].
      intros k Hk. destruct (Z.eq_dec k 0) as [-> | Hne].
      * rewrite Z.mul_0_l, Z.sub_0_r, Z.add_0_l, Z.mul_1_l. lia.
      * destruct (Hall (k - 1)) as [Hk1 Hk2]; [lia |].
        rewrite Hmod in Hk2.
        replace (k - 1 + 1) with k in Hk2 by lia.
        split; [lia | exact Hk2].
    + exists early_time, margin, 0.
      split; [reflexivity |]. split; [lia |]. split; [lia |].
      split; [rewrite Z.sub_0_r; symmetry; by apply u64_small |].
      split; [lia |]. split; [lia |]. split; [| intros k Hk; lia].
      apply andb_false_iff in Hc as [Hc | Hc].
      * left. rewrite Z.gtb_ltb in Hc. apply Z.ltb_ge in Hc. lia.
      * right. rewrite Z.gtb_ltb in Hc. by apply Z.ltb_ge in Hc.
Qed.

(** [calculate] with a positive refresh duration returns, whatever the
    timestamps are.  It has taken [rdur] some number of times from the
    margin between the end of rendering and the latch, and as often, in
    [uint64_t], from the actual present time, which gives the margin and
    the earliest present time it stores; every time the margin was above
    [rdur] and the earlier time after the latch, and for what it stores
    that is not so any more.  So the margin it stores is positive when
    anything has been taken, and the rest of the record is as before. *)
Lemma calculate_total (rdur : Z) (ti : TimingInfo) :
  0 < rdur ->
  0 <= timestamp_actual_present_time_ ti < 2 ^ 64 ->
  let actual := timestamp_actual_present_time_ ti in
  let latch := timestamp_composition_latch_time_ ti in
  let margin := u64 (latch - timestamp_render_complete_time_ ti) in
  exists (ti' : TimingInfo) (turns : Z),
    calculate rdur ti = Some ti' /\
    0 <= turns /\
    presentMargin (vals_ ti') = margin - turns * rdur /\
    earliestPresentTime (vals_ ti') = u64 (actual - turns * rdur) /\
    actualPresentTime (vals_ ti') = actual /\
    (0 < turns -> 0 < presentMargin (vals_ ti')) /\
    (presentMargin (vals_ ti') <= rdur \/
     u64 (earliestPresentTime (vals_ ti') - rdur) <= latch) /\
    (forall k, 0 <= k < turns ->
       rdur < margin - k * rdur /\ latch < u64 (actual - (k + 1) * rdur)) /\
    presentID (vals_ ti') = presentID (vals_ ti) /\
    desiredPresentTime (vals_ ti') = desiredPresentTime (vals_ ti) /\
    ready ti' = ready ti.
Proof.
  intros Hr Hactual actual latch margin.
  pose proof (u64_range (timestamp_composition_latch_time_ ti -
                         timestamp_render_complete_time_ ti)) as Hm.
  fold latch in Hm. fold margin in Hm.
  destruct (calculate_loop_turns (calculate_fuel rdur margin) rdur latch Hr
              actual margin)
    as (e & m & turns & Hloop & Hturns & Hm' & He' & Hpos & _ & Hstop & Hall);
    [lia | done | |].
  { unfold calculate_fuel. rewrite Z2Nat.id; [lia |].
    apply Z.div_pos; lia. }
  unfold calculate. cbv zeta. fold latch. fold margin. fold actual.
  rewrite Hloop.
  eexists _, turns. split; [reflexivity |]. simpl.
  repeat (split; [done |]). done.
Qed.

Lemma calculate_total_witness :
  exists (ti' : TimingInfo) (turns : Z),
    calculate 10 (stamped 1) = Some ti' /\
    0 < turns /\
    presentMargin (vals_ ti') = 50 - turns * 10 /\
    earliestPresentTime (vals_ ti') = u64 (1000 - turns * 10).
Proof.
  destruct (calculate_total 10 (stamped 1))
    as (ti' & turns & Hrun & Hturns & Hmargin & Hearly & _ & _ & Hstop & _);
    [lia | simpl; lia |].
  change (u64 (timestamp_composition_latch_time_ (stamped 1) -
               timestamp_render_complete_time_ (stamped 1))) with 50
    in Hmargin.
  change (timestamp_actual_present_time_ (stamped 1)) with 1000 in Hearly.
  change (timestamp_composition_latch_time_ (stamped 1)) with 100 in Hstop.
  exists ti', turns.
  split; [exact Hrun |]. split; [| split; [exact Hmargin | exact Hearly]].
  destruct (Z.eq_dec turns 0) as [Hzero | Hne]; [| lia].
  exfalso. rewrite Hmargin, Hearly, Hzero in Hstop.
  change (u64 (u64 (1000 - 0 * 10) - 10)) with 990 in Hstop. lia.
Defined.

(** C3.  [calculate] on a record whose present is stamped 5, before its
    latch at 100 and the end of its rendering at 50, with a refresh
    duration of 10: the margin 50 allows four turns of the loop, the first
    subtraction [5 - 10] wraps around in [uint64_t], and the earliest
    present time that is stored lies after the actual one. *)
Theorem calculate_earliest_after_actual :
  exists ti',
    calculate 10
      {| vals_ := {| presentID := 1; desiredPresentTime := 7;
                     actualPresentTime := 0; earliestPresentTime := 0;
                     presentMargin := 0 |};
         timestamp_desired_present_time_ := 7;
         timestamp_actual_present_time_ := 5;
         timestamp_render_complete_time_ := 50;
         timestamp_composition_latch_time_ := 100 |} = Some ti' /\
    actualPresentTime (vals_ ti') = 5 /\
    earliestPresentTime (vals_ ti') = 2 ^ 64 - 35 /\
    presentMargin (vals_ ti') = 10 /\
    ~ earliestPresentTime (vals_ ti') <= actualPresentTime (vals_ ti').
Proof.
  eexists. split; [vm_compute; reflexivity |].
  simpl. repeat split; try reflexivity. lia.
Qed.

(** With a refresh duration of zero the loop of [calculate] does not end
    once it is entered. *)
Lemma calculate_loop_zero (fuel : nat) (latch early_time margin : Z) :
  0 < margin -> 0 <= early_time < 2 ^ 64 -> latch < early_time ->
  0 <= margin < 2 ^ 64 ->
  calculate_loop fuel 0 latch early_time margin = None.
Proof.
  intros Hm He Hl Hm'. induction fuel as [| fuel IH]; simpl;
    rewrite !Z.sub_0_r, !(u64_small early_time) by lia;
    destruct (Z.gtb_spec margin 0); try lia;
    destruct (Z.gtb_spec early_time latch); try lia; simpl.
  - reflexivity.
  - rewrite (u64_small margin) by lia. exact IH.
Qed.

(** ** The timing store *)










Lemma length_delete_le {A : Type} (i : nat) (l : list A) :
  (length (delete i l) <= length l)%nat.
Proof.
  revert i. induction l as [| x l IH]; intros [| i]; simpl; try lia.
  specialize (IH i). lia.
Qed.





(** ** The timing store: [copy_ready_timings] *)

Lemma u32_pred_succ (i : Z) : 0 <= i < 2 ^ 32 -> u32 (u32 (i - 1) + 1) = i.
Proof.
  intros H. unfold u32. rewrite Z.add_mod_idemp_l by lia.
  replace (i - 1 + 1) with i by lia. by apply Z.mod_small.
Qed.

Lemma take_delete_same {A : Type} (i : nat) (l : list A) :
  take i (delete i l) = take i l.
Proof.
  revert i. induction l as [| x l IH]; intros [| i]; simpl; auto.
  f_equal. apply IH.
Qed.

Lemma drop_delete_le {A : Type} (i n : nat) (l : list A) :
  (i <= n)%nat -> drop n (delete i l) = drop (S n) l.
Proof.
  revert i n. induction l as [| x l IH]; intros i n Hle.
  - by destruct i, n.
  - destruct i as [| i]; simpl; [done |].
    destruct n as [| n]; [lia |]. simpl. apply IH. lia.
Qed.

Lemma copy_ready_loop_spec (count : Z) (fuel : nat) :
  forall (i nt nc : nat) (timing : list TimingInfo)
         (timings : list VkPastPresentationTimingGOOGLE),
    (i <= nt <= length timing)%nat -> (nt - i <= fuel)%nat ->
    Z.of_nat (length timing) < 2 ^ 32 ->
    Z.of_nat nc + Z.of_nat (nt - i) <= count < 2 ^ 32 ->
    (Z.to_nat count <= length timings)%nat ->
    copy_ready_loop fuel count (Z.of_nat i) (Z.of_nat nt) (Z.of_nat nc)
      timing timings =
    Some (take i timing ++
          List.filter (fun ti => negb (ready ti))
            (take (nt - i) (drop i timing)) ++
          drop nt timing,
          take nc timings ++
          map get_values (List.filter ready (take (nt - i) (drop i timing))) ++
          drop (nc + length (List.filter ready (take (nt - i) (drop i timing))))
            timings,
          Z.of_nat
            (nc + length (List.filter ready (take (nt - i) (drop i timing))))).
Proof.
  induction fuel as [| fuel IH]; intros i nt nc timing timings Hi Hfuel Hlen Hcount Hout.
  - assert (nt = i) as -> by lia. simpl. rewrite Z.ltb_irrefl.
    rewrite Nat.sub_diag, take_0. simpl.
    rewrite take_drop, Nat.add_0_r, take_drop. reflexivity.
  - simpl. destruct (Z.ltb_spec (Z.of_nat i) (Z.of_nat nt)) as [Hlt | Hge].
    2:{ assert (nt = i) as -> by lia.
        rewrite Nat.sub_diag, take_0. simpl.
        rewrite take_drop, Nat.add_0_r, take_drop. reflexivity. }
    rewrite Nat2Z.id.
    destruct (lookup_lt_is_Some_2 timing i) as [ti Hti]; [lia |].
    rewrite Hti.
    assert (nt - i = S (nt - S i))%nat as Hseg by lia.
    rewrite Hseg, (drop_S _ _ _ Hti). simpl take. simpl List.filter.
    destruct (ready ti) eqn:Hready; simpl negb; cbv iota.
    + rewrite Nat2Z.id.
      destruct (Nat.ltb_spec nc (length timings)) as [Hnc | Hnc]; [| lia].
      rewrite (u32_small (Z.of_nat nc + 1)) by lia.
      unfold SortedVector_removeAt.
      destruct (Nat.ltb_spec i (length timing)) as [_ | ?]; [| lia].
      destruct (Z.eqb_spec count (Z.of_nat nc + 1)) as [Heq | Hne].
      * assert (nt = S i) as -> by lia.
        rewrite Nat.sub_diag, take_0. simpl.
        rewrite delete_take_drop, insert_take_drop by lia.
        repeat f_equal; lia.
      * rewrite u32_pred_succ by lia.
        rewrite (u32_small (Z.of_nat nt - 1)) by lia.
        replace (Z.of_nat nt - 1) with (Z.of_nat (nt - 1)) by lia.
        replace (Z.of_nat nc + 1) with (Z.of_nat (S nc)) by lia.
        rewrite IH.
        -- rewrite take_delete_same, (drop_delete_le i i) by lia.
           rewrite (drop_delete_le i (nt - 1)) by lia.
           replace (S (nt - 1)) with nt by lia.
           replace (nt - 1 - i)%nat with (nt - S i)%nat by lia.
           rewrite (take_S_r (<[nc:=get_values ti]> timings) nc (get_values ti))
             by (by apply list_lookup_insert_eq).
           rewrite take_insert_ge by lia.
           rewrite drop_insert_lt by lia.
           simpl. rewrite <- !app_assoc. simpl.
           repeat f_equal; lia.
        -- pose proof (length_delete_le i timing).
           rewrite length_delete by eauto. lia.
        -- lia.
        -- pose proof (length_delete_le i timing). lia.
        -- lia.
        -- rewrite length_insert. lia.
    + rewrite (u32_small (Z.of_nat i + 1)) by lia.
      replace (Z.of_nat i + 1) with (Z.of_nat (S i)) by lia.
      rewrite IH by lia.
      rewrite (take_S_r timing i ti) by done.
      rewrite <- !app_assoc. reflexivity.
Qed.

(** What [copy_ready_timings] does: [*count] bounds the records the loop
    looks at, not the records it copies.  Of the first
    [min count (size of the store)] records the ready ones are copied, in
    the order of the store, and taken out of it; every other record
    stays. *)
Lemma copy_ready_timings_spec (timing : list TimingInfo) (count : Z)
    (timings : list VkPastPresentationTimingGOOGLE) :
  Z.of_nat (length timing) < 2 ^ 32 -> 0 <= count < 2 ^ 32 ->
  (Z.to_nat count <= length timings)%nat ->
  copy_ready_timings timing count timings =
    let seen := take (Nat.min (Z.to_nat count) (length timing)) timing in
    Some (List.filter (fun ti => negb (ready ti)) seen ++
          drop (Nat.min (Z.to_nat count) (length timing)) timing,
          map get_values (List.filter ready seen) ++
          drop (length (List.filter ready seen)) timings,
          Z.of_nat (length (List.filter ready seen))).
Proof.
  intros Hlen Hcount Hout. unfold copy_ready_timings.
  rewrite (u32_small (Z.of_nat (length timing))) by lia.
  set (m := Nat.min (Z.to_nat count) (length timing)).
  assert ((if count <? Z.of_nat (length timing) then count
           else Z.of_nat (length timing)) = Z.of_nat m) as ->.
  { unfold m. destruct (Z.ltb_spec count (Z.of_nat (length timing))); lia. }
  pose proof (copy_ready_loop_spec count (length timing) 0 m 0 timing timings)
    as H.
  change (Z.of_nat 0) with 0 in H. rewrite H by (unfold m; lia).
  rewrite Nat.sub_0_r, drop_0, !take_0. reflexivity.
Qed.

Lemma copy_ready_timings_spec_witness :
  copy_ready_timings [TimingInfo_of {| pt_presentID := 1;
                                       pt_desiredPresentTime := 7 |}] 1
    [vals_ (TimingInfo_of {| pt_presentID := 0;
                             pt_desiredPresentTime := 0 |})] =
  Some ([TimingInfo_of {| pt_presentID := 1; pt_desiredPresentTime := 7 |}],
        [vals_ (TimingInfo_of {| pt_presentID := 0;
                                 pt_desiredPresentTime := 0 |})], 0).
Proof.
  rewrite copy_ready_timings_spec; [reflexivity | simpl; lia | lia | simpl; lia].
Defined.

(** A caller whose array takes the whole store gets every ready record. *)
Lemma copy_ready_timings_all (timing : list TimingInfo) (count : Z)
    (timings : list VkPastPresentationTimingGOOGLE) :
  Z.of_nat (length timing) <= count < 2 ^ 32 ->
  (Z.to_nat count <= length timings)%nat ->
  copy_ready_timings timing count timings =
    Some (List.filter (fun ti => negb (ready ti)) timing,
          map get_values (List.filter ready timing) ++
          drop (length (List.filter ready timing)) timings,
          Z.of_nat (length (List.filter ready timing))).
Proof.
  intros Hcount Hout.
  rewrite copy_ready_timings_spec by lia. cbv zeta.
  replace (Nat.min (Z.to_nat count) (length timing)) with (length timing)
    by lia.
  rewrite take_ge, drop_ge, app_nil_r by lia. reflexivity.
Qed.

Lemma copy_ready_timings_all_witness :
  copy_ready_timings
    [stamped 1;
     TimingInfo_of {| pt_presentID := 2; pt_desiredPresentTime := 7 |};
     stamped 3] 3
    [vals_ (TimingInfo_of {| pt_presentID := 0; pt_desiredPresentTime := 0 |});
     vals_ (TimingInfo_of {| pt_presentID := 0; pt_desiredPresentTime := 0 |});
     vals_ (TimingInfo_of {| pt_presentID := 0;
                             pt_desiredPresentTime := 0 |})] =
  Some ([TimingInfo_of {| pt_presentID := 2; pt_desiredPresentTime := 7 |}],
        [vals_ (stamped 1); vals_ (stamped 3);
         vals_ (TimingInfo_of {| pt_presentID := 0;
                                 pt_desiredPresentTime := 0 |})], 2).
Proof.
  rewrite copy_ready_timings_all; [reflexivity | simpl; lia | simpl; lia].
Defined.



(** C2.  [copy_ready_timings] on a store of two records, the first not
    ready and the second ready, with room for one record: the store holds
    one ready record and the limit is one, yet nothing is copied, the count
    written back is 0 and the ready record stays in the store.  The limit
    has bounded the records looked at, and the record that is not ready
    stood in the way. *)
Theorem copy_ready_timings_leaves_ready_record :
  let waiting :=
    TimingInfo_of {| pt_presentID := 1; pt_desiredPresentTime := 16 |} in
  let done :=
    {| vals_ := {| presentID := 2; desiredPresentTime := 32;
                   actualPresentTime := 40; earliestPresentTime := 40;
                   presentMargin := 2 |};
       timestamp_desired_present_time_ := 32;
       timestamp_actual_present_time_ := 40;
       timestamp_render_complete_time_ := 34;
       timestamp_composition_latch_time_ := 36 |} in
  let room := [vals_ (TimingInfo_of {| pt_presentID := 0;
                                       pt_desiredPresentTime := 0 |})] in
  ready waiting = false /\ ready done = true /\
  copy_ready_timings [waiting; done] 1 room =
    Some ([waiting; done], room, 0).
Proof. repeat split. Qed.

(** ** Running computations step by step *)

Lemma run_bind {A B : Type} (m : M A) (k : A -> M B) (w w2 : World) (b : B) :
  bind m k w = Some (b, w2) <->
  exists (a : A) (w1 : World), m w = Some (a, w1) /\ k a w1 = Some (b, w2).
Proof.
  unfold bind. split.
  - destruct (m w) as [[a w1] |]; [eauto | discriminate].
  - intros (a & w1 & -> & H). exact H.
Qed.

Lemma run_ret {A : Type} (a b : A) (w w' : World) :
  ret a w = Some (b, w') <-> b = a /\ w' = w.
Proof. unfold ret. split; [intros [= -> ->] | intros [-> ->]]; auto. Qed.

Lemma run_call (c : Call) (w w' : World) (a : Answer) :
  call c w = Some (a, w') <->
  a = oracle w (trace w) c /\ w' = with_trace (trace w ++ [(c, a)]) w.
Proof.
  unfold call. split.
  - intros [= <- <-]. auto.
  - intros [-> ->]. reflexivity.
Qed.

Lemma run_get_swapchain (p : Z) (w w' : World) (sc : Swapchain) :
  get_swapchain p w = Some (sc, w') <-> swapchains w !! p = Some sc /\ w' = w.
Proof.
  unfold get_swapchain. destruct (swapchains w !! p); split;
    try intros [= -> ->]; try intros [[= ->] ->]; auto; intros []; discriminate.
Qed.

Lemma run_get_surface (p : Z) (w w' : World) (s : Surface) :
  get_surface p w = Some (s, w') <-> surfaces w !! p = Some s /\ w' = w.
Proof.
  unfold get_surface. destruct (surfaces w !! p); split;
    try intros [= -> ->]; try intros [[= ->] ->]; auto; intros []; discriminate.
Qed.

Lemma run_put_swapchain (p : Z) (sc : Swapchain) (w w' : World) (u : unit) :
  put_swapchain p sc w = Some (u, w') <->
  is_Some (swapchains w !! p) /\
  w' = with_swapchains (<[p := sc]> (swapchains w)) w.
Proof.
  unfold put_swapchain. destruct u. destruct (swapchains w !! p); split.
  - intros [= <-]. split; [eauto | done].
  - intros [_ ->]. done.
  - discriminate.
  - intros [[? [=]] _].
Qed.

Lemma run_put_surface (p : Z) (s : Surface) (w w' : World) (u : unit) :
  put_surface p s w = Some (u, w') <->
  is_Some (surfaces w !! p) /\
  w' = with_surfaces (<[p := s]> (surfaces w)) w.
Proof.
  unfold put_surface. destruct u. destruct (surfaces w !! p); split.
  - intros [= <-]. split; [eauto | done].
  - intros [_ ->]. done.
  - discriminate.
  - intros [[? [=]] _].
Qed.

Lemma run_image_at (i : nat) (imgs : list Image) (w w' : World) (img : Image) :
  image_at i imgs w = Some (img, w') <-> imgs !! i = Some img /\ w' = w.
Proof.
  unfold image_at. destruct (imgs !! i); split;
    try intros [= -> ->]; try intros [[= ->] ->]; auto; intros []; discriminate.
Qed.

Lemma run_index {A : Type} (i : nat) (l : list A) (w w' : World) (x : A) :
  index i l w = Some (x, w') <-> l !! i = Some x /\ w' = w.
Proof.
  unfold index. destruct (l !! i); split;
    try intros [= -> ->]; try intros [[= ->] ->]; auto; intros []; discriminate.
Qed.

(** One step of a run that is recorded in a hypothesis. *)
Ltac mstep :=
  match goal with
  | H : bind _ _ _ = Some _ |- _ =>
      let a := fresh "a" in let w := fresh "w" in let Ha := fresh "Hrun" in
      apply run_bind in H as (a & w & Ha & H)
  | H : ret _ _ = Some _ |- _ => apply run_ret in H as [? ?]; simplify_eq
  | H : undefined _ = Some _ |- _ => discriminate H
  | H : call _ _ = Some _ |- _ => apply run_call in H as [? ?]; subst
  | H : get_swapchain _ _ = Some _ |- _ =>
      apply run_get_swapchain in H as [H ?]; subst
  | H : get_surface _ _ = Some _ |- _ =>
      apply run_get_surface in H as [H ?]; subst
  | H : put_swapchain _ _ _ = Some _ |- _ =>
      apply run_put_swapchain in H as [H ?]; subst
  | H : put_surface _ _ _ = Some _ |- _ =>
      apply run_put_surface in H as [H ?]; subst
  | H : new_swapchain _ _ _ = Some _ |- _ => injection H as ? ?; subst
  | H : delete_swapchain _ _ = Some _ |- _ => injection H as ? ?; subst
  | H : new_surface _ _ _ = Some _ |- _ => injection H as ? ?; subst
  | H : delete_surface _ _ = Some _ |- _ => injection H as ? ?; subst
  | H : image_at _ _ _ = Some _ |- _ =>
      apply run_image_at in H as [H ?]; subst
  | H : index _ _ _ = Some _ |- _ =>
      apply run_index in H as [H ?]; subst
  | H : get_dispatch _ = Some _ |- _ => injection H as ? ?; subst
  | H : when ?b _ _ = Some _ |- _ => unfold when in H
  | H : forget _ _ = Some _ |- _ => unfold forget in H
  | H : check _ _ _ = Some _ |- _ => unfold check in H
  | H : (let (_, _) := ?x in _) _ = Some _ |- _ => destruct x
  | H : (if ?b then _ else _) _ = Some _ |- _ =>
      let E := fresh "Hif" in destruct b eqn:E
  | H : (match ?x with _ => _ end) _ = Some _ |- _ =>
      let E := fresh "Hcase" in destruct x eqn:E
  end.

Ltac msteps := repeat mstep.

(** The tests a run has taken, as propositions. *)
Ltac bool_hyps :=
  repeat match goal with
  | H : negb _ = true |- _ => apply negb_true_iff in H
  | H : negb _ = false |- _ => apply negb_false_iff in H
  | H : (_ && _) = true |- _ => apply andb_true_iff in H as [? ?]
  | H : (_ || _) = false |- _ => apply orb_false_iff in H as [? ?]
  | H : (_ =? _) = true |- _ => apply Z.eqb_eq in H
  | H : (_ =? _) = false |- _ => apply Z.eqb_neq in H
  | H : (_ >=? _) = true |- _ => apply Z.geb_le in H
  | H : (_ >=? _) = false |- _ => rewrite Z.geb_leb in H; apply Z.leb_gt in H
  | H : (_ <? _) = true |- _ => apply Z.ltb_lt in H
  | H : (_ <? _) = false |- _ => apply Z.ltb_ge in H
  | H : (_ >? _) = true |- _ => apply Z.gtb_lt in H
  | H : (_ >? _) = false |- _ => rewrite Z.gtb_ltb in H; apply Z.ltb_ge in H
  | H : bool_decide _ = true |- _ => apply bool_decide_eq_true in H
  | H : bool_decide _ = false |- _ => apply bool_decide_eq_false in H
  end.

Lemma extends_refl (w : World) : extends w w [].
Proof. unfold extends. by rewrite app_nil_r. Qed.

Lemma extends_trans (w1 w2 w3 : World) (e1 e2 : Trace) :
  extends w1 w2 e1 -> extends w2 w3 e2 -> extends w1 w3 (e1 ++ e2).
Proof. unfold extends. intros H1 H2. by rewrite H2, H1, app_assoc. Qed.

Lemma same_heap_refl (w : World) : same_heap w w.
Proof. by repeat split. Qed.

Lemma same_heap_trans (w1 w2 w3 : World) :
  same_heap w1 w2 -> same_heap w2 w3 -> same_heap w1 w3.
Proof.
  intros (H1 & H2 & H3 & H4) (H5 & H6 & H7 & H8). repeat split; congruence.
Qed.

(** A world reached by calls alone, against the world it started from. *)
Ltac solve_extends :=
  unfold extends; simpl; rewrite <- ?app_assoc; simpl;
  first [ reflexivity | symmetry; apply app_nil_r ].

Ltac solve_same_heap := unfold same_heap; simpl; by repeat split.

(** ** Computations that always return *)

Lemma always_returns_ret {A : Type} (a : A) : always_returns (ret a).
Proof. intros w. unfold ret. eauto. Qed.

Lemma always_returns_call (c : Call) : always_returns (call c).
Proof. intros w. unfold call. eauto. Qed.

Lemma always_returns_bind {A B : Type} (m : M A) (k : A -> M B) :
  always_returns m -> (forall a, always_returns (k a)) -> always_returns (bind m k).
Proof.
  intros Hm Hk w. unfold bind. destruct (Hm w) as [[a w1] ->]. apply Hk.
Qed.

Lemma always_returns_if {A : Type} (b : bool) (m1 m2 : M A) :
  always_returns m1 -> always_returns m2 -> always_returns (if b then m1 else m2).
Proof. by destruct b. Qed.

Lemma always_returns_when (b : bool) (m : M unit) : always_returns m -> always_returns (when b m).
Proof. intros H. unfold when. destruct b; [exact H | apply always_returns_ret]. Qed.

Create HintDb returns.
#[local] Hint Resolve always_returns_ret always_returns_call always_returns_bind always_returns_if always_returns_when
  : returns.

(** ** Releasing a slot *)

Lemma ReleaseSwapchainImage_spec (device win release_fence : Z)
    (img img' : Image) (w w' : World) :
  ReleaseSwapchainImage device win release_fence img w = Some (img', w') ->
  img' = released img /\ same_heap w w' /\
  exists evs, extends w w' evs /\
    Forall (fun e => owes e.1 e.2 = None) evs /\
    (win = 0 -> Forall (fun e => window_of e.1 = None) evs).
Proof.
  unfold ReleaseSwapchainImage. intros H. msteps.
  all: try congruence.
  all: split; [destruct img; simpl in *; bool_hyps; subst; reflexivity |].
  all: split; [solve_same_heap |].
  all: eexists; split; [solve_extends |].
  all: split; [repeat constructor |].
  all: intros ->; try discriminate; repeat constructor.
Qed.

Lemma ReleaseSwapchainImage_total (device win release_fence : Z)
    (img : Image) :
  always_returns (ReleaseSwapchainImage device win release_fence img).
Proof. unfold ReleaseSwapchainImage. auto 20 with returns. Qed.

(** ** Loops over the slots *)

Lemma for_images_total (body : Image -> M Image) (n : nat) :
  (forall img, always_returns (body img)) ->
  forall (i : nat) (imgs : list Image),
    (i + n <= length imgs)%nat -> always_returns (for_images n i body imgs).
Proof.
  intros Hbody. induction n as [| n IH]; intros i imgs Hlen; simpl.
  - apply always_returns_ret.
  - destruct (lookup_lt_is_Some_2 imgs i) as [img Himg]; [lia |].
    unfold image_at. rewrite Himg.
    apply always_returns_bind; [apply always_returns_ret |]. intros img0.
    apply always_returns_bind; [apply Hbody |]. intros img'.
    apply IH. rewrite length_insert. lia.
Qed.

Lemma for_images_spec (body : Image -> M Image)
    (R : Image -> Image -> Trace -> Prop) :
  (forall img img' w w',
     body img w = Some (img', w') ->
     same_heap w w' /\ exists evs, extends w w' evs /\ R img img' evs) ->
  forall (n i : nat) (imgs imgs' : list Image) (w w' : World),
    for_images n i body imgs w = Some (imgs', w') ->
    same_heap w w' /\ length imgs' = length imgs /\
    (forall j, (i <= j < i + n)%nat -> (j < length imgs)%nat) /\
    (forall j, (j < i \/ i + n <= j)%nat -> imgs' !! j = imgs !! j) /\
    exists evs, extends w w' evs /\
      (forall j img, (i <= j < i + n)%nat -> imgs !! j = Some img ->
         exists img' evs_j, imgs' !! j = Some img' /\ R img img' evs_j /\
                            forall e, In e evs_j -> In e evs) /\
      (forall e, In e evs ->
         exists j img img' evs_j, (i <= j < i + n)%nat /\
           imgs !! j = Some img /\ imgs' !! j = Some img' /\
           R img img' evs_j /\ In e evs_j).
Proof.
  intros Hbody. induction n as [| n IH]; intros i imgs imgs' w w' H; simpl in H.
  - mstep. split; [apply same_heap_refl |]. split; [done |].
    split; [lia |]. split; [done |].
    exists []. split; [apply extends_refl |]. split.
    + intros j img Hj. lia.
    + intros e [].
  - msteps.
    destruct (Hbody _ _ _ _ Hrun0) as (Hheap0 & evs0 & Hext0 & HR).
    destruct (IH _ _ _ _ _ H) as (Hheap & Hlen & Hn & Hframe & evs & Hext & Hin & Hout).
    rewrite length_insert in Hlen, Hn.
    assert (i < length imgs)%nat as Hi by (by eapply lookup_lt_Some).
    split; [by eapply same_heap_trans |]. split; [done |].
    split; [intros j Hj; destruct (decide (j = i)); [lia | apply Hn; lia] |].
    split.
    { intros j Hj. rewrite Hframe by lia.
      apply list_lookup_insert_ne. lia. }
    exists (evs0 ++ evs). split; [by eapply extends_trans |]. split.
    + intros j img Hj Himg. destruct (decide (j = i)) as [-> | Hne].
      * exists a0, evs0. rewrite Hframe by lia.
        rewrite list_lookup_insert_eq by done.
        assert (img = a) as -> by congruence.
        split; [done |]. split; [done |].
        intros e He. apply in_or_app. by left.
      * destruct (Hin j img) as (img' & evs_j & H1 & H2 & H3); [lia | |].
        { rewrite list_lookup_insert_ne by done. exact Himg. }
        exists img', evs_j. split; [done |]. split; [done |].
        intros e He. apply in_or_app. right. by apply H3.
    + intros e He. apply in_app_or in He as [He | He].
      * exists i, a, a0, evs0. split; [lia |]. split; [done |].
        split; [| done]. rewrite Hframe by lia.
        by apply list_lookup_insert_eq.
      * destruct (Hout e He) as (j & img & img' & evs_j & Hj & H1 & H2 & H3 & H4).
        exists j, img, img', evs_j. split; [lia |].
        rewrite list_lookup_insert_ne in H1 by lia. done.
Qed.

(** What holds of the slots before a loop and is kept by its body holds of
    them after it. *)
Lemma for_images_Forall (body : Image -> M Image) (P : Image -> Prop) :
  (forall img img' w w',
     body img w = Some (img', w') -> same_heap w w' /\ (P img -> P img')) ->
  forall (n i : nat) (imgs imgs' : list Image) (w w' : World),
    for_images n i body imgs w = Some (imgs', w') ->
    same_heap w w' /\ (Forall P imgs -> Forall P imgs').
Proof.
  intros Hbody. induction n as [| n IH]; intros i imgs imgs' w w' H; simpl in H.
  - mstep. split; [apply same_heap_refl | done].
  - msteps. destruct (Hbody _ _ _ _ Hrun0) as [Hheap0 HP].
    destruct (IH _ _ _ _ _ H) as [Hheap HF].
    split; [by eapply same_heap_trans |].
    intros Hall. apply HF. apply Forall_insert; [done |].
    apply HP. by eapply Forall_lookup_1.
Qed.

(** ** The two loops of [CreateSwapchainKHR] *)

(** The first loop: it changes the slots it walks over and no other; when
    it ends with [VK_SUCCESS] every slot it walked over is dequeued; and
    whatever one of its calls owes is owed for a dequeued slot, by the
    buffer and the fence or by the image the slot holds. *)
Lemma dequeue_all_spec (device win : Z) (create_info : VkSwapchainCreateInfoKHR)
    (swapchain_image_usage : Z) (n : nat) :
  forall (i : nat) (result r : VkResult) (imgs imgs' : list Image)
         (w w' : World),
    dequeue_all n i device win create_info swapchain_image_usage result imgs w
      = Some ((r, imgs'), w') ->
    same_heap w w' /\ length imgs' = length imgs /\
    (forall j, (j < i \/ i + n <= j)%nat -> imgs' !! j = imgs !! j) /\
    (r = VK_SUCCESS ->
     forall j, (i <= j < i + n)%nat ->
       exists img, imgs' !! j = Some img /\ dequeued img = true) /\
    exists evs, extends w w' evs /\
      forall c a c', In (c, a) evs -> owes c a = Some c' ->
        exists j img, (i <= j < i + n)%nat /\ imgs' !! j = Some img /\
          dequeued img = true /\
          (c' = cancelBuffer win (buffer img) (dequeue_fence img) \/
           c' = DestroyImage device (image img) /\ image img <> 0).
Proof.
  induction n as [| n IH]; intros i result r imgs imgs' w w' H; simpl in H.
  - mstep. split; [apply same_heap_refl |]. split; [done |]. split; [done |].
    split; [intros _ j Hj; lia |].
    exists []. split; [apply extends_refl |]. intros c a c' [].
  - msteps.
    + (* dequeueBuffer fails *)
      split; [solve_same_heap |]. split; [by rewrite length_insert |].
      split; [intros j Hj; apply list_lookup_insert_ne; lia |].
      split; [discriminate |].
      eexists. split; [solve_extends |].
      intros c a' c' [[= <- <-] | []] Howes. simpl in Howes.
      bool_hyps. rewrite (proj2 (Z.eqb_neq _ _)) in Howes by done.
      discriminate.
    + (* CreateImage fails *)
      assert (i < length imgs)%nat as Hi by (by eapply lookup_lt_Some).
      split; [solve_same_heap |]. split; [by rewrite length_insert |].
      split; [intros j Hj; apply list_lookup_insert_ne; lia |].
      split; [bool_hyps; congruence |].
      eexists. split; [solve_extends |].
      intros c a' c' [[= <- <-] | [[= <- <-] | []]] Howes; simpl in Howes.
      * exists i. eexists. split; [lia |].
        split; [by apply list_lookup_insert_eq |]. split; [done |].
        left. simpl. destruct (a_err _ =? 0); [| discriminate].
        by injection Howes as <-.
      * bool_hyps. rewrite bool_decide_eq_false_2 in Howes by done.
        discriminate.
    + (* the loop goes on *)
      assert (i < length imgs)%nat as Hi by (by eapply lookup_lt_Some).
      destruct (IH _ _ _ _ _ _ _ H)
        as (Hs & Hlen & Hframe & Hsucc & evs & Hext & Hdebt).
      rewrite length_insert in Hlen.
      split; [eapply same_heap_trans; [| exact Hs]; solve_same_heap |].
      split; [done |].
      split.
      { intros j Hj. rewrite Hframe by lia.
        apply list_lookup_insert_ne. lia. }
      split.
      { intros Hr j Hj. destruct (decide (j = i)) as [-> | Hne].
        - rewrite Hframe by lia. rewrite list_lookup_insert_eq by done.
          eexists. split; [reflexivity | done].
        - apply Hsucc; [done | lia]. }
      eexists (_ :: _ :: evs). split.
      { unfold extends in *. rewrite Hext. simpl.
        rewrite <- !app_assoc. reflexivity. }
      intros c a' c' [[= <- <-] | [[= <- <-] | Hin]] Howes;
        simpl in Howes.
      * exists i. eexists. split; [lia |].
        split; [rewrite Hframe by lia; by apply list_lookup_insert_eq |].
        split; [done |].
        left. simpl. destruct (a_err _ =? 0); [| discriminate].
        by injection Howes as <-.
      * exists i. eexists. split; [lia |].
        split; [rewrite Hframe by lia; by apply list_lookup_insert_eq |].
        split; [done |]. right. simpl.
        destruct (bool_decide _ && negb _) eqn:E; [| discriminate].
        bool_hyps. split; [by injection Howes as <- | done].
      * destruct (Hdebt _ _ _ Hin Howes) as (j & img & Hj & H1 & H2 & H3).
        exists j, img. split; [lia | done].
Qed.

Lemma cancel_one_spec (device win : Z) (result : VkResult)
    (img img' : Image) (w w' : World) :
  cancel_one device win result img w = Some (img', w') ->
  same_heap w w' /\
  exists evs, extends w w' evs /\
    (img' = cancelled img /\
     Forall (fun e => owes e.1 e.2 = None) evs /\
     (dequeued img = true ->
      exists a, In (cancelBuffer win (buffer img) (dequeue_fence img), a) evs) /\
     (result <> VK_SUCCESS -> image img <> 0 ->
      exists a, In (DestroyImage device (image img), a) evs)).
Proof.
  unfold cancel_one, cancelled. intros H. msteps.
  all: split; [solve_same_heap |].
  all: eexists; split; [solve_extends |].
  all: rewrite ?Hif; split; [reflexivity |].
  all: split; [repeat constructor |].
  all: bool_hyps; simpl in *.
  all: split; [intros ?; try discriminate; eexists; simpl; eauto |].
  all: intros ? ?; try congruence; try tauto; eexists; simpl; eauto.
Qed.

(** ** Debts and their settlement *)

Lemma app_eq_cons_split {A : Type} (l1 l2 before after : list A) (x : A) :
  l1 ++ l2 = before ++ x :: after ->
  (exists after1, l1 = before ++ x :: after1 /\ after = after1 ++ l2) \/
  (exists before2, before = l1 ++ before2 /\ l2 = before2 ++ x :: after).
Proof.
  revert before. induction l1 as [| y l1 IH]; intros before H; simpl in H.
  - right. by exists before.
  - destruct before as [| z before]; simpl in H.
    + injection H as -> <-. left. by exists l1.
    + injection H as -> H. destruct (IH _ H) as [(a1 & -> & ->) | (b2 & -> & ->)].
      * left. by exists a1.
      * right. by exists b2.
Qed.

Lemma settled_free (evs : Trace) :
  Forall (fun e => owes e.1 e.2 = None) evs -> settled evs.
Proof.
  intros Hall before after c c' a -> Howes.
  apply Forall_app in Hall as [_ Hall]. apply Forall_cons in Hall as [H _].
  simpl in H. congruence.
Qed.

(** The debts of the first part of a trace may be paid in the second. *)
Lemma settled_app (l1 l2 : Trace) :
  (forall c a c', In (c, a) l1 -> owes c a = Some c' ->
                  exists a', In (c', a') l2) ->
  settled l2 -> settled (l1 ++ l2).
Proof.
  intros H1 H2 before after c c' a Heq Howes.
  apply app_eq_cons_split in Heq as [(a1 & -> & ->) | (b2 & -> & ->)].
  - destruct (H1 c a c') as [a' Ha']; [| done |].
    + apply in_or_app. right. by left.
    + exists a'. apply in_or_app. by right.
  - by eapply H2.
Qed.

Lemma settled_nil : settled [].
Proof. apply settled_free. constructor. Qed.

(** Calls that owe nothing may come first. *)
Lemma settled_app_free (l1 l2 : Trace) :
  Forall (fun e => owes e.1 e.2 = None) l1 -> settled l2 ->
  settled (l1 ++ l2).
Proof.
  intros H1 H2. apply settled_app; [| done].
  intros c a c' Hin Howes. rewrite Forall_forall in H1.
  apply list_elem_of_In in Hin. specialize (H1 _ Hin). simpl in H1. congruence.
Qed.

(** ** [CreateSwapchainKHR] from the allocation on *)

Lemma create_allocated_cleans_up (device win : Z)
    (create_info : VkSwapchainCreateInfoKHR) (allocator : Allocator)
    (num_images swapchain_image_usage : Z) :
  cleans_up (create_allocated device win create_info allocator num_images
               swapchain_image_usage).
Proof.
  unfold create_allocated, Swapchain_new. intros w w' r out H Hr. msteps.
  - (* out of host memory *)
    split; [done |]. split; [done |]. eexists. split; [solve_extends |].
    bool_hyps. split.
    + apply settled_free. repeat constructor. simpl.
      by rewrite (proj2 (Z.eqb_eq _ _)).
    + intros alloc a [[= <- <-] | []] Ha. congruence.
  - (* the loops have failed *)
    match goal with
    | Hx : dequeue_all _ _ _ _ _ _ _ _ _ = Some _ |- _ =>
        apply dequeue_all_spec in Hx
          as (Hs1 & Hlen1 & Hframe1 & Hsucc & pop & Hpop & Hdebt)
    end.
    match goal with
    | Hx : for_images _ _ _ _ _ = Some _ |- _ =>
        apply (for_images_spec _ _ (cancel_one_spec device win _)) in Hx
          as (Hs2 & Hlen2 & Hrange & Hframe2 & can & Hcan & Hpaid & Hfree)
    end.
    pose proof (same_heap_trans _ _ _ Hs1 Hs2) as (Hs & Hsw & _).
    split; [done |]. split; [simpl; by rewrite Hs |].
    eexists (_ :: _ :: pop ++ can ++ [_]). split.
    { unfold extends in *. simpl. rewrite Hcan, Hpop. simpl.
      rewrite <- !app_assoc. reflexivity. }
    split.
    + change (?a :: ?b :: pop ++ can ++ ?c)
        with (([a; b] ++ pop) ++ (can ++ c)).
      apply settled_app.
      * intros cc ans cc' [Hin | Hin]%in_app_or Howes.
        -- destruct Hin as [[= <- <-] | [[= <- <-] | []]]; simpl in Howes;
             [| discriminate].
           destruct (negb _); [| discriminate]. injection Howes as <-.
           eexists. apply in_or_app. right. by left.
        -- destruct (Hdebt _ _ _ Hin Howes) as (j & img & Hj & Himg & Hdq & Hc').
           destruct (Hpaid j img Hj Himg)
             as (img' & evs_j & _ & (_ & _ & Hcb & Hdi) & Hsub).
           destruct Hc' as [-> | [-> Hne]].
           ++ destruct (Hcb Hdq) as [a' Ha']. exists a'.
              apply in_or_app. left. by apply Hsub.
           ++ destruct (Hdi ltac:(bool_hyps; done) Hne) as [a' Ha'].
              exists a'. apply in_or_app. left. by apply Hsub.
      * apply settled_free. apply Forall_app. split; [| repeat constructor].
        apply Forall_forall. intros e He%list_elem_of_In.
        destruct (Hfree e He) as (j & img & img' & evs_j & _ & _ & _ & (_ & Hall & _) & Hin).
        rewrite Forall_forall in Hall. apply Hall. by apply list_elem_of_In.
    + intros alloc ans Hin Ha. simpl. rewrite Hsw. simpl.
      destruct Hin as [[= <- <-] | [[=] | Hin]].
      { apply lookup_delete_eq. }
      exfalso.
      assert (owes (pfnAllocation alloc) ans =
              Some (pfnFree alloc (a_value ans))) as Howes.
      { simpl. by rewrite (proj2 (Z.eqb_neq _ _) Ha). }
      apply in_app_or in Hin as [Hin | Hin].
      * destruct (Hdebt _ _ _ Hin Howes)
          as (j & img & Hj & Himg & Hdq & [Hc | [Hc _]]); discriminate.
      * apply in_app_or in Hin as [Hin | [[=] | []]].
        destruct (Hfree _ Hin)
          as (j & img & img' & evs_j & _ & _ & _ & (_ & Hall & _) & Hin').
        rewrite Forall_forall in Hall. apply list_elem_of_In in Hin'.
        specialize (Hall _ Hin'). cbn [fst snd] in Hall. congruence.
Qed.

(** ** [CreateSwapchainKHR] from the reset of the window on *)

Lemma cleans_up_ret (r : VkResult) : cleans_up (ret (r, None)).
Proof.
  intros w w' r' out H _. mstep. split; [done |]. split; [done |].
  exists []. split; [apply extends_refl |]. split; [apply settled_nil |].
  intros alloc a [].
Qed.

Lemma cleans_up_call (c : Call) (k : Answer -> M (VkResult * option Z)) :
  (forall a, owes c a = None) -> (forall a, cleans_up (k a)) ->
  cleans_up (bind (call c) k).
Proof.
  intros Hc Hk w w' r out H Hr. msteps.
  destruct (Hk _ _ _ _ _ H Hr) as (-> & Hsurf & evs & Hext & Hsettled & Halloc).
  split; [done |]. split; [done |].
  exists ([(c, oracle w (trace w) c)] ++ evs). split.
  { unfold extends in *. rewrite Hext. simpl. by rewrite <- app_assoc. }
  split.
  { apply settled_app_free; [| done]. repeat constructor. apply Hc. }
  intros alloc a [[= -> <-] | Hin] Ha; [| by eapply Halloc].
  specialize (Hc (oracle w (trace w) (pfnAllocation alloc))). simpl in Hc.
  by rewrite (proj2 (Z.eqb_neq _ _) Ha) in Hc.
Qed.

Lemma cleans_up_check (c : Call) (k : M (VkResult * option Z)) :
  (forall a, owes c a = None) -> cleans_up k -> cleans_up (check c k).
Proof.
  intros Hc Hk. unfold check. apply cleans_up_call; [done |].
  intros a. destruct (negb (a_err a =? 0)); [apply cleans_up_ret | done].
Qed.

Lemma cleans_up_if (b : bool) (m1 m2 : M (VkResult * option Z)) :
  cleans_up m1 -> cleans_up m2 -> cleans_up (if b then m1 else m2).
Proof. by destruct b. Qed.

Lemma cleans_up_gralloc (device : Z) (create_info : VkSwapchainCreateInfoKHR)
    (swapchain_image_usage : Z) (k : option Z -> M (VkResult * option Z)) :
  (forall usage, cleans_up (k usage)) ->
  cleans_up (bind (swapchain_gralloc_usage device create_info
                     swapchain_image_usage) k).
Proof.
  intros Hk. unfold swapchain_gralloc_usage.
  intros w w' r out H Hr. apply run_bind in H as (usage & w1 & H1 & H2).
  assert (same_heap w w1 /\ exists evs, extends w w1 evs /\
            Forall (fun e => owes e.1 e.2 = None) evs)
    as ((Hsurf & _) & evs1 & Hext1 & Hfree).
  { clear H2. msteps.
    all: split; [solve_same_heap |].
    all: eexists; split; [solve_extends | repeat constructor]. }
  destruct (Hk _ _ _ _ _ H2 Hr) as (-> & Hsurf2 & evs & Hext & Hsettled & Halloc).
  split; [done |]. split; [congruence |].
  exists (evs1 ++ evs). split; [by eapply extends_trans |].
  split; [by apply settled_app_free |].
  intros alloc a [Hin | Hin]%in_app_or Ha; [| by eapply Halloc].
  rewrite Forall_forall in Hfree. apply list_elem_of_In in Hin.
  specialize (Hfree _ Hin). simpl in Hfree.
  by rewrite (proj2 (Z.eqb_neq _ _) Ha) in Hfree.
Qed.

Lemma cleans_up_get_surface (p : Z) (k : Surface -> M (VkResult * option Z)) :
  (forall s, cleans_up (k s)) -> cleans_up (bind (get_surface p) k).
Proof. intros Hk w w' r out H Hr. msteps. by eapply Hk. Qed.

Lemma create_after_orphan_cleans_up (device : Z)
    (create_info : VkSwapchainCreateInfoKHR) (allocator : Z) :
  cleans_up (create_after_orphan device create_info allocator).
Proof.
  unfold create_after_orphan. cbv zeta.
  apply cleans_up_get_surface. intros surf.
  repeat first
    [ apply cleans_up_ret
    | apply create_allocated_cleans_up
    | apply cleans_up_check; [done |]
    | apply cleans_up_call; [done | intros ?]
    | apply cleans_up_gralloc; intros [?|]
    | apply cleans_up_if ].
Qed.

(** C1.  When [CreateSwapchainKHR] returns an error, the surfaces are as the
    head of the entry point (the check of [oldSwapchain] and the orphaning)
    has left them, no handle is stored, and every debt of the calls made
    since is settled: a buffer that has been dequeued has gone back to the
    window with the fence it came with, an image the driver has created has
    been destroyed, and the memory of the [Swapchain] has been freed and
    holds no swapchain. *)
Theorem CreateSwapchainKHR_failure_cleans_up (device : Z)
    (create_info : VkSwapchainCreateInfoKHR) (allocator : Z) (w w' : World)
    (r : VkResult) (out : option Z) :
  CreateSwapchainKHR device create_info allocator w = Some ((r, out), w') ->
  r <> VK_SUCCESS ->
  exists (go_on : bool) (w1 : World),
    create_orphan_step device create_info w = Some (go_on, w1) /\
    surfaces w' = surfaces w1 /\ out = None /\
    exists evs, extends w1 w' evs /\ settled evs /\
      forall alloc a, In (pfnAllocation alloc, a) evs -> a_value a <> 0 ->
                      swapchains w' !! a_value a = None.
Proof.
  unfold CreateSwapchainKHR. intros H Hr.
  apply run_bind in H as (go_on & w1 & Hstep & H).
  exists go_on, w1. split; [exact Hstep |]. destruct go_on.
  - destruct (create_after_orphan_cleans_up _ _ _ _ _ _ _ H Hr)
      as (-> & Hsurf & Hrest).
    auto.
  - destruct (cleans_up_ret _ _ _ _ _ H Hr) as (-> & Hsurf & Hrest). auto.
Qed.

Lemma CreateSwapchainKHR_failure_cleans_up_witness :
  match CreateSwapchainKHR 1 sample_create_info 0 sample_world with
  | Some ((r, out), w') =>
      r = VK_ERROR_OUT_OF_DEVICE_MEMORY /\ out = None /\
      surfaces w' = surfaces sample_world /\
      exists evs, extends sample_world w' evs /\ settled evs
  | None => False
  end.
Proof.
  destruct (CreateSwapchainKHR 1 sample_create_info 0 sample_world)
    as [[[r out] w'] |] eqn:H; [| vm_compute in H; discriminate].
  assert (r = VK_ERROR_OUT_OF_DEVICE_MEMORY) as Hr.
  { vm_compute in H. by injection H as <- _ _. }
  destruct (CreateSwapchainKHR_failure_cleans_up _ _ _ _ _ _ _ H
              ltac:(rewrite Hr; discriminate))
    as (go_on & w1 & Hstep & Hsurf & Hout & evs & Hext & Hsettled & _).
  assert (w1 = sample_world) as ->.
  { vm_compute in Hstep. by injection Hstep as _ <-. }
  split; [exact Hr |]. split; [exact Hout |]. split; [exact Hsurf |].
  exists evs. split; [exact Hext | exact Hsettled].
Defined.


(** ** Collecting timestamps keeps the keys of the store *)

Lemma calculate_presentID (rdur : Z) (ti ti' : TimingInfo) :
  calculate rdur ti = Some ti' ->
  presentID (vals_ ti') = presentID (vals_ ti).
Proof.
  unfold calculate. destruct (calculate_loop _ _ _ _ _) as [[e m] |];
    [| discriminate].
  by intros [= <-].
Qed.

Lemma probe_frames_spec (n : nat) :
  forall (f win rdur : Z) (ti ti' : TimingInfo) (counted : bool)
         (w w' : World),
    probe_frames n f win rdur ti w = Some ((ti', counted), w') ->
    same_heap w w' /\ presentID (vals_ ti') = presentID (vals_ ti).
Proof.
  induction n as [| n IH]; intros f win rdur ti ti' counted w w' H;
    simpl in H; msteps.
  - split; [apply same_heap_refl | done].
  - split; [solve_same_heap | done].
  - split; [solve_same_heap |].
    match goal with
    | Hx : calculate _ _ = Some _ |- _ => apply calculate_presentID in Hx
    end.
    done.
  - split; [solve_same_heap | done].
  - apply IH in H as [Hs Hid]. split; [| done].
    eapply same_heap_trans; [| exact Hs]. solve_same_heap.
Qed.

Lemma store_keys_insert (i : nat) (ti ti' : TimingInfo)
    (tm : list TimingInfo) :
  tm !! i = Some ti -> presentID (vals_ ti') = presentID (vals_ ti) ->
  store_keys (<[i := ti']> tm) = store_keys tm.
Proof.
  intros Hti Hid. unfold store_keys. rewrite list_fmap_insert.
  apply list_insert_id. rewrite list_lookup_fmap, Hti. simpl. by rewrite Hid.
Qed.

Lemma ready_loop_spec (n : nat) :
  forall (i : nat) (win rdur frames_ago : Z) (tm tm' : list TimingInfo)
         (num_ready r : Z) (w w' : World),
    ready_loop n i win rdur frames_ago tm num_ready w = Some ((tm', r), w') ->
    same_heap w w' /\ store_keys tm' = store_keys tm.
Proof.
  induction n as [| n IH];
    intros i win rdur frames_ago tm tm' num_ready r w w' H; simpl in H;
    msteps.
  - split; [apply same_heap_refl | done].
  - by eapply IH.
  - match goal with
    | Hx : probe_frames _ _ _ _ _ _ = Some _ |- _ =>
        apply probe_frames_spec in Hx as [Hs1 Hid]
    end.
    apply IH in H as [Hs2 Hkeys]. split; [by eapply same_heap_trans |].
    rewrite Hkeys. by eapply store_keys_insert.
Qed.


(** ** The hints of a present *)

Lemma present_region_same (win : Z) (allocator : Allocator)
    (region : VkPresentRegionKHR) (rects nrects : Z) (w w' : World)
    (scratch : Z * Z) :
  present_region win allocator region rects nrects w = Some (scratch, w') ->
  same_heap w w' /\
  exists evs, extends w w' evs /\
    Forall (fun e => match e.1 with queueBuffer _ _ _ => False | _ => True end)
           evs.
Proof.
  unfold present_region. intros H. msteps.
  all: split; [solve_same_heap |].
  all: eexists; split; [solve_extends | repeat constructor].
Qed.

Lemma present_time_spec (win : Z) (time : VkPresentTimeGOOGLE)
    (sc sc' : Swapchain) (w w' : World) :
  present_time win time sc w = Some (sc', w') ->
  same_heap w w' /\ images sc' = images sc /\
  timing sc' = enroll time (timing sc) /\
  surface sc' = surface sc /\ num_images sc' = num_images sc.
Proof.
  unfold present_time. intros H. msteps.
  all: split; [solve_same_heap | done].
Qed.


(** ** The invariants of the slots and of the timing store *)

#[local] Arguments replicate : simpl never.

Section Good.
Variable P : Image -> Prop.
Variable Q : list TimingInfo -> Prop.
Variable F : Z -> Prop.
Hypothesis Hclosed : slot_closed P F.
Hypothesis Htiming : timing_closed Q.

Lemma Q_nil : Q [].
Proof. by destruct Htiming as (H & _). Qed.

Lemma P_released (img : Image) : P img -> P (released img).
Proof.
  destruct Hclosed as (Hsame & Hclear & _ & _). intros H.
  destruct (dequeued img) eqn:E.
  - apply Hclear; unfold released; simpl; by rewrite ?E.
  - apply (Hsame img); unfold released; simpl; by rewrite ?E.
Qed.

Lemma P_new : P Image_new.
Proof. destruct Hclosed as (_ & Hclear & _ & _). by apply Hclear. Qed.

Lemma heap_ok_insert (m : gmap Z Swapchain) (handle : Z) (sc : Swapchain) :
  heap_ok P Q m -> Forall P (images sc) -> Q (timing sc) ->
  heap_ok P Q (<[handle := sc]> m).
Proof.
  intros Hm Himgs Htm h sc' Hsc.
  destruct (decide (handle = h)) as [-> | Hne].
  - rewrite lookup_insert_eq in Hsc. by injection Hsc as <-.
  - rewrite lookup_insert_ne in Hsc by done. by eapply Hm.
Qed.

Lemma heap_ok_delete (m : gmap Z Swapchain) (handle : Z) :
  heap_ok P Q m -> heap_ok P Q (delete handle m).
Proof.
  intros Hm h sc Hsc. apply lookup_delete_Some in Hsc as [_ Hsc].
  by eapply Hm.
Qed.

Lemma good_same_heap (w w' : World) :
  same_heap w w' -> good P Q F w -> good P Q F w'.
Proof.
  intros (_ & H1 & H2 & _) [Ho Hh]. split; [by rewrite H2 | by rewrite H1].
Qed.

(** A world given by its fields, against a good world. *)
Ltac good_tac Hgood :=
  let Ho := fresh "Ho" in let Hh := fresh "Hh" in
  pose proof Hgood as [Ho Hh]; split; simpl;
  [ exact Ho
  | repeat first [ apply heap_ok_insert | apply heap_ok_delete ];
    simpl; try exact Hh ].

Lemma ReleaseSwapchainImage_good (device win release_fence : Z)
    (img img' : Image) (w w' : World) :
  ReleaseSwapchainImage device win release_fence img w = Some (img', w') ->
  same_heap w w' /\ (P img -> P img').
Proof.
  intros (-> & Hs & _)%ReleaseSwapchainImage_spec.
  split; [done | apply P_released].
Qed.

Lemma OrphanSwapchain_good (device handle : Z) (w w' : World) (u : unit) :
  OrphanSwapchain device handle w = Some (u, w') ->
  good P Q F w -> good P Q F w'.
Proof.
  unfold OrphanSwapchain. intros H Hgood. msteps; [done |].
  match goal with
  | H : for_images _ _ _ _ _ = Some _ |- _ =>
      apply (for_images_Forall _ P) in H as [Hs Hall]
  end.
  2:{ intros img img' w1 w1' Hbody. msteps.
      - by eapply ReleaseSwapchainImage_good.
      - split; [apply same_heap_refl | done]. }
  destruct (proj2 Hgood _ _ Hrun) as [Himgs Htm].
  apply (good_same_heap _ _ Hs) in Hgood.
  good_tac Hgood; auto using Q_nil.
Qed.

Lemma DestroySwapchainKHR_good (device handle allocator : Z)
    (w w' : World) (u : Ending) :
  DestroySwapchainKHR device handle allocator w = Some (u, w') ->
  good P Q F w -> good P Q F w'.
Proof.
  unfold DestroySwapchainKHR. intros H Hgood. msteps; try done.
  all: destruct (proj2 Hgood _ _ Hrun) as [Himgs Htm].
  all: match goal with
       | H : for_images _ _ _ _ _ = Some _ |- _ =>
           apply (for_images_Forall _ P) in H as [Hs Hall];
             [| intros ? ? ? ? ?; by eapply ReleaseSwapchainImage_good]
       end.
  all: match goal with
       | Hs : same_heap _ ?w1 |- _ =>
           assert (good P Q F w1) as Hgood1
             by (apply (good_same_heap _ _ Hs); good_tac Hgood)
       end.
  all: good_tac Hgood1; auto.
Qed.

Lemma find_buffer_same (n : nat) :
  forall (idx : nat) (buf : Z) (imgs : list Image) (w w' : World) (r : nat),
    find_buffer n idx buf imgs w = Some (r, w') -> w' = w.
Proof.
  induction n as [| n IH]; simpl; intros idx buf imgs w w' r H; msteps.
  - done.
  - done.
  - by eapply IH.
Qed.

Lemma AcquireNextImageKHR_good
    (device handle timeout semaphore vk_fence : Z) (w w' : World)
    (r : VkResult * option Z) :
  AcquireNextImageKHR device handle timeout semaphore vk_fence w =
    Some (r, w') ->
  good P Q F w -> good P Q F w'.
Proof.
  unfold AcquireNextImageKHR. intros H Hgood. msteps.
  all: repeat match goal with
       | H : find_buffer _ _ _ _ _ = Some _ |- _ =>
           apply find_buffer_same in H; subst
       end.
  all: destruct (proj2 Hgood _ _ Hrun) as [Himgs Htm].
  all: destruct Hclosed as (Hsame & Hclear & Hacq & Hpres).
  all: good_tac Hgood; auto.
  all: apply Forall_insert; auto.
  all: first [ by apply Hclear | apply Hacq; [apply Ho | done] ].
Qed.
(** *** Keeping the invariant along a sequence of calls *)

Lemma keeps_ret {A : Type} (a : A) : keeps (good P Q F) (ret a).
Proof. intros w w' b H Hgood. by mstep. Qed.

Lemma keeps_bind {A B : Type} (m : M A) (k : A -> M B) :
  keeps (good P Q F) m -> (forall a, keeps (good P Q F) (k a)) ->
  keeps (good P Q F) (bind m k).
Proof.
  intros Hm Hk w w' b H Hgood. mstep. eapply Hk; [exact H |].
  by eapply Hm.
Qed.

Lemma keeps_call (c : Call) : keeps (good P Q F) (call c).
Proof. intros w w' a H Hgood. mstep. good_tac Hgood. Qed.

Lemma keeps_if {A : Type} (b : bool) (m1 m2 : M A) :
  keeps (good P Q F) m1 -> keeps (good P Q F) m2 ->
  keeps (good P Q F) (if b then m1 else m2).
Proof. by destruct b. Qed.

Lemma keeps_check {A : Type} (c : Call) (k : M (VkResult * option A)) :
  keeps (good P Q F) k -> keeps (good P Q F) (check c k).
Proof.
  intros Hk. unfold check. apply keeps_bind; [apply keeps_call |].
  intros a. apply keeps_if; [apply keeps_ret | done].
Qed.

Lemma keeps_when (b : bool) (m : M unit) :
  keeps (good P Q F) m -> keeps (good P Q F) (when b m).
Proof. intros H. unfold when. apply keeps_if; [done | apply keeps_ret]. Qed.

Lemma keeps_get_surface (p : Z) : keeps (good P Q F) (get_surface p).
Proof. intros w w' a H Hgood. by mstep. Qed.

Lemma keeps_get_swapchain (p : Z) : keeps (good P Q F) (get_swapchain p).
Proof. intros w w' a H Hgood. by mstep. Qed.

Lemma keeps_get_dispatch : keeps (good P Q F) get_dispatch.
Proof. intros w w' a H Hgood. by mstep. Qed.

Lemma keeps_new_surface (p : Z) (s : Surface) :
  keeps (good P Q F) (new_surface p s).
Proof. intros w w' a H Hgood. mstep. good_tac Hgood. Qed.

Lemma keeps_delete_surface (p : Z) : keeps (good P Q F) (delete_surface p).
Proof. intros w w' a H Hgood. mstep. good_tac Hgood. Qed.

Lemma keeps_undefined {A : Type} : keeps (good P Q F) (@undefined A).
Proof. intros w w' a H. discriminate. Qed.

Lemma keeps_index {A : Type} (i : nat) (l : list A) :
  keeps (good P Q F) (index i l).
Proof. intros w w' a H Hgood. by mstep. Qed.

Lemma keeps_image_at (i : nat) (imgs : list Image) :
  keeps (good P Q F) (image_at i imgs).
Proof. intros w w' a H Hgood. by mstep. Qed.

Lemma keeps_forget {A : Type} (m : M A) :
  keeps (good P Q F) m -> keeps (good P Q F) (forget m).
Proof.
  intros H. unfold forget. apply keeps_bind; [done |].
  intros a. apply keeps_ret.
Qed.

(** A sequence of binds, calls, checks and tests; [known] settles the
    computations that have a lemma of their own. *)
Ltac keeps_with known :=
  repeat first
    [ assumption
    | known
    | match goal with
      | |- keeps _ (ret _) => apply keeps_ret
      | |- keeps _ (call _) => apply keeps_call
      | |- keeps _ (get_surface _) => apply keeps_get_surface
      | |- keeps _ (get_swapchain _) => apply keeps_get_swapchain
      | |- keeps _ get_dispatch => apply keeps_get_dispatch
      | |- keeps _ (new_surface _ _) => apply keeps_new_surface
      | |- keeps _ (delete_surface _) => apply keeps_delete_surface
      | |- keeps _ undefined => apply keeps_undefined
      | |- keeps _ (index _ _) => apply keeps_index
      | |- keeps _ (image_at _ _) => apply keeps_image_at
      | |- keeps _ (check _ _) => apply keeps_check
      | |- keeps _ (when _ _) => apply keeps_when
      | |- keeps _ (forget _) => apply keeps_forget
      | |- keeps _ (if _ then _ else _) => apply keeps_if
      | |- keeps _ (match ?x with _ => _ end) => destruct x
      | |- keeps _ (bind ?m ?k) => apply (keeps_bind m k); [| intros ?]
      end ].

Ltac keeps_tac := keeps_with fail.

(** *** Creating a swapchain *)

Lemma create_allocated_good (device win : Z)
    (create_info : VkSwapchainCreateInfoKHR) (allocator : Allocator)
    (num_images swapchain_image_usage : Z) :
  keeps (good P Q F)
    (create_allocated device win create_info allocator num_images
       swapchain_image_usage).
Proof.
  unfold create_allocated, Swapchain_new. intros w w' [r out] H Hgood.
  pose proof Hclosed as (Hsame & Hclear & _ & _).
  msteps.
  - good_tac Hgood.
  - (* the loops have failed: the swapchain is gone *)
    match goal with
    | Hx : dequeue_all _ _ _ _ _ _ _ _ _ = Some _ |- _ =>
        apply dequeue_all_spec in Hx as (Hs1 & Hrest1)
    end.
    match goal with
    | Hx : for_images _ _ _ _ _ = Some _ |- _ =>
        apply (for_images_spec _ _ (cancel_one_spec device win _)) in Hx
          as (Hs2 & Hrest2)
    end.
    pose proof (same_heap_trans _ _ _ Hs1 Hs2) as (_ & Hsw & Hor & _).
    destruct Hgood as [Ho Hh]. split; simpl; rewrite ?Hor, ?Hsw; simpl;
      [exact Ho |].
    apply heap_ok_delete, heap_ok_insert; simpl;
      [done | | apply Q_nil].
    apply Forall_replicate, P_new.
  - (* success: the slots have all been cancelled *)
    match goal with
    | Hx : dequeue_all _ _ _ _ _ _ _ _ _ = Some _ |- _ =>
        apply dequeue_all_spec in Hx
          as (Hs1 & Hlen1 & Hframe1 & Hsucc & Hrest1)
    end.
    match goal with
    | Hx : for_images _ _ _ _ _ = Some _ |- _ =>
        apply (for_images_spec _ _ (cancel_one_spec device win _)) in Hx
          as (Hs2 & Hlen2 & Hrange & Hframe2 & can & Hcan & Hpaid & Hfree)
    end.
    pose proof (same_heap_trans _ _ _ Hs1 Hs2) as (_ & Hsw & Hor & _).
    destruct Hgood as [Ho Hh]. split; simpl; rewrite ?Hor, ?Hsw; simpl;
      [exact Ho |].
    bool_hyps.
    assert (v = VK_SUCCESS) as -> by (by destruct (decide (v = VK_SUCCESS))).
    repeat apply heap_ok_insert; simpl; try done;
      try apply Q_nil; try (apply Forall_replicate, P_new).
    apply Forall_lookup_2. intros j img' Hj.
    destruct (decide (j < 0 + Z.to_nat num_images)%nat) as [Hlt | Hge].
    + destruct (Hsucc eq_refl j ltac:(lia)) as (img & Himg & Hdq).
      destruct (Hpaid j img ltac:(lia) Himg)
        as (img2 & evs_j & Himg2 & (-> & _) & _).
      assert (img' = cancelled img) as -> by congruence.
      unfold cancelled. rewrite Hdq. by apply Hclear.
    + rewrite Hframe2, Hframe1 in Hj by lia.
      apply lookup_replicate in Hj as [-> _]. apply P_new.
Qed.

Lemma swapchain_gralloc_usage_good (device : Z)
    (create_info : VkSwapchainCreateInfoKHR) (swapchain_image_usage : Z) :
  keeps (good P Q F)
    (swapchain_gralloc_usage device create_info swapchain_image_usage).
Proof. unfold swapchain_gralloc_usage. keeps_tac. Qed.

Lemma create_after_orphan_good (device : Z)
    (create_info : VkSwapchainCreateInfoKHR) (allocator : Z) :
  keeps (good P Q F) (create_after_orphan device create_info allocator).
Proof.
  unfold create_after_orphan. cbv zeta.
  keeps_with ltac:(first [ apply create_allocated_good
                         | apply swapchain_gralloc_usage_good ]).
Qed.

Lemma CreateSwapchainKHR_good (device : Z)
    (create_info : VkSwapchainCreateInfoKHR) (allocator : Z) :
  keeps (good P Q F) (CreateSwapchainKHR device create_info allocator).
Proof.
  unfold CreateSwapchainKHR, create_orphan_step.
  assert (keeps (good P Q F)
            (OrphanSwapchain device (ci_oldSwapchain create_info))) as Ho.
  { intros w w' u. apply OrphanSwapchain_good. }
  pose proof (create_after_orphan_good device create_info allocator).
  keeps_tac.
Qed.
(** *** Presenting *)

Lemma release_slot_good (device win release_fence handle : Z)
    (image_idx : nat) :
  keeps (good P Q F) (release_slot device win release_fence handle image_idx).
Proof.
  unfold release_slot. intros w w' u H Hgood. msteps.
  match goal with
  | Hx : ReleaseSwapchainImage _ _ _ _ _ = Some _ |- _ =>
      apply ReleaseSwapchainImage_good in Hx as [Hs HP]
  end.
  destruct (proj2 Hgood _ _ Hrun) as [Himgs Htm].
  apply (good_same_heap _ _ Hs) in Hgood.
  good_tac Hgood; [| done].
  apply Forall_insert; [done |]. apply HP. by eapply Forall_lookup_1.
Qed.

Lemma present_queue_good (win : Z) (present_info : VkPresentInfoKHR)
    (sc_idx : nat) (handle : Z) (image_idx : nat) (fence : Z)
    (allocator : Allocator) (swapchain_result : VkResult)
    (rects nrects : Z) :
  keeps (good P Q F)
    (present_queue win present_info sc_idx handle image_idx fence allocator
       swapchain_result rects nrects).
Proof.
  unfold present_queue. intros w w' r H Hgood.
  pose proof Hclosed as (Hsame & Hclear & _ & Hpres).
  apply run_bind in H as (scratch & w1 & Hregion & H).
  assert (good P Q F w1) as Hgood1.
  { clear H. msteps; [| done].
    match goal with
    | Hx : present_region _ _ _ _ _ _ = Some _ |- _ =>
        apply present_region_same in Hx as [Hs _]
    end.
    by eapply good_same_heap. }
  clear Hregion Hgood.
  apply run_bind in H as (sc & w2 & Hsc & H).
  apply run_get_swapchain in Hsc as [Hsc ->].
  destruct (proj2 Hgood1 _ _ Hsc) as [Himgs Htm].
  apply run_bind in H as (sc' & w3 & Htime & H).
  assert (good P Q F w3 /\ images sc' = images sc /\ Q (timing sc'))
    as (Hgood3 & Himgs' & Htm').
  { clear H. msteps; [| done].
    match goal with
    | Hx : present_time _ _ _ _ = Some _ |- _ =>
        apply present_time_spec in Hx as (Hs & Hi & Ht & _)
    end.
    split; [by eapply good_same_heap |]. split; [done |].
    rewrite Ht. destruct Htiming as (_ & Henroll & _). by apply Henroll. }
  clear Htime Hgood1. rewrite Himgs' in H.
  msteps; good_tac Hgood3; try done.
  all: apply Forall_insert; [done |].
  - by apply Hclear.
  - bool_hyps. eapply (Hpres a); [by eapply Forall_lookup_1 | lia | done..].
Qed.

Lemma present_one_good (queue device : Z) (present_info : VkPresentInfoKHR)
    (sc_idx : nat) (rects nrects : Z) :
  keeps (good P Q F) (present_one queue device present_info sc_idx rects nrects).
Proof.
  unfold present_one. cbv zeta.
  assert (forall handle, keeps (good P Q F) (OrphanSwapchain device handle))
    as Ho by (intros handle w w' u; apply OrphanSwapchain_good).
  keeps_with ltac:(first [ apply Ho | apply release_slot_good
                         | apply present_queue_good ]).
Qed.

Lemma present_loop_good (queue device : Z) (present_info : VkPresentInfoKHR)
    (n : nat) :
  forall (sc_idx : nat) (rects nrects : Z) (final_result : VkResult)
         (results : list VkResult),
    keeps (good P Q F)
      (present_loop n sc_idx queue device present_info rects nrects
         final_result results).
Proof.
  induction n as [| n IH]; intros sc_idx rects nrects final_result results;
    simpl.
  - apply keeps_ret.
  - apply keeps_bind; [apply present_one_good |]. intros [r scratch].
    apply IH.
Qed.

Lemma QueuePresentKHR_good (queue device : Z)
    (present_info : VkPresentInfoKHR) :
  keeps (good P Q F) (QueuePresentKHR queue device present_info).
Proof.
  unfold QueuePresentKHR.
  apply keeps_bind; [apply present_loop_good |].
  intros [[r results] rects]. keeps_tac.
Qed.

(** *** Display timing *)

Lemma get_num_ready_timings_good (handle : Z) :
  keeps (good P Q F) (get_num_ready_timings handle).
Proof.
  unfold get_num_ready_timings. intros w w' r H Hgood. msteps.
  match goal with
  | Hx : ready_loop _ _ _ _ _ _ _ _ = Some _ |- _ =>
      apply ready_loop_spec in Hx as [Hs Hkeys]
  end.
  destruct (proj2 Hgood _ _ Hrun) as [Himgs Htm].
  apply (good_same_heap _ _ Hs) in Hgood.
  good_tac Hgood; [done |].
  destruct Htiming as (_ & _ & _ & Hkeys'). by eapply Hkeys'.
Qed.

Lemma GetPastPresentationTimingGOOGLE_good (handle count : Z)
    (timings : option (list VkPastPresentationTimingGOOGLE)) :
  keeps (good P Q F) (GetPastPresentationTimingGOOGLE handle count timings).
Proof.
  unfold GetPastPresentationTimingGOOGLE. intros w w' r H Hgood.
  apply run_bind in H as (sc & w1 & Hsc & H).
  apply run_get_swapchain in Hsc as [Hsc ->].
  destruct (proj2 Hgood _ _ Hsc) as [Himgs Htm].
  apply run_bind in H as (surf & w1 & Hsurf & H).
  apply run_get_surface in Hsurf as [Hsurf ->].
  apply run_bind in H as (sc' & w2 & Henable & H).
  assert (good P Q F w2 /\ images sc' = images sc /\ timing sc' = timing sc)
    as (Hgood2 & Himgs' & Htm').
  { clear H. msteps; [| done]. split; [| done]. good_tac Hgood; done. }
  clear Henable. destruct timings as [out |].
  - destruct (copy_ready_timings (timing sc') count out)
      as [[[tm out'] count'] |] eqn:Hcopy; [| discriminate].
    destruct Htiming as (_ & _ & Hcopy' & _).
    apply Hcopy' in Hcopy; [| by rewrite Htm'].
    msteps. good_tac Hgood2; [by rewrite Himgs' | done].
  - msteps. by eapply get_num_ready_timings_good.
Qed.

(** *** Every entry point *)

Lemma enter_good (e : EntryPoint) : keeps (good P Q F) (enter e).
Proof.
  destruct e; simpl.
  - unfold CreateAndroidSurfaceKHR. cbv zeta. keeps_tac.
  - unfold DestroySurfaceKHR. cbv zeta. keeps_tac.
  - unfold GetPhysicalDeviceSurfaceCapabilitiesKHR. cbv zeta. keeps_tac.
  - apply keeps_forget, CreateSwapchainKHR_good.
  - intros w w' u H. apply run_bind in H as (ending & w1 & Hrun & H).
    destruct ending; [| discriminate H].
    apply run_ret in H as [_ ->]. by eapply DestroySwapchainKHR_good.
  - unfold GetSwapchainImagesKHR. keeps_tac.
  - apply keeps_forget. intros w w' r. apply AcquireNextImageKHR_good.
  - apply keeps_forget, QueuePresentKHR_good.
  - unfold GetRefreshCycleDurationGOOGLE. keeps_tac.
  - apply keeps_forget, GetPastPresentationTimingGOOGLE_good.
  - unfold GetSwapchainStatusKHR. keeps_tac.
Qed.
End Good.

(** Any number of entry points keep what each of them keeps. *)
Lemma enter_all_good (P : Image -> Prop) (Q : list TimingInfo -> Prop)
    (F : Z -> Prop) (es : list EntryPoint) :
  slot_closed P F -> timing_closed Q -> keeps (good P Q F) (enter_all es).
Proof.
  intros Hclosed Htiming. induction es as [| e es IH]; simpl.
  - apply keeps_ret.
  - apply keeps_bind; [by apply enter_good | intros _; exact IH].
Qed.

(** ** The invariants at the entry points *)

(** *** What the two invariants ask of the code *)

Lemma slot_closed_slot_ok : slot_closed slot_ok (fun _ => True).
Proof.
  unfold slot_closed, slot_ok. repeat split.
  - intros img img' -> ->. auto.
  - intros img -> _. lia.
  - auto.
  - intros img img' _ Hneg -> _. lia.
Qed.

Lemma slot_closed_slot_tight : slot_closed slot_tight (fun f => -1 <= f).
Proof.
  unfold slot_closed, slot_tight. split; [| split; [| split]].
  - intros img img' -> ->. auto.
  - intros img -> _. split; [lia | by left].
  - intros img Hf Hd. split; [done | by right].
  - intros img img' [Hlow _] Hneg -> _. split; [done | left; lia].
Qed.


Lemma timing_closed_True : timing_closed (fun _ => True).
Proof. unfold timing_closed. auto. Qed.


(** The invariants of the worlds are instances of [good]. *)
Lemma slot_inv_good (w : World) :
  slot_inv w <-> good slot_ok (fun _ => True) (fun _ => True) w.
Proof.
  unfold slot_inv, good, heap_ok. split.
  - intros H. split; [done |]. intros handle sc Hsc. split; [eauto | done].
  - intros [_ H] handle sc Hsc. by destruct (H handle sc Hsc).
Qed.

Lemma slot_tight_inv_good (w : World) :
  fences_are_descriptors w /\ slot_tight_inv w <->
  good slot_tight (fun _ => True) (fun f => -1 <= f) w.
Proof.
  unfold slot_tight_inv, fences_are_descriptors, good, heap_ok. split.
  - intros [Hf H]. split; [done |]. intros handle sc Hsc. split; [eauto | done].
  - intros [Hf H]. split; [done |].
    intros handle sc Hsc. by destruct (H handle sc Hsc).
Qed.


(** A world without swapchains has every invariant. *)
Lemma good_no_swapchains (P : Image -> Prop) (Q : list TimingInfo -> Prop)
    (w : World) :
  swapchains w = ∅ -> heap_ok P Q (swapchains w).
Proof. intros -> handle sc Hsc. by rewrite lookup_empty in Hsc. Qed.

Lemma friendly_oracle_fences (t : Trace) (c : Call) :
  -1 <= a_fence (friendly_oracle t c).
Proof.
  unfold friendly_oracle, dequeues.
  destruct c; simpl; try lia.
  match goal with |- context [match ?q with _ => _ end] => destruct q end;
    simpl; lia.
Qed.

(** *** The slot invariant *)

(** C8.  After any number of entry points from a world without
    swapchains, every slot of every live swapchain whose dequeue fence is a
    descriptor ([dequeue_fence >= 0]) is dequeued; each entry point keeps
    this from its entry to its return.  With a window and a driver that
    hand out descriptors or -1 as fences, the sharper form holds as well:
    every slot has [dequeue_fence = -1] or [dequeued = true].  The
    operations on one slot that give the fence away or drop it keep both
    forms: [ReleaseSwapchainImage], the cancellation loop of
    [CreateSwapchainKHR] ([cancel_one]), and one turn of the loop of
    [QueuePresentKHR] ([present_one]) as a whole. *)
Theorem dequeue_fence_implies_dequeued :
  (forall (es : list EntryPoint) (w w' : World) (u : unit),
     swapchains w = ∅ -> enter_all es w = Some (u, w') ->
     slot_inv w' /\ (fences_are_descriptors w -> slot_tight_inv w')) /\
  (forall (e : EntryPoint) (w w' : World) (u : unit),
     enter e w = Some (u, w') ->
     (slot_inv w -> slot_inv w') /\
     (fences_are_descriptors w -> slot_tight_inv w -> slot_tight_inv w')) /\
  (forall device win release_fence img img' w w',
     ReleaseSwapchainImage device win release_fence img w = Some (img', w') ->
     (slot_ok img -> slot_ok img') /\ (slot_tight img -> slot_tight img')) /\
  (forall device win result img img' w w',
     cancel_one device win result img w = Some (img', w') ->
     (slot_ok img -> slot_ok img') /\ (slot_tight img -> slot_tight img')) /\
  (forall queue device present_info sc_idx rects nrects r w w',
     present_one queue device present_info sc_idx rects nrects w =
       Some (r, w') ->
     (slot_inv w -> slot_inv w') /\
     (fences_are_descriptors w -> slot_tight_inv w -> slot_tight_inv w')).
Proof.
  split; [| split; [| split; [| split]]].
  - intros es w w' u Hempty H. split.
    + apply slot_inv_good.
      apply (enter_all_good _ _ _ es slot_closed_slot_ok timing_closed_True
               _ _ _ H).
      split; [done | by apply good_no_swapchains].
    + intros Hf. apply (slot_tight_inv_good w').
      apply (enter_all_good _ _ _ es slot_closed_slot_tight timing_closed_True
               _ _ _ H).
      split; [exact Hf | by apply good_no_swapchains].
  - intros e w w' u H. split.
    + rewrite !slot_inv_good.
      exact (enter_good _ _ _ slot_closed_slot_ok timing_closed_True e _ _ _ H).
    + intros Hf Ht.
      apply (slot_tight_inv_good w').
      apply (enter_good _ _ _ slot_closed_slot_tight timing_closed_True
               e _ _ _ H).
      by apply slot_tight_inv_good.
  - intros device win release_fence img img' w w' H.
    apply ReleaseSwapchainImage_spec in H as (-> & _).
    unfold slot_ok, slot_tight, released. simpl.
    destruct (dequeued img); [| done].
    split; intros _; [lia | split; [lia | by left]].
  - intros device win result img img' w w' H.
    apply cancel_one_spec in H as (_ & evs & _ & -> & _).
    unfold slot_ok, slot_tight, cancelled.
    destruct (dequeued img) eqn:Hd; simpl; [| by rewrite Hd].
    split; intros; [lia | split; [lia | by left]].
  - intros queue device present_info sc_idx rects nrects r w w' H. split.
    + rewrite !slot_inv_good.
      exact (present_one_good _ _ _ slot_closed_slot_ok timing_closed_True
               _ _ _ _ _ _ _ _ _ H).
    + intros Hf Ht.
      apply (slot_tight_inv_good w').
      apply (present_one_good _ _ _ slot_closed_slot_tight timing_closed_True
               _ _ _ _ _ _ _ _ _ H).
      by apply slot_tight_inv_good.
Qed.

Lemma dequeue_fence_implies_dequeued_witness :
  enter_all [vkCreateSwapchainKHR 1 sample_create_info 0;
             vkAcquireNextImageKHR 1 4096 (-1) 0 0] friendly_world =
    Some (tt, acquired_world) /\
  map (fun img => (dequeue_fence img, dequeued img))
      (take 2 (images (swapchain_at 4096 acquired_world))) =
    [(32, true); (-1, false)] /\
  slot_inv acquired_world /\ slot_tight_inv acquired_world.
Proof.
  assert (enter_all [vkCreateSwapchainKHR 1 sample_create_info 0;
                     vkAcquireNextImageKHR 1 4096 (-1) 0 0] friendly_world =
            Some (tt, acquired_world)) as Hrun
    by (vm_compute; reflexivity).
  destruct (proj1 dequeue_fence_implies_dequeued _ friendly_world _ _
              eq_refl Hrun) as [Hok Htight].
  split; [exact Hrun |]. split; [vm_compute; reflexivity |].
  split; [exact Hok | exact (Htight friendly_oracle_fences)].
Defined.

(** *** The timing store *)



(** ** Swapchains that have been replaced, windows that fail *)

(** Running a [bind] forwards. *)
Lemma bind_run {A B : Type} (m : M A) (k : A -> M B) (w w1 : World) (a : A) :
  m w = Some (a, w1) -> bind m k w = k a w1.
Proof. unfold bind. by intros ->. Qed.

(** A run that gives a value leaves the world [after] names. *)
Lemma after_run {A : Type} (m : M A) (w : World) (a : A) :
  fst <$> m w = Some a -> m w = Some (a, after m w).
Proof.
  unfold after. destruct (m w) as [[a' w'] |]; simpl; [| discriminate].
  by intros [= ->].
Qed.

Lemma release_slot_run (device win release_fence handle : Z)
    (image_idx : nat) (w : World) (sc : Swapchain) (img : Image) :
  swapchains w !! handle = Some sc ->
  images sc !! image_idx = Some img ->
  exists w1 evs,
    ReleaseSwapchainImage device win release_fence img w =
      Some (released img, w1) /\
    same_heap w w1 /\ extends w w1 evs /\
    (win = 0 -> Forall (fun e => window_of e.1 = None) evs) /\
    release_slot device win release_fence handle image_idx w =
      Some (tt, with_swapchains
                  (<[handle := with_images
                                 (<[image_idx := released img]> (images sc))
                                 sc]> (swapchains w)) w1).
Proof.
  intros Hsc Himg.
  destruct (ReleaseSwapchainImage_total device win release_fence img w)
    as [[img' w1] Hrel].
  destruct (ReleaseSwapchainImage_spec _ _ _ _ _ _ _ Hrel)
    as (-> & Hheap & evs & Hext & _ & Hwin).
  exists w1, evs. repeat (split; [done |]).
  unfold release_slot.
  rewrite (bind_run _ _ w w sc)
    by (by apply run_get_swapchain).
  unfold image_at. rewrite Himg.
  rewrite (bind_run _ _ w w img) by done.
  rewrite (bind_run _ _ _ _ _ Hrel).
  destruct Hheap as (_ & Hsw & _).
  unfold put_swapchain. by rewrite Hsw, Hsc.
Qed.

(** One merge of the loop of [QueuePresentKHR]: the result of a swapchain
    into the result so far.  Results outside the ranking count like
    [VK_SUCCESS] here. *)
Lemma merge_step (final s : VkResult) :
  let merged :=
    if bool_decide (s <> final) then WorstPresentResult final s else final in
  (merged = VK_SUCCESS <-> final = VK_SUCCESS /\ s = VK_SUCCESS) /\
  (merged = final \/ merged = s) /\
  (default 0 (present_rank final) <= default 0 (present_rank merged))%nat /\
  (default 0 (present_rank s) <= default 0 (present_rank merged))%nat.
Proof.
  cbv zeta.
  destruct (decide (s = final)) as [-> | Hne].
  - rewrite bool_decide_eq_false_2 by (intros Hx; by apply Hx).
    split; [split; [done | by intros [? _]] |]. split; [by left |]. done.
  - rewrite bool_decide_eq_true_2 by done.
    destruct final, s; try done; vm_compute.
    all: split; [split; [try discriminate; done | intros [? ?]; discriminate] |].
    all: split; [(by left) || (by right) |].
    all: split; lia.
Qed.

(** A run of the loop of [QueuePresentKHR] is a chain of turns, and what
    the loop makes of their results. *)
Lemma present_loop_turns (queue device : Z) (present_info : VkPresentInfoKHR)
    (n : nat) :
  forall (sc_idx : nat) (rects nrects : Z) (final : VkResult)
         (results : list VkResult) (w w' : World) (r : VkResult)
         (out : list VkResult) (rects' : Z),
    present_loop n sc_idx queue device present_info rects nrects final results
      w = Some ((r, out, rects'), w') ->
    exists new : list VkResult,
      out = results ++ new /\ length new = n /\
      present_turns queue device present_info sc_idx rects nrects w new
        rects' w' /\
      (r = VK_SUCCESS <->
       final = VK_SUCCESS /\ Forall (fun x => x = VK_SUCCESS) new) /\
      (r = final \/ In r new) /\
      (default 0 (present_rank final) <= default 0 (present_rank r))%nat /\
      Forall (fun x => (default 0 (present_rank x) <=
                        default 0 (present_rank r))%nat) new.
Proof.
  induction n as [| n IH]; intros sc_idx rects nrects final results w w' r out
    rects' H; simpl in H.
  - apply run_ret in H as [[= Hr Ho Hrects] Hw]. subst r out rects' w'.
    exists []. rewrite app_nil_r.
    split; [done |]. split; [done |]. split; [done |].
    split; [split; [by intros -> | by intros [-> _]] |].
    split; [by left |]. split; [done | constructor].
  - apply run_bind in H as ([s scratch] & w1 & Hone & H).
    apply IH in H
      as (new & -> & Hlen & Hturns & Hok & Hin & Hfinal & Hall).
    destruct (merge_step final s) as (Hmok & Hmin & Hmf & Hms).
    exists (s :: new).
    split; [by rewrite <- app_assoc |].
    split; [simpl; by rewrite Hlen |].
    split; [simpl; eauto |].
    split.
    { rewrite Hok, Hmok, Forall_cons. tauto. }
    split.
    { destruct Hin as [-> | Hin]; [| right; by right].
      destruct Hmin as [-> | ->]; [by left | right; by left]. }
    split; [lia |].
    constructor; [lia | done].
Qed.

(** [ReleaseSwapchainImage] without window on a dequeued slot, with a
    release fence that is a descriptor: the dequeue fence is closed if it is
    one, the release fence is waited for and closed, and the image is
    destroyed if there is one. *)
Lemma ReleaseSwapchainImage_waits (device release_fence : Z)
    (img img' : Image) (w w' : World) (evs : Trace) :
  ReleaseSwapchainImage device 0 release_fence img w = Some (img', w') ->
  extends w w' evs ->
  dequeued img = true -> 0 <= release_fence ->
  map fst evs =
    (if dequeue_fence img >=? 0 then [close (dequeue_fence img)] else []) ++
    [sync_wait release_fence; close release_fence] ++
    (if image img =? 0 then [] else [DestroyImage device (image img)]).
Proof.
  unfold ReleaseSwapchainImage, extends. intros H Hext Hd Hfence.
  rewrite Hd in H. apply Z.geb_le in Hfence. rewrite Hfence in H.
  change (negb (0 =? 0)) with false in H. cbv iota in H.
  msteps.
  all: simpl in *; rewrite <- ?app_assoc in Hext.
  all: apply app_inv_head in Hext; subst evs.
  all: bool_hyps.
  all: repeat match goal with
       | |- context [if ?b then _ else _] => destruct b eqn:?
       end.
  all: bool_hyps; try reflexivity; lia.
Qed.

(** C5.  A swapchain that is not the one its surface holds.
    [AcquireNextImageKHR] returns [VK_ERROR_OUT_OF_DATE_KHR] and leaves the
    world as it is: no call is made, so no buffer is dequeued.  A turn of
    the loop of [QueuePresentKHR] for this swapchain asks the driver for the
    release fence and runs [ReleaseSwapchainImage] on the slot with no
    window and that fence; the world it leaves is the world that release
    has left, with the released slot stored, and the result of the
    swapchain is [VK_ERROR_OUT_OF_DATE_KHR] (which the loop appends to the
    results).  None of the calls is a call on a window, so no [queueBuffer]
    is among them; for a dequeued slot and a release fence that is a
    descriptor they are: the release signal, the close of the dequeue
    fence, the wait for the release fence and its close, and the
    destruction of the image.  [QueuePresentKHR] with this swapchain as its
    first does not return [VK_SUCCESS] and has
    [VK_ERROR_OUT_OF_DATE_KHR] as the first of its results; with this
    swapchain alone it returns [VK_ERROR_OUT_OF_DATE_KHR] and leaves what
    the turn has left. *)
Theorem replaced_swapchain_out_of_date
    (w : World) (handle : Z) (sc : Swapchain) (surf : Surface) :
  swapchains w !! handle = Some sc ->
  surfaces w !! surface sc = Some surf ->
  swapchain_handle surf <> handle ->
  (forall device timeout semaphore vk_fence,
     AcquireNextImageKHR device handle timeout semaphore vk_fence w =
       Some ((VK_ERROR_OUT_OF_DATE_KHR, None), w)) /\
  (forall queue device present_info sc_idx rects nrects image_idx img,
     pSwapchains present_info !! sc_idx = Some handle ->
     pImageIndices present_info !! sc_idx = Some image_idx ->
     images sc !! Z.to_nat image_idx = Some img ->
     let release :=
       QueueSignalReleaseImageANDROID queue (pWaitSemaphores present_info)
         (image img) in
     let a := oracle w (trace w) release in
     exists (w2 w' : World) (evs : Trace),
       ReleaseSwapchainImage device 0 (a_fence a) img
         (with_trace (trace w ++ [(release, a)]) w) =
         Some (released img, w2) /\
       w' = with_swapchains
              (<[handle := with_images
                             (<[Z.to_nat image_idx := released img]>
                                (images sc)) sc]> (swapchains w)) w2 /\
       present_one queue device present_info sc_idx rects nrects w =
         Some ((VK_ERROR_OUT_OF_DATE_KHR, (rects, nrects)), w') /\
       surfaces w' = surfaces w /\
       trace w' = trace w ++ (release, a) :: evs /\
       Forall (fun e => window_of e.1 = None) evs /\
       (forall win buf fence a',
          ~ In (queueBuffer win buf fence, a') ((release, a) :: evs)) /\
       (dequeued img = true -> 0 <= a_fence a ->
        map fst evs =
          (if dequeue_fence img >=? 0 then [close (dequeue_fence img)]
           else []) ++
          [sync_wait (a_fence a); close (a_fence a)] ++
          (if image img =? 0 then []
           else [DestroyImage device (image img)])) /\
       (forall final_result results n,
          present_loop (S n) sc_idx queue device present_info rects nrects
            final_result results w =
          present_loop n (S sc_idx) queue device present_info rects nrects
            (if bool_decide (VK_ERROR_OUT_OF_DATE_KHR <> final_result)
             then WorstPresentResult final_result VK_ERROR_OUT_OF_DATE_KHR
             else final_result)
            (results ++ [VK_ERROR_OUT_OF_DATE_KHR]) w') /\
       (sc_idx = 0%nat -> rects = 0 -> nrects = 0 ->
        (forall r out w'',
           0 < swapchainCount present_info ->
           QueuePresentKHR queue device present_info w =
             Some ((r, out), w'') ->
           r <> VK_SUCCESS /\
           (has_pResults present_info = true ->
            exists rest, out = Some (VK_ERROR_OUT_OF_DATE_KHR :: rest))) /\
        (swapchainCount present_info = 1 ->
         QueuePresentKHR queue device present_info w =
           Some ((VK_ERROR_OUT_OF_DATE_KHR,
                  if has_pResults present_info
                  then Some [VK_ERROR_OUT_OF_DATE_KHR] else None), w')))).
Proof.
  intros Hsc Hsurf Hstale.
  assert ((swapchain_handle surf =? handle) = false) as Hne
    by by apply Z.eqb_neq.
  split.
  - intros device timeout semaphore vk_fence. unfold AcquireNextImageKHR.
    rewrite (bind_run _ _ w w sc) by by apply run_get_swapchain.
    rewrite (bind_run _ _ w w surf) by by apply run_get_surface.
    by rewrite Hne.
  - intros queue device present_info sc_idx rects nrects image_idx img
      Hhandle Hidx Himg c a.
    set (w1 := with_trace (trace w ++ [(c, a)]) w).
    destruct (release_slot_run device 0 (a_fence a) handle
                (Z.to_nat image_idx) w1 sc img Hsc Himg)
      as (w2 & evs & Hrel & Hheap & Hext & Hwin & Hslot).
    specialize (Hwin eq_refl).
    set (w' := with_swapchains
                 (<[handle := with_images
                                (<[Z.to_nat image_idx := released img]>
                                   (images sc)) sc]> (swapchains w)) w2).
    assert (present_one queue device present_info sc_idx rects nrects w =
              Some ((VK_ERROR_OUT_OF_DATE_KHR, (rects, nrects)), w'))
      as Hone.
    { unfold present_one. cbv zeta. unfold index. rewrite Hhandle, Hidx.
      rewrite (bind_run _ _ w w handle) by done.
      rewrite (bind_run _ _ w w image_idx) by done.
      rewrite (bind_run _ _ w w sc) by by apply run_get_swapchain.
      unfold image_at. rewrite Himg.
      rewrite (bind_run _ _ w w img) by done.
      rewrite (bind_run _ _ w w1 a) by done.
      rewrite (bind_run _ _ w1 w1 surf) by by apply run_get_surface.
      rewrite Hne.
      by rewrite (bind_run _ _ _ _ _ Hslot). }
    assert (forall final_result results n,
              present_loop (S n) sc_idx queue device present_info rects nrects
                final_result results w =
              present_loop n (S sc_idx) queue device present_info rects nrects
                (if bool_decide (VK_ERROR_OUT_OF_DATE_KHR <> final_result)
                 then WorstPresentResult final_result VK_ERROR_OUT_OF_DATE_KHR
                 else final_result)
                (results ++ [VK_ERROR_OUT_OF_DATE_KHR]) w') as Hloop.
    { intros final_result results n. simpl.
      by rewrite (bind_run _ _ _ _ _ Hone). }
    exists w2, w', evs.
    split; [exact Hrel |]. split; [reflexivity |]. split; [exact Hone |].
    destruct Hheap as (Hsf & _). unfold extends in Hext.
    split; [done |].
    split; [simpl; rewrite Hext; simpl; by rewrite <- app_assoc |].
    split; [exact Hwin |].
    split.
    { assert (Forall (fun e => window_of e.1 = None) ((c, a) :: evs)) as Hall
        by by constructor.
      intros win buf fence a' Hin.
      rewrite Forall_forall in Hall. apply list_elem_of_In in Hin.
      by specialize (Hall _ Hin). }
    split.
    { intros Hd Hfence.
      by apply (ReleaseSwapchainImage_waits _ _ _ _ _ _ _ Hrel Hext). }
    split; [exact Hloop |].
    intros -> -> ->. split.
    + intros r out w'' Hcount H. unfold QueuePresentKHR in H.
      apply run_bind in H as ([[final results] rects] & w3 & Hrun & H).
      apply run_bind in H as ([] & w4 & _ & H).
      apply run_ret in H as [[= Hr Ho] _]. subst r out.
      destruct (Z.to_nat (swapchainCount present_info)) as [| n] eqn:Hn;
        [lia |].
      rewrite Hloop in Hrun. simpl in Hrun.
      apply present_loop_turns in Hrun as (new & -> & _ & _ & Hok & _).
      split.
      * intros Hx. apply Hok in Hx as [Hx _]. discriminate Hx.
      * intros ->. by eexists.
    + intros Hcount. unfold QueuePresentKHR. rewrite Hcount.
      change (Z.to_nat 1) with 1%nat. unfold bind at 1. rewrite Hloop.
      reflexivity.
Qed.

Lemma replaced_swapchain_out_of_date_witness :
  AcquireNextImageKHR 1 4096 (-1) 0 0 replaced_world =
    Some ((VK_ERROR_OUT_OF_DATE_KHR, None), replaced_world) /\
  exists (w' : World) (evs : Trace),
    QueuePresentKHR 2 1 late_present_info replaced_world =
      Some ((VK_ERROR_OUT_OF_DATE_KHR, Some [VK_ERROR_OUT_OF_DATE_KHR]), w') /\
    trace w' =
      trace replaced_world ++
        (QueueSignalReleaseImageANDROID 2 [] 901,
         oracle replaced_world (trace replaced_world)
           (QueueSignalReleaseImageANDROID 2 [] 901)) :: evs /\
    map fst evs = [close 33; sync_wait 40; close 40; DestroyImage 1 901].
Proof.
  assert (swapchains replaced_world !! 4096 =
            Some (swapchain_at 4096 replaced_world)) as Hsc
    by (vm_compute; reflexivity).
  assert (surfaces replaced_world !! surface (swapchain_at 4096 replaced_world) =
            Some (surface_at 100 replaced_world)) as Hsurf
    by (vm_compute; reflexivity).
  assert (swapchain_handle (surface_at 100 replaced_world) <> 4096) as Hstale
    by (vm_compute; discriminate).
  destruct (replaced_swapchain_out_of_date replaced_world 4096 _ _
              Hsc Hsurf Hstale) as [Hacquire Hpresent].
  split; [apply Hacquire |].
  destruct (Hpresent 2 1 late_present_info 0%nat 0 0 1
              {| image := 901; buffer := 501;
                 dequeue_fence := 33; dequeued := true |})
    as (w2 & w' & evs & _ & _ & _ & _ & Htrace & _ & _ & Hcalls & _ & Hqueue);
    [reflexivity | reflexivity | vm_compute; reflexivity |].
  destruct (Hqueue eq_refl eq_refl eq_refl) as [_ Hrun].
  exists w', evs.
  split; [exact (Hrun eq_refl) |].
  split; [exact Htrace |].
  assert (a_fence (oracle replaced_world (trace replaced_world)
                     (QueueSignalReleaseImageANDROID 2 [] 901)) = 40)
    as Hfence by (vm_compute; reflexivity).
  cbn [pWaitSemaphores late_present_info image] in Hcalls.
  rewrite Hfence in Hcalls.
  exact (Hcalls eq_refl ltac:(lia)).
Defined.

(** C10.  [AcquireNextImageKHR] on a swapchain that its surface holds,
    when [dequeueBuffer] fails: the result is
    [VK_ERROR_INITIALIZATION_FAILED], the failed call is the only thing the
    world has learnt, and the swapchains, so every slot with its flag and
    its fence, and the surfaces are what they were. *)
Theorem AcquireNextImageKHR_dequeue_failure
    (device handle timeout semaphore vk_fence : Z)
    (w : World) (sc : Swapchain) (surf : Surface) :
  swapchains w !! handle = Some sc ->
  surfaces w !! surface sc = Some surf ->
  swapchain_handle surf = handle ->
  a_err (oracle w (trace w) (dequeueBuffer (window surf))) <> 0 ->
  exists w' : World,
    AcquireNextImageKHR device handle timeout semaphore vk_fence w =
      Some ((VK_ERROR_INITIALIZATION_FAILED, None), w') /\
    swapchains w' = swapchains w /\
    surfaces w' = surfaces w /\
    trace w' =
      trace w ++ [(dequeueBuffer (window surf),
                   oracle w (trace w) (dequeueBuffer (window surf)))].
Proof.
  intros Hsc Hsurf Hactive Herr.
  eexists. split; [| split; [| split]].
  - unfold AcquireNextImageKHR.
    rewrite (bind_run _ _ w w sc) by by apply run_get_swapchain.
    rewrite (bind_run _ _ w w surf) by by apply run_get_surface.
    apply Z.eqb_eq in Hactive as ->. cbv zeta.
    change (negb true) with false. cbv iota.
    rewrite (bind_run _ _ w _ _ eq_refl).
    apply Z.eqb_neq in Herr as ->. reflexivity.
  - reflexivity.
  - reflexivity.
  - reflexivity.
Qed.

Lemma AcquireNextImageKHR_dequeue_failure_witness :
  exists w' : World,
    AcquireNextImageKHR 1 4096 (-1) 0 0 flaky_world =
      Some ((VK_ERROR_INITIALIZATION_FAILED, None), w') /\
    swapchains w' = swapchains flaky_world /\
    surfaces w' = surfaces flaky_world /\
    trace w' =
      trace flaky_world ++
        [(dequeueBuffer 7, with_a_err (-19) sample_answer)].
Proof.
  apply (AcquireNextImageKHR_dequeue_failure 1 4096 (-1) 0 0 flaky_world
           (swapchain_at 4096 flaky_world) (surface_at 100 flaky_world)).
  - vm_compute. reflexivity.
  - vm_compute. reflexivity.
  - vm_compute. reflexivity.
  - vm_compute. discriminate.
Defined.

(** The loop of [DestroySwapchainKHR] over the slots makes calls only. *)
Lemma release_loop_same_heap (device win release_fence : Z) (n i : nat)
    (imgs imgs' : list Image) (w w' : World) :
  for_images n i (ReleaseSwapchainImage device win release_fence) imgs w =
    Some (imgs', w') ->
  same_heap w w' /\ exists evs, extends w w' evs.
Proof.
  intros H.
  apply (for_images_spec _ (fun _ _ _ => True)) in H
    as (Hheap & _ & _ & _ & evs & Hext & _); [eauto |].
  intros img img' wa wb Hrel.
  apply ReleaseSwapchainImage_spec in Hrel as (_ & Hheap & evs & Hext & _).
  eauto.
Qed.

(** [DestroySwapchainKHR] on a live swapchain with frame timestamps
    enabled that its surface holds: it returns, the swapchain is gone, and
    its first call is [native_window_enable_frame_timestamps] on the window
    of the surface. *)
Lemma DestroySwapchainKHR_run
    (device handle allocator : Z) (w : World) (sc : Swapchain)
    (surf : Surface) :
  handle <> 0 ->
  swapchains w !! handle = Some sc ->
  surfaces w !! surface sc = Some surf ->
  swapchain_handle surf = handle ->
  frame_timestamps_enabled sc = true ->
  (Z.to_nat (num_images sc) <= length (images sc))%nat ->
  exists (w' : World) (evs : Trace),
    DestroySwapchainKHR device handle allocator w = Some (returned, w') /\
    swapchains w' !! handle = None /\
    trace w' =
      trace w ++
        (native_window_enable_frame_timestamps (window surf) false,
         oracle w (trace w)
           (native_window_enable_frame_timestamps (window surf) false))
        :: evs.
Proof.
  intros Hhandle Hsc Hsurf Hactive Henabled Hlen.
  apply Z.eqb_eq in Hactive.
  set (win := window surf).
  set (c := native_window_enable_frame_timestamps win false).
  set (w1 := with_trace (trace w ++ [(c, oracle w (trace w) c)]) w).
  destruct (for_images_total (ReleaseSwapchainImage device win (-1))
              (Z.to_nat (num_images sc))
              (ReleaseSwapchainImage_total device win (-1))
              0%nat (images sc) Hlen w1) as [[imgs w2] Hloop].
  destruct (release_loop_same_heap _ _ _ _ _ _ _ _ _ Hloop)
    as ((Hsf & Hsw & _) & evs & Hext).
  unfold extends in Hext.
  set (w3 := with_swapchains
               (<[handle := with_images imgs sc]> (swapchains w)) w2).
  assert (exists w4, put_surface (surface sc)
                       {| window := window surf; swapchain_handle := 0 |}
                       w3 = Some (tt, w4) /\
                     swapchains w4 = swapchains w3 /\ trace w4 = trace w3)
    as (w4 & Hw4 & Hsw4 & Htr4).
  { unfold put_surface. simpl. rewrite Hsf. simpl. rewrite Hsurf.
    by eexists. }
  eexists _, (evs ++ [_]). split; [| split].
  - unfold DestroySwapchainKHR.
    apply Z.eqb_neq in Hhandle as ->.
    rewrite (bind_run _ _ w w sc) by by apply run_get_swapchain.
    rewrite (bind_run _ _ w w surf) by by apply run_get_surface.
    cbv zeta. rewrite Hactive, Henabled.
    change (true && negb true) with false. cbv iota.
    fold win. unfold when at 1.
    rewrite (bind_run _ _ w w1 tt) by done.
    rewrite (bind_run _ _ _ _ _ Hloop).
    unfold put_swapchain at 1.
    rewrite (bind_run _ _ w2 w3 tt)
      by (by simpl; rewrite Hsw; simpl; rewrite Hsc).
    unfold when at 1.
    rewrite (bind_run _ _ _ _ _ Hw4).
    unfold delete_swapchain at 1. rewrite (bind_run _ _ _ _ tt eq_refl).
    rewrite (bind_run _ _ _ _ _ eq_refl). reflexivity.
  - simpl. apply lookup_delete_eq.
  - simpl. rewrite Htr4. simpl. rewrite Hext. simpl.
    rewrite <- !app_assoc. reflexivity.
Qed.

(** C9.  [DestroySwapchainKHR] on a swapchain with frame timestamps
    enabled that its surface does not hold any more: the first thing the
    entry point does to the outside is the call of
    [native_window_enable_frame_timestamps] on the null window.  That call
    does not return, so the run stops there, with the world as it was. *)
Theorem DestroySwapchainKHR_timestamps_on_null_window
    (device handle allocator : Z) (w : World) (sc : Swapchain)
    (surf : Surface) :
  handle <> 0 ->
  swapchains w !! handle = Some sc ->
  surfaces w !! surface sc = Some surf ->
  swapchain_handle surf <> handle ->
  frame_timestamps_enabled sc = true ->
  DestroySwapchainKHR device handle allocator w =
    Some (null_call (native_window_enable_frame_timestamps 0 false), w).
Proof.
  intros Hhandle Hsc Hsurf Hstale Henabled.
  unfold DestroySwapchainKHR.
  apply Z.eqb_neq in Hhandle as ->.
  rewrite (bind_run _ _ w w sc) by by apply run_get_swapchain.
  rewrite (bind_run _ _ w w surf) by by apply run_get_surface.
  cbv zeta. apply Z.eqb_neq in Hstale as ->. by rewrite Henabled.
Qed.

Lemma DestroySwapchainKHR_timestamps_on_null_window_witness :
  DestroySwapchainKHR 1 4096 0 replaced_world =
    Some (null_call (native_window_enable_frame_timestamps 0 false),
          replaced_world).
Proof.
  apply (DestroySwapchainKHR_timestamps_on_null_window 1 4096 0
           replaced_world (swapchain_at 4096 replaced_world)
           (surface_at 100 replaced_world)).
  - lia.
  - vm_compute. reflexivity.
  - vm_compute. reflexivity.
  - vm_compute. discriminate.
  - vm_compute. reflexivity.
Defined.

(** [DestroySwapchainKHR] on a swapchain with frame timestamps enabled
    that its surface still holds: the first call disables the timestamps on
    the window of the surface. *)
Theorem DestroySwapchainKHR_timestamps_on_window
    (device handle allocator : Z) (w : World) (sc : Swapchain)
    (surf : Surface) :
  handle <> 0 ->
  swapchains w !! handle = Some sc ->
  surfaces w !! surface sc = Some surf ->
  swapchain_handle surf = handle ->
  frame_timestamps_enabled sc = true ->
  (Z.to_nat (num_images sc) <= length (images sc))%nat ->
  exists (w' : World) (evs : Trace),
    DestroySwapchainKHR device handle allocator w = Some (returned, w') /\
    trace w' =
      trace w ++
        (native_window_enable_frame_timestamps (window surf) false,
         oracle w (trace w)
           (native_window_enable_frame_timestamps (window surf) false))
        :: evs.
Proof.
  intros Hhandle Hsc Hsurf Hactive Henabled Hlen.
  destruct (DestroySwapchainKHR_run device handle allocator w sc surf
              Hhandle Hsc Hsurf Hactive Henabled Hlen)
    as (w' & evs & Hrun & _ & Htr).
  eauto.
Qed.

Lemma DestroySwapchainKHR_timestamps_on_window_witness :
  exists w' : World,
    DestroySwapchainKHR 1 4096 0 presented_world = Some (returned, w') /\
    map fst (take 1 (drop (length (trace presented_world)) (trace w'))) =
      [native_window_enable_frame_timestamps 7 false].
Proof.
  destruct (DestroySwapchainKHR_timestamps_on_window 1 4096 0
              presented_world (swapchain_at 4096 presented_world)
              (surface_at 100 presented_world))
    as (w' & evs & Hrun & _).
  - lia.
  - vm_compute. reflexivity.
  - vm_compute. reflexivity.
  - vm_compute. reflexivity.
  - vm_compute. reflexivity.
  - vm_compute. lia.
  - exists w'. split; [exact Hrun |].
    assert (Some w' = snd <$> DestroySwapchainKHR 1 4096 0 presented_world)
      as Hw by (by rewrite Hrun).
    vm_compute in Hw. injection Hw as ->. vm_compute. reflexivity.
Defined.

(** * More of the layer *)

(** ** What a surface supports *)

(** A table copied into the head of a caller's array. *)
Lemma copied_prefix {A : Type} (table out : list A) (n : nat) :
  (n <= length table)%nat -> (n <= length out)%nat ->
  length (take n table ++ drop n out) = length out /\
  (forall i, (i < n)%nat -> (take n table ++ drop n out) !! i = table !! i) /\
  (forall i, (n <= i)%nat -> (take n table ++ drop n out) !! i = out !! i).
Proof.
  intros Htable Hout.
  assert (length (take n table) = n) as Hlen by (rewrite length_take; lia).
  split; [| split].
  - rewrite length_app, Hlen, length_drop. lia.
  - intros i Hi. rewrite lookup_app_l by lia. by apply lookup_take_lt.
  - intros i Hi. rewrite lookup_app_r by lia. rewrite Hlen, lookup_drop.
    f_equal. lia.
Qed.

(** The two enumerations of a surface follow the two-call idiom.  A call
    without array gives the size of the table.  A call with an array of at
    least [min count size] elements writes that many entries of the table
    at the head of the array, leaves the rest of the array alone, stores
    that number in [*count], and returns [VK_INCOMPLETE] exactly when
    [count] is less than the size of the table. *)
Theorem surface_enumerations_fill_the_array :
  (forall (count : Z) (out : list VkSurfaceFormatKHR),
     0 <= count ->
     (Z.to_nat (Z.min count kNumFormats) <= length out)%nat ->
     exists written,
       GetPhysicalDeviceSurfaceFormatsKHR count (Some out) =
         Some (if bool_decide (count < kNumFormats)
               then VK_INCOMPLETE else VK_SUCCESS,
               Z.min count kNumFormats, Some written) /\
       length written = length out /\
       (forall i, (i < Z.to_nat (Z.min count kNumFormats))%nat ->
                  written !! i = kFormats !! i) /\
       (forall i, (Z.to_nat (Z.min count kNumFormats) <= i)%nat ->
                  written !! i = out !! i)) /\
  (forall (count : Z) (out : list VkPresentModeKHR),
     0 <= count ->
     (Z.to_nat (Z.min count kNumModes) <= length out)%nat ->
     exists written,
       GetPhysicalDeviceSurfacePresentModesKHR count (Some out) =
         Some (if bool_decide (count < kNumModes)
               then VK_INCOMPLETE else VK_SUCCESS,
               Z.min count kNumModes, Some written) /\
       length written = length out /\
       (forall i, (i < Z.to_nat (Z.min count kNumModes))%nat ->
                  written !! i = kModes !! i) /\
       (forall i, (Z.to_nat (Z.min count kNumModes) <= i)%nat ->
                  written !! i = out !! i)) /\
  GetPhysicalDeviceSurfaceFormatsKHR 0 None =
    Some (VK_SUCCESS, kNumFormats, None) /\
  GetPhysicalDeviceSurfacePresentModesKHR 0 None =
    Some (VK_SUCCESS, kNumModes, None).
Proof.
  split; [| split; [| split; reflexivity]].
  - intros count out Hcount Hout.
    unfold GetPhysicalDeviceSurfaceFormatsKHR. cbv zeta.
    destruct (Nat.leb_spec (Z.to_nat (Z.min count kNumFormats)) (length out));
      [| lia].
    eexists. split; [| apply copied_prefix; [| done]].
    + destruct (Z.ltb_spec count kNumFormats);
        [rewrite bool_decide_eq_true_2 by done
        | rewrite bool_decide_eq_false_2 by lia]; reflexivity.
    + unfold kNumFormats. lia.
  - intros count out Hcount Hout.
    unfold GetPhysicalDeviceSurfacePresentModesKHR. cbv zeta.
    destruct (Nat.leb_spec (Z.to_nat (Z.min count kNumModes)) (length out));
      [| lia].
    eexists. split; [| apply copied_prefix; [| done]].
    + destruct (Z.ltb_spec count kNumModes);
        [rewrite bool_decide_eq_true_2 by done
        | rewrite bool_decide_eq_false_2 by lia]; reflexivity.
    + unfold kNumModes. lia.
Qed.

Lemma surface_enumerations_fill_the_array_witness :
  exists written,
    GetPhysicalDeviceSurfacePresentModesKHR 2
      (Some [VK_PRESENT_MODE_OTHER 7; VK_PRESENT_MODE_OTHER 8;
             VK_PRESENT_MODE_OTHER 9]) =
      Some (VK_INCOMPLETE, 2, Some written) /\
    written !! 1%nat = Some VK_PRESENT_MODE_FIFO_KHR /\
    written !! 2%nat = Some (VK_PRESENT_MODE_OTHER 9).
Proof.
  destruct (proj1 (proj2 surface_enumerations_fill_the_array) 2
              [VK_PRESENT_MODE_OTHER 7; VK_PRESENT_MODE_OTHER 8;
               VK_PRESENT_MODE_OTHER 9])
    as (written & Hrun & _ & Hhead & Htail); [lia | vm_compute; lia |].
  exists written. split; [exact Hrun |].
  split; [apply (Hhead 1%nat) | apply (Htail 2%nat)]; vm_compute; lia.
Defined.

(** The transform the layer reports for any hint of the window is a
    rotation it supports. *)
Lemma TranslateNativeToVulkanTransform_supported (native : Z) :
  In (TranslateNativeToVulkanTransform native) kSupportedTransforms /\
  TranslateNativeToVulkanTransform native <>
    VK_SURFACE_TRANSFORM_INHERIT_BIT_KHR.
Proof.
  unfold TranslateNativeToVulkanTransform, kSupportedTransforms.
  repeat match goal with
         | |- context [if ?b then _ else _] => destruct b
         end; simpl; split; auto 10; discriminate.
Qed.

(** [GetPhysicalDeviceSurfaceCapabilitiesKHR] reads: it leaves the objects
    of the layer alone and makes at most three calls, all of them queries of
    the window of the surface.  It returns
    [VK_ERROR_INITIALIZATION_FAILED] without capabilities when its last
    query has failed.  Otherwise it returns [VK_SUCCESS] after the queries
    of the default width, the default height and the transform hint, in
    this order.  In the capabilities the current extent is the width and
    the height the window has answered, as [uint32_t]; the current
    transform is the translation of the hint, which is one of the supported
    transforms and not the inherited one, whatever the hint is; the image
    counts are 2 and 3, the extents go from 1 by 1 to 4096 by 4096, and
    there is one array layer. *)
Theorem GetPhysicalDeviceSurfaceCapabilitiesKHR_reads
    (surface : Z) (w w' : World) (r : VkResult)
    (caps : option VkSurfaceCapabilitiesKHR) :
  GetPhysicalDeviceSurfaceCapabilitiesKHR surface w = Some ((r, caps), w') ->
  exists (surf : Surface) (evs : Trace),
    surfaces w !! surface = Some surf /\
    same_heap w w' /\ trace w' = trace w ++ evs /\
    (length evs <= 3)%nat /\
    Forall (fun e => exists what, e.1 = query (window surf) what) evs /\
    ((r = VK_ERROR_INITIALIZATION_FAILED /\ caps = None /\
      exists e, last evs = Some e /\ a_err e.2 <> 0) \/
     (r = VK_SUCCESS /\
      Forall (fun e => a_err e.2 = 0) evs /\
      exists (c : VkSurfaceCapabilitiesKHR) (width height hint : Answer),
        caps = Some c /\
        evs = [(query (window surf) NATIVE_WINDOW_DEFAULT_WIDTH, width);
               (query (window surf) NATIVE_WINDOW_DEFAULT_HEIGHT, height);
               (query (window surf) NATIVE_WINDOW_TRANSFORM_HINT, hint)] /\
        currentExtent c = (u32 (a_value width), u32 (a_value height)) /\
        currentTransform c =
          TranslateNativeToVulkanTransform (a_value hint) /\
        In (currentTransform c) (supportedTransforms c) /\
        currentTransform c <> VK_SURFACE_TRANSFORM_INHERIT_BIT_KHR /\
        supportedTransforms c = kSupportedTransforms /\
        minImageCount c = 2 /\ maxImageCount c = 3 /\
        minImageExtent c = (1, 1) /\ maxImageExtent c = (4096, 4096) /\
        maxImageArrayLayers c = 1 /\
        0 <= fst (currentExtent c) < 2 ^ 32 /\
        0 <= snd (currentExtent c) < 2 ^ 32)).
Proof.
  unfold GetPhysicalDeviceSurfaceCapabilitiesKHR. intros H. msteps.
  all: bool_hyps.
  all: simpl in *; rewrite <- ?app_assoc in *; simpl in *.
  all: eexists _, _; split; [eassumption |].
  all: split; [solve_same_heap |].
  all: split; [solve_extends |].
  all: split; [simpl; lia |].
  all: split; [repeat constructor; eexists; reflexivity |].
  1-3: left; split; [done |]; split; [done |];
       eexists; (split; [reflexivity |]); assumption.
  right. split; [done |]. split; [repeat constructor; assumption |].
  eexists _, _, _, _. split; [reflexivity |]. simpl.
  split; [reflexivity |]. split; [reflexivity |]. split; [reflexivity |].
  split; [apply TranslateNativeToVulkanTransform_supported |].
  split; [apply TranslateNativeToVulkanTransform_supported |].
  repeat (split; [reflexivity |]).
  unfold u32. repeat split; try apply Z.mod_pos_bound; lia.
Qed.

Lemma GetPhysicalDeviceSurfaceCapabilitiesKHR_reads_witness :
  exists (c : VkSurfaceCapabilitiesKHR) (w' : World),
    GetPhysicalDeviceSurfaceCapabilitiesKHR 100 sized_world =
      Some ((VK_SUCCESS, Some c), w') /\
    currentExtent c = (800, 600) /\
    currentTransform c = VK_SURFACE_TRANSFORM_ROTATE_90_BIT_KHR.
Proof.
  set (c := {| minImageCount := 2; maxImageCount := 3;
               currentExtent := (800, 600);
               minImageExtent := (1, 1);
               maxImageExtent := (4096, 4096);
               maxImageArrayLayers := 1;
               supportedTransforms := kSupportedTransforms;
               currentTransform := VK_SURFACE_TRANSFORM_ROTATE_90_BIT_KHR |}).
  assert (GetPhysicalDeviceSurfaceCapabilitiesKHR 100 sized_world =
            Some ((VK_SUCCESS, Some c),
                  after (GetPhysicalDeviceSurfaceCapabilitiesKHR 100)
                    sized_world)) as Hrun.
  { apply (after_run (GetPhysicalDeviceSurfaceCapabilitiesKHR 100)
             sized_world).
    vm_compute. reflexivity. }
  destruct (GetPhysicalDeviceSurfaceCapabilitiesKHR_reads 100 sized_world _
              VK_SUCCESS (Some c) Hrun)
    as (surf & evs & _ & _ & Htrace & _ & _ & [(Hfail & _) | (_ & _ & Hcaps)]);
    [discriminate Hfail |].
  destruct Hcaps as (c' & width & height & hint & [= <-] & _).
  exists c, (after (GetPhysicalDeviceSurfaceCapabilitiesKHR 100) sized_world).
  split; [exact Hrun |]. split; reflexivity.
Defined.

(** ** Surfaces *)

(** [CreateAndroidSurfaceKHR] touches no swapchain and has three ways
    out.  Without memory it returns [VK_ERROR_OUT_OF_HOST_MEMORY] after the
    one call of the allocator and the surfaces are as before.  When the
    window cannot be connected it returns [VK_ERROR_INITIALIZATION_FAILED],
    the memory has been given back to the allocator it came from, and there
    is no surface at its address.  Otherwise it returns [VK_SUCCESS] and a
    handle that is not null, at which a surface on the window lives that
    holds no swapchain. *)
Theorem CreateAndroidSurfaceKHR_outcomes
    (instance win allocator : Z) (w w' : World) (r : VkResult)
    (out : option Z) :
  CreateAndroidSurfaceKHR instance win allocator w = Some ((r, out), w') ->
  let al := pick_allocator allocator instance in
  let mem := oracle w (trace w) (pfnAllocation al) in
  swapchains w' = swapchains w /\
  ((a_value mem = 0 /\ r = VK_ERROR_OUT_OF_HOST_MEMORY /\ out = None /\
    surfaces w' = surfaces w /\
    trace w' = trace w ++ [(pfnAllocation al, mem)]) \/
   (a_value mem <> 0 /\ r = VK_ERROR_INITIALIZATION_FAILED /\ out = None /\
    surfaces w' = delete (a_value mem) (surfaces w) /\
    exists c f,
      a_err c <> 0 /\
      trace w' = trace w ++ [(pfnAllocation al, mem);
                             (native_window_api_connect win, c);
                             (pfnFree al (a_value mem), f)]) \/
   (a_value mem <> 0 /\ r = VK_SUCCESS /\ out = Some (a_value mem) /\
    surfaces w' =
      <[a_value mem := {| window := win; swapchain_handle := 0 |}]>
        (surfaces w) /\
    exists c,
      a_err c = 0 /\
      trace w' = trace w ++ [(pfnAllocation al, mem);
                             (native_window_api_connect win, c)])).
Proof.
  unfold CreateAndroidSurfaceKHR. intros H. cbv zeta in *. msteps.
  all: bool_hyps; simpl in *; rewrite <- ?app_assoc in *; simpl in *.
  all: split; [reflexivity |].
  - left. done.
  - right; left. repeat (split; [done |]).
    split; [apply delete_insert_eq |]. by eexists _, _.
  - right; right. repeat (split; [done |]). by eexists.
Qed.

Lemma CreateAndroidSurfaceKHR_outcomes_witness :
  swapchains (after (CreateAndroidSurfaceKHR 1 8 0) friendly_world) =
    swapchains friendly_world /\
  surfaces (after (CreateAndroidSurfaceKHR 1 8 0) friendly_world) !! 4096 =
    Some {| window := 8; swapchain_handle := 0 |}.
Proof.
  destruct (CreateAndroidSurfaceKHR_outcomes 1 8 0 friendly_world
              (after (CreateAndroidSurfaceKHR 1 8 0) friendly_world)
              VK_SUCCESS (Some 4096))
    as (Hsc & [(Hmem & _) | [(_ & Hr & _) | (_ & _ & _ & Hsurf & _)]]).
  - vm_compute. reflexivity.
  - vm_compute in Hmem. discriminate.
  - discriminate.
  - split; [exact Hsc |]. rewrite Hsurf. apply lookup_insert_eq.
Defined.

(** A surface that has been created can be destroyed: [DestroySurfaceKHR]
    with the handle and the allocator of the creation returns, disconnects
    the window, gives the memory back to the allocator it came from, and,
    the memory having been fresh, leaves the surfaces and the swapchains
    as they were before the creation. *)
Theorem surface_create_destroy
    (instance win allocator handle : Z) (w w1 : World) :
  CreateAndroidSurfaceKHR instance win allocator w =
    Some ((VK_SUCCESS, Some handle), w1) ->
  surfaces w !! handle = None ->
  exists (w2 : World) (mem c d f : Answer),
    DestroySurfaceKHR instance handle allocator w1 = Some (tt, w2) /\
    surfaces w2 = surfaces w /\ swapchains w2 = swapchains w /\
    a_value mem = handle /\
    trace w2 =
      trace w ++
        [(pfnAllocation (pick_allocator allocator instance), mem);
         (native_window_api_connect win, c);
         (native_window_api_disconnect win, d);
         (pfnFree (pick_allocator allocator instance) handle, f)].
Proof.
  intros Hcreate Hfresh.
  unfold CreateAndroidSurfaceKHR in Hcreate. cbv zeta in Hcreate. msteps.
  bool_hyps.
  set (al := pick_allocator allocator instance) in *.
  set (mem := oracle w (trace w) (pfnAllocation al)) in *.
  unfold DestroySurfaceKHR.
  destruct (Z.eqb_spec (a_value mem) 0) as [? | _]; [congruence |].
  rewrite (bind_run _ _ _ _ {| window := win; swapchain_handle := 0 |})
    by (apply run_get_surface; split; [apply lookup_insert_eq | reflexivity]).
  rewrite (bind_run _ _ _ _ _ eq_refl).
  unfold delete_surface at 1. rewrite (bind_run _ _ _ _ tt eq_refl).
  cbv zeta. rewrite (bind_run _ _ _ _ _ eq_refl).
  eexists _, mem, _, _, _. split; [reflexivity |]. simpl.
  split; [| split; [done | split; [done |]]].
  - rewrite delete_insert_eq. by apply delete_id.
  - rewrite <- !app_assoc. reflexivity.
Qed.

Lemma surface_create_destroy_witness :
  exists w2 : World,
    DestroySurfaceKHR 1 4096 0
      (after (CreateAndroidSurfaceKHR 1 8 0) friendly_world) = Some (tt, w2) /\
    surfaces w2 = surfaces friendly_world.
Proof.
  destruct (surface_create_destroy 1 8 0 4096 friendly_world
              (after (CreateAndroidSurfaceKHR 1 8 0) friendly_world))
    as (w2 & mem & c & d & f & Hrun & Hsurf & _).
  - vm_compute. reflexivity.
  - vm_compute. reflexivity.
  - by exists w2.
Defined.

(** ** Swapchains: the old swapchain, orphans *)

(** [CreateSwapchainKHR] on a surface that holds another swapchain than
    [oldSwapchain]: [VK_ERROR_NATIVE_WINDOW_IN_USE_KHR], before any call, with
    the world as it is.  In particular a second swapchain cannot be created
    on a surface without naming the first. *)
Theorem CreateSwapchainKHR_window_in_use
    (device allocator : Z) (create_info : VkSwapchainCreateInfoKHR)
    (w : World) (surf : Surface) :
  surfaces w !! ci_surface create_info = Some surf ->
  swapchain_handle surf <> ci_oldSwapchain create_info ->
  CreateSwapchainKHR device create_info allocator w =
    Some ((VK_ERROR_NATIVE_WINDOW_IN_USE_KHR, None), w).
Proof.
  intros Hsurf Hne. unfold CreateSwapchainKHR, create_orphan_step.
  rewrite (bind_run _ _ w w false); [reflexivity |].
  rewrite (bind_run _ _ w w surf) by by apply run_get_surface.
  apply Z.eqb_neq in Hne. by rewrite Hne.
Qed.

Lemma CreateSwapchainKHR_window_in_use_witness :
  CreateSwapchainKHR 1 sample_create_info 0 created_world =
    Some ((VK_ERROR_NATIVE_WINDOW_IN_USE_KHR, None), created_world).
Proof.
  apply (CreateSwapchainKHR_window_in_use 1 0 sample_create_info
           created_world (surface_at 100 created_world)).
  - vm_compute. reflexivity.
  - vm_compute. discriminate.
Defined.

(** What [OrphanSwapchain] does to one slot. *)
Lemma orphan_slot_spec (device : Z) (img img' : Image) (w w' : World) :
  (if negb (dequeued img) then ReleaseSwapchainImage device 0 (-1) img
   else ret img) w = Some (img', w') ->
  same_heap w w' /\
  exists evs, extends w w' evs /\
    (img' = (if dequeued img then img else released img) /\
     Forall (fun e => window_of e.1 = None) evs).
Proof.
  destruct (dequeued img) eqn:Hd; simpl; intros H.
  - mstep. split; [apply same_heap_refl |].
    exists []. split; [apply extends_refl | by split].
  - apply ReleaseSwapchainImage_spec in H
      as (-> & Hheap & evs & Hext & _ & Hwin).
    split; [done |]. exists evs. split; [done |]. split; [done | by apply Hwin].
Qed.

(** [OrphanSwapchain]: what it leaves. *)
Lemma OrphanSwapchain_run (device handle : Z) (w w' : World) :
  handle <> 0 ->
  OrphanSwapchain device handle w = Some (tt, w') ->
  exists (sc : Swapchain) (surf : Surface),
    swapchains w !! handle = Some sc /\
    surfaces w !! surface sc = Some surf /\
    (swapchain_handle surf <> handle -> w' = w) /\
    (swapchain_handle surf = handle ->
     exists (imgs : list Image) (evs : Trace),
       swapchains w' =
         <[handle := with_timing [] (with_images imgs sc)]> (swapchains w) /\
       surfaces w' =
         <[surface sc := {| window := window surf; swapchain_handle := 0 |}]>
           (surfaces w) /\
       length imgs = length (images sc) /\
       (forall j img, images sc !! j = Some img ->
          imgs !! j =
            Some (if dequeued img || (Z.to_nat (num_images sc) <=? j)%nat
                  then img else released img)) /\
       trace w' = trace w ++ evs /\
       Forall (fun e => window_of e.1 = None) evs) /\
    GetSwapchainStatusKHR handle w' = Some (VK_ERROR_OUT_OF_DATE_KHR, w') /\
    OrphanSwapchain device handle w' = Some (tt, w').
Proof.
  intros Hhandle H. unfold OrphanSwapchain in H.
  apply run_bind in H as (sc & w0 & Hsc & H).
  apply run_get_swapchain in Hsc as [Hsc ->].
  apply run_bind in H as (surf & w0 & Hsurf & H).
  apply run_get_surface in Hsurf as [Hsurf ->].
  exists sc, surf. split; [done |]. split; [done |].
  destruct (Z.eqb_spec (swapchain_handle surf) handle) as [Heq | Hne];
    simpl in H.
  - split; [done |].
    apply run_bind in H as (imgs & w1 & Hloop & H).
    apply (for_images_spec _ _ (orphan_slot_spec device)) in Hloop
      as ((Hsf & Hsw & Hor & Hdi) & Hlen & Hin & Hframe & evs & Hext & Hslots
          & Hevs).
    apply run_bind in H as ([] & w2 & H1 & H).
    apply run_put_swapchain in H1 as [_ ->].
    apply run_bind in H as ([] & w3 & H2 & H).
    apply run_put_surface in H2 as [_ ->].
    apply run_put_swapchain in H as [_ ->]. simpl in *.
    assert (<[handle := with_timing [] (with_images imgs sc)]>
              (<[handle := with_images imgs sc]> (swapchains w1)) =
            <[handle := with_timing [] (with_images imgs sc)]> (swapchains w))
      as Hfinal by (by rewrite insert_insert_eq, Hsw).
    split; [| split].
    + intros _. exists imgs, evs. rewrite Hfinal, Hsf.
      split; [done |]. split; [done |]. split; [done |].
      split; [| split; [exact Hext |]].
      * intros j img Himg.
        destruct (Nat.leb_spec (Z.to_nat (num_images sc)) j) as [Hj | Hj].
        -- rewrite orb_true_r, Hframe by lia. done.
        -- rewrite orb_false_r.
           destruct (Hslots j img) as (img' & evs_j & -> & [-> _] & _);
             [lia | done | done].
      * apply Forall_forall. intros e He. apply list_elem_of_In in He.
        destruct (Hevs e He) as (j & img & img' & evs_j & _ & _ & _ & [_ Hw] & Hj).
        rewrite Forall_forall in Hw. apply Hw. by apply list_elem_of_In.
    + unfold GetSwapchainStatusKHR.
      rewrite (bind_run _ _ _ _ (with_timing [] (with_images imgs sc)))
        by (apply run_get_swapchain; split; [apply lookup_insert_eq | done]).
      rewrite (bind_run _ _ _ _
                 {| window := window surf; swapchain_handle := 0 |})
        by (apply run_get_surface; split; [apply lookup_insert_eq | done]).
      cbn [swapchain_handle].
      destruct (Z.eqb_spec 0 handle); [congruence | reflexivity].
    + unfold OrphanSwapchain.
      rewrite (bind_run _ _ _ _ (with_timing [] (with_images imgs sc)))
        by (apply run_get_swapchain; split; [apply lookup_insert_eq | done]).
      rewrite (bind_run _ _ _ _
                 {| window := window surf; swapchain_handle := 0 |})
        by (apply run_get_surface; split; [apply lookup_insert_eq | done]).
      cbn [swapchain_handle].
      destruct (Z.eqb_spec 0 handle); [congruence | reflexivity].
  - mstep. split; [done |]. split; [intros; done |]. split.
    + unfold GetSwapchainStatusKHR.
      rewrite (bind_run _ _ w w sc) by by apply run_get_swapchain.
      rewrite (bind_run _ _ w w surf) by by apply run_get_surface.
      by destruct (Z.eqb_spec (swapchain_handle surf) handle).
    + unfold OrphanSwapchain.
      rewrite (bind_run _ _ w w sc) by by apply run_get_swapchain.
      rewrite (bind_run _ _ w w surf) by by apply run_get_surface.
      by destruct (Z.eqb_spec (swapchain_handle surf) handle).
Qed.

(** [OrphanSwapchain] on a swapchain that its surface does not hold does
    nothing.  On the swapchain the surface holds, it takes the handle off
    the surface, empties the timing store, and releases the slots below
    [num_images] that are not dequeued; the dequeued slots and the slots
    from [num_images] on stay as they are, and no call goes to a window.
    Afterwards the swapchain is out of date for good: [GetSwapchainStatusKHR]
    says so, and orphaning it again changes nothing. *)
Theorem OrphanSwapchain_spec (device handle : Z) (w w' : World) :
  handle <> 0 ->
  OrphanSwapchain device handle w = Some (tt, w') ->
  exists (sc : Swapchain) (surf : Surface),
    swapchains w !! handle = Some sc /\
    surfaces w !! surface sc = Some surf /\
    (swapchain_handle surf <> handle -> w' = w) /\
    (swapchain_handle surf = handle ->
     exists (imgs : list Image) (evs : Trace),
       swapchains w' =
         <[handle := with_timing [] (with_images imgs sc)]> (swapchains w) /\
       surfaces w' =
         <[surface sc := {| window := window surf; swapchain_handle := 0 |}]>
           (surfaces w) /\
       length imgs = length (images sc) /\
       (forall j img, images sc !! j = Some img ->
          imgs !! j =
            Some (if dequeued img || (Z.to_nat (num_images sc) <=? j)%nat
                  then img else released img)) /\
       trace w' = trace w ++ evs /\
       Forall (fun e => window_of e.1 = None) evs) /\
    GetSwapchainStatusKHR handle w' = Some (VK_ERROR_OUT_OF_DATE_KHR, w') /\
    OrphanSwapchain device handle w' = Some (tt, w').
Proof. apply OrphanSwapchain_run. Qed.

Lemma OrphanSwapchain_spec_witness :
  GetSwapchainStatusKHR 4096
    (after (OrphanSwapchain 1 4096) reacquired_world) =
  Some (VK_ERROR_OUT_OF_DATE_KHR,
        after (OrphanSwapchain 1 4096) reacquired_world) /\
  map (fun img => (image img, dequeued img))
      (take 2 (images (swapchain_at 4096
                         (after (OrphanSwapchain 1 4096) reacquired_world)))) =
    [(0, false); (901, true)].
Proof.
  destruct (OrphanSwapchain_spec 1 4096 reacquired_world
              (after (OrphanSwapchain 1 4096) reacquired_world))
    as (sc & surf & _ & _ & _ & _ & Hstatus & _).
  - lia.
  - vm_compute. reflexivity.
  - split; [exact Hstatus | vm_compute; reflexivity].
Defined.

(** ** Fences *)

(** [ReleaseSwapchainImage] and the descriptors.  Of a dequeued slot, the
    dequeue fence and the release fence are each closed or handed to the
    window once, and no other descriptor is touched; of a slot that is not
    dequeued nothing is closed or handed on.  The slot that is left holds
    no descriptor unless it was not dequeued. *)
Theorem ReleaseSwapchainImage_disposes_once
    (device win release_fence : Z) (img img' : Image) (w w' : World) :
  ReleaseSwapchainImage device win release_fence img w = Some (img', w') ->
  exists evs : Trace,
    trace w' = trace w ++ evs /\
    (dequeued img = true -> dequeue_fence img' = -1) /\
    forall fd : Z,
      0 <= fd ->
      disposals fd evs =
        if dequeued img
        then (Nat.b2n (Z.eqb (dequeue_fence img) fd) +
              Nat.b2n (Z.eqb release_fence fd))%nat
        else 0%nat.
Proof.
  unfold ReleaseSwapchainImage. intros H. msteps.
  all: bool_hyps.
  all: eexists; split; [solve_extends |].
  all: split; [try done; intros; reflexivity |].
  all: intros fd Hfd; unfold disposals; simpl.
  all: repeat match goal with
         | |- context [?a =? ?b] =>
             destruct (Z.eqb_spec a b); try lia
         end; simpl; try reflexivity; try lia.
Qed.

Lemma ReleaseSwapchainImage_disposes_once_witness :
  exists evs : Trace,
    trace (after (ReleaseSwapchainImage 1 0 40
                    {| image := 901; buffer := 501;
                       dequeue_fence := 33; dequeued := true |})
             friendly_world) = trace friendly_world ++ evs /\
    disposals 33 evs = 1%nat /\ disposals 40 evs = 1%nat /\
    disposals 50 evs = 0%nat.
Proof.
  destruct (ReleaseSwapchainImage_disposes_once 1 0 40
              {| image := 901; buffer := 501;
                 dequeue_fence := 33; dequeued := true |}
              {| image := 0; buffer := 0;
                 dequeue_fence := -1; dequeued := false |}
              friendly_world
              (after (ReleaseSwapchainImage 1 0 40
                        {| image := 901; buffer := 501;
                           dequeue_fence := 33; dequeued := true |})
                 friendly_world))
    as (evs & Htrace & _ & Hd); [vm_compute; reflexivity |].
  exists evs. split; [exact Htrace |].
  split; [exact (Hd 33 ltac:(lia)) |].
  split; [exact (Hd 40 ltac:(lia)) | exact (Hd 50 ltac:(lia))].
Defined.

(** ** Acquiring an image *)

(** The search of [AcquireNextImageKHR] for the slot of a buffer stops at
    the first slot that holds it, or behind the last slot. *)
Lemma find_buffer_spec (n : nat) :
  forall (idx : nat) (buf : Z) (imgs : list Image) (w w' : World) (r : nat),
    find_buffer n idx buf imgs w = Some (r, w') ->
    w' = w /\ (idx <= r <= idx + n)%nat /\
    (r < idx + n -> exists img, imgs !! r = Some img /\ buffer img = buf)%nat /\
    (forall j, idx <= j < r ->
               exists img, imgs !! j = Some img /\ buffer img <> buf)%nat.
Proof.
  induction n as [| n IH]; simpl; intros idx buf imgs w w' r H; msteps.
  - split; [done |]. split; [lia |]. split; intros; lia.
  - bool_hyps. split; [done |]. split; [lia |]. split; [eauto |].
    intros; lia.
  - bool_hyps. apply IH in H as (-> & Hr & Hfound & Hbefore).
    split; [done |]. split; [lia |]. split.
    + intros Hlt. apply Hfound. lia.
    + intros j Hj. destruct (decide (j = idx)) as [-> | Hne]; [eauto |].
      apply Hbefore. lia.
Qed.

(** [AcquireNextImageKHR] returns [VK_SUCCESS] only so: the swapchain is
    the one its surface holds, the window has handed out a buffer, the
    index returned is the first slot below [num_images] that holds this
    buffer, that slot is now dequeued with the fence of the window, nothing
    else in the layer has changed, and the driver has taken the image of the
    slot with [AcquireImageANDROID]. *)
Theorem AcquireNextImageKHR_success
    (device handle timeout semaphore vk_fence : Z) (w w' : World)
    (out : option Z) :
  (forall sc, swapchains w !! handle = Some sc -> 0 <= num_images sc) ->
  AcquireNextImageKHR device handle timeout semaphore vk_fence w =
    Some ((VK_SUCCESS, out), w') ->
  exists (sc : Swapchain) (surf : Surface) (idx : nat) (img : Image)
         (evs : Trace),
    let a := oracle w (trace w) (dequeueBuffer (window surf)) in
    swapchains w !! handle = Some sc /\
    surfaces w !! surface sc = Some surf /\
    swapchain_handle surf = handle /\
    a_err a = 0 /\
    out = Some (Z.of_nat idx) /\
    (idx < Z.to_nat (num_images sc))%nat /\
    images sc !! idx = Some img /\
    buffer img = a_buffer a /\
    (forall j, (j < idx)%nat ->
               exists img_j, images sc !! j = Some img_j /\
                             buffer img_j <> a_buffer a) /\
    swapchains w' =
      <[handle := with_images
                    (<[idx := {| image := image img; buffer := buffer img;
                                 dequeue_fence := a_fence a;
                                 dequeued := true |}]> (images sc)) sc]>
        (swapchains w) /\
    surfaces w' = surfaces w /\
    trace w' = trace w ++ (dequeueBuffer (window surf), a) :: evs /\
    (exists clone r,
       last evs = Some (AcquireImageANDROID device (image img) clone
                          semaphore vk_fence, r) /\
       a_result r = VK_SUCCESS) /\
    Forall (fun e => disposes (a_fence a) e.1 = false) evs.
Proof.
  unfold AcquireNextImageKHR. intros Hnum H.
  apply run_bind in H as (sc & w0 & Hsc & H).
  apply run_get_swapchain in Hsc as [Hsc ->].
  specialize (Hnum sc Hsc).
  apply run_bind in H as (surf & w0 & Hsurf & H).
  apply run_get_surface in Hsurf as [Hsurf ->].
  cbv zeta in H.
  destruct (Z.eqb_spec (swapchain_handle surf) handle) as [Hactive | ?];
    [| by mstep].
  simpl in H.
  apply run_bind in H as (a & w1 & Ha & H).
  apply run_call in Ha as [-> ->].
  set (a := oracle w (trace w) (dequeueBuffer (window surf))) in *.
  destruct (Z.eqb_spec (a_err a) 0) as [Herr | ?]; [| by mstep].
  simpl in H.
  apply run_bind in H as (idx & w1 & Hfind & H).
  apply find_buffer_spec in Hfind as (-> & Hidx & Hfound & Hbefore).
  destruct (Z.eqb_spec (Z.of_nat idx) (num_images sc)) as [? | Hin];
    [by msteps |].
  apply run_bind in H as (img & w1 & Himg & H).
  apply run_image_at in Himg as [Himg ->].
  apply run_bind in H as ([] & w1 & Hput & H).
  apply run_put_swapchain in Hput as [_ ->].
  exists sc, surf, idx, img.
  assert (idx < Z.to_nat (num_images sc))%nat as Hlt by lia.
  assert (buffer img = a_buffer a) as Hbuf
    by (destruct Hfound as (img0 & Himg0 & Hb); [lia | congruence]).
  apply run_bind in H as (clone & w2 & Hclone & H).
  match type of Hclone with ?m ?w1 = _ =>
    assert (exists evs1, w2 = with_trace (trace w1 ++ evs1) w1 /\
              Forall (fun e => disposes (a_fence a) e.1 = false) evs1)
      as (evs1 & -> & Hevs1)
  end.
  { clear H. destruct (negb (a_fence a =? -1)); msteps.
    all: eexists; split;
      [unfold with_trace, with_swapchains; simpl;
       rewrite <- ?app_assoc; simpl; try reflexivity;
       by instantiate (1 := []); rewrite app_nil_r
      | by repeat constructor]. }
  apply run_bind in H as (r & w3 & Hr & H).
  apply run_call in Hr as [-> ->].
  match type of H with
    (if bool_decide (a_result ?r <> _) then _ else _) _ = _ =>
      destruct (decide (a_result r = VK_SUCCESS)) as [Hok | Hfail]
  end.
  2:{ rewrite bool_decide_eq_true_2 in H by done. by msteps. }
  rewrite bool_decide_eq_false_2 in H by (intros Hx; by apply Hx).
  apply run_ret in H as [[= <-] ->].
  eexists (evs1 ++ [_]). cbv zeta.
  repeat (split; [done |]).
  split; [intros j Hj; apply Hbefore; lia |].
  split; [reflexivity |]. split; [reflexivity |].
  split; [simpl; rewrite <- !app_assoc; reflexivity |].
  split.
  - eexists _, _. split; [apply last_snoc |].
    simpl in Hok. rewrite <- ?app_assoc in Hok. exact Hok.
  - apply Forall_app. split; [exact Hevs1 | by repeat constructor].
Qed.

Lemma AcquireNextImageKHR_success_witness :
  exists (idx : nat) (img : Image),
    images (swapchain_at 4096 created_world) !! idx = Some img /\
    buffer img = 500 /\
    images (swapchain_at 4096 acquired_world) !! idx =
      Some {| image := image img; buffer := 500;
              dequeue_fence := 32; dequeued := true |}.
Proof.
  destruct (AcquireNextImageKHR_success 1 4096 (-1) 0 0 created_world
              acquired_world (Some 0))
    as (sc & surf & idx & img & evs & Hsc & Hsurf & _ & _ & Hout & _ & Himg &
        Hbuf & _ & Hsw & _).
  - intros sc Hsc. vm_compute in Hsc. injection Hsc as <-. simpl. lia.
  - vm_compute. reflexivity.
  - injection Hout as Hidx.
    assert (idx = 0%nat) as -> by lia.
    assert (sc = swapchain_at 4096 created_world) as ->
      by (unfold swapchain_at; by rewrite Hsc).
    assert (surf = surface_at 100 created_world) as ->
      by (vm_compute in Hsurf; by injection Hsurf as <-).
    exists 0%nat, img. split; [exact Himg |].
    split; [rewrite Hbuf; vm_compute; reflexivity |].
    unfold swapchain_at at 1. rewrite Hsw, lookup_insert_eq. simpl.
    rewrite list_lookup_insert_eq by (by eapply lookup_lt_Some).
    rewrite Hbuf. vm_compute. reflexivity.
Defined.

(** [AcquireNextImageKHR] returns an error only so: there is no image
    index, the surfaces are as before, a buffer the window has handed out
    has gone back to it with its fence by [cancelBuffer], and of the
    swapchains at most the slot of that buffer has changed: its image and
    its buffer are the same, and it is the same slot altogether if it was
    not dequeued and held no fence. *)
Theorem AcquireNextImageKHR_failure
    (device handle timeout semaphore vk_fence : Z) (w w' : World)
    (r : VkResult) (out : option Z) :
  AcquireNextImageKHR device handle timeout semaphore vk_fence w =
    Some ((r, out), w') ->
  r <> VK_SUCCESS ->
  out = None /\ surfaces w' = surfaces w /\
  (exists evs : Trace,
     trace w' = trace w ++ evs /\
     forall win a rest,
       evs = (dequeueBuffer win, a) :: rest -> a_err a = 0 ->
       exists a', In (cancelBuffer win (a_buffer a) (a_fence a), a') rest) /\
  (forall h, h <> handle -> swapchains w' !! h = swapchains w !! h) /\
  exists sc sc',
    swapchains w !! handle = Some sc /\
    swapchains w' !! handle = Some sc' /\
    with_images (images sc) sc' = sc /\
    length (images sc') = length (images sc) /\
    forall j img, images sc !! j = Some img ->
      exists img', images sc' !! j = Some img' /\
        image img' = image img /\ buffer img' = buffer img /\
        (dequeued img = false -> dequeue_fence img = -1 -> img' = img).
Proof.
  unfold AcquireNextImageKHR. intros H Hr.
  apply run_bind in H as (sc & w0 & Hsc & H).
  apply run_get_swapchain in Hsc as [Hsc ->].
  apply run_bind in H as (surf & w0 & Hsurf & H).
  apply run_get_surface in Hsurf as [Hsurf ->].
  cbv zeta in H.
  assert (with_images (images sc) sc = sc) as Hsame by (by destruct sc).
  assert (forall j img, images sc !! j = Some img ->
            exists img', images sc !! j = Some img' /\
              image img' = image img /\ buffer img' = buffer img /\
              (dequeued img = false -> dequeue_fence img = -1 -> img' = img))
    as Hslots by (intros j img Himg; by exists img).
  destruct (Z.eqb_spec (swapchain_handle surf) handle) as [Hactive | ?];
    simpl in H.
  2:{ mstep. split; [done |]. split; [done |]. split.
      - exists []. split; [by rewrite app_nil_r | discriminate].
      - split; [done |]. by exists sc, sc. }
  apply run_bind in H as (a & w1 & Ha & H).
  apply run_call in Ha as [-> ->].
  set (a := oracle w (trace w) (dequeueBuffer (window surf))) in *.
  destruct (Z.eqb_spec (a_err a) 0) as [Herr | ?]; simpl in H.
  2:{ mstep. split; [done |]. split; [done |]. split.
      - eexists. split; [reflexivity |].
        intros win a0 rest [= _ <- _] ?. done.
      - split; [done |]. by exists sc, sc. }
  apply run_bind in H as (idx & w1 & Hfind & H).
  apply find_buffer_spec in Hfind as (-> & Hidx & Hfound & Hbefore).
  destruct (Z.eqb_spec (Z.of_nat idx) (num_images sc)) as [? | Hin].
  { msteps. split; [done |]. split; [done |]. split.
    - eexists. split; [simpl; by rewrite <- app_assoc |].
      intros win a0 rest [= <- <- <-] _. eexists. by left.
    - split; [done |]. by exists sc, sc. }
  apply run_bind in H as (img & w1 & Himg & H).
  apply run_image_at in Himg as [Himg ->].
  apply run_bind in H as ([] & w1 & Hput & H).
  apply run_put_swapchain in Hput as [_ ->].
  apply run_bind in H as (clone & w2 & Hclone & H).
  match type of Hclone with ?m ?w1 = _ =>
    assert (exists evs1, w2 = with_trace (trace w1 ++ evs1) w1)
      as (evs1 & ->)
  end.
  { clear H. destruct (negb (a_fence a =? -1)); msteps.
    all: eexists;
      unfold with_trace, with_swapchains; simpl;
      rewrite <- ?app_assoc; simpl; try reflexivity;
      by instantiate (1 := []); rewrite app_nil_r. }
  apply run_bind in H as (res & w3 & Hres & H).
  apply run_call in Hres as [-> ->].
  match type of H with
    (if ?b then _ else _) _ = _ => destruct b eqn:Hfail
  end.
  2:{ by msteps. }
  apply run_bind in H as (c & w4 & Hc & H).
  apply run_call in Hc as [-> ->].
  apply run_bind in H as ([] & w4 & Hput & H).
  apply run_put_swapchain in Hput as [_ ->].
  apply run_ret in H as [[= _ <-] ->]. clear Hr Hfail.
  split; [done |]. split; [done |]. split; [| split].
  - eexists. split; [simpl; rewrite <- !app_assoc; reflexivity |].
    intros win a0 rest [= <- <- <-] _. eexists.
    apply in_or_app. right. right. by left.
  - intros h Hh. simpl. by rewrite !lookup_insert_ne.
  - eexists sc, _. split; [done |]. simpl.
    split; [apply lookup_insert_eq |]. split; [by destruct sc |].
    split; [apply length_insert |]. simpl.
    intros j img0 Himg0. destruct (decide (j = idx)) as [-> | Hne].
    + rewrite list_lookup_insert_eq by (by eapply lookup_lt_Some).
      eexists. split; [reflexivity |].
      assert (img0 = img) as -> by congruence.
      split; [done |]. split; [done |].
      intros Hd Hf. destruct img. simpl in *. by subst.
    + rewrite list_lookup_insert_ne by done. by exists img0.
Qed.

(** A run ends in the world [after] names. *)
Lemma AcquireNextImageKHR_failure_witness :
  surfaces (after (AcquireNextImageKHR 1 4096 (-1) 0 0) flaky_world) =
    surfaces flaky_world /\
  forall h, h <> 4096 ->
    swapchains (after (AcquireNextImageKHR 1 4096 (-1) 0 0) flaky_world) !! h =
      swapchains flaky_world !! h.
Proof.
  destruct (AcquireNextImageKHR_failure 1 4096 (-1) 0 0 flaky_world
              (after (AcquireNextImageKHR 1 4096 (-1) 0 0) flaky_world)
              VK_ERROR_INITIALIZATION_FAILED None)
    as (_ & Hsurf & _ & Hother & _).
  - apply after_run. vm_compute. reflexivity.
  - discriminate.
  - split; [exact Hsurf | exact Hother].
Defined.

(** ** Listing the images, destroying a swapchain *)

(** [GetSwapchainImagesKHR] follows the two-call idiom and changes
    nothing.  Without array it gives [num_images]; with an array of at
    least [min count num_images] elements it writes the images of that many
    slots, in the order of the slots, at the head of the array, stores that
    number, and returns [VK_INCOMPLETE] exactly when [count] is less than
    [num_images]. *)
Theorem GetSwapchainImagesKHR_fills_array
    (handle count : Z) (out : list Z) (w : World) (sc : Swapchain) :
  swapchains w !! handle = Some sc ->
  0 <= count ->
  (Z.to_nat (num_images sc) <= length (images sc))%nat ->
  (Z.to_nat (Z.min count (num_images sc)) <= length out)%nat ->
  GetSwapchainImagesKHR handle count None w =
    Some ((VK_SUCCESS, num_images sc, None), w) /\
  exists written,
    GetSwapchainImagesKHR handle count (Some out) w =
      Some ((if bool_decide (count < num_images sc)
             then VK_INCOMPLETE else VK_SUCCESS,
             Z.min count (num_images sc), Some written), w) /\
    length written = length out /\
    (forall i, (i < Z.to_nat (Z.min count (num_images sc)))%nat ->
               written !! i = image <$> images sc !! i) /\
    (forall i, (Z.to_nat (Z.min count (num_images sc)) <= i)%nat ->
               written !! i = out !! i).
Proof.
  intros Hsc Hcount Himgs Hout. unfold GetSwapchainImagesKHR.
  rewrite !(bind_run _ _ w w sc) by by apply run_get_swapchain.
  split; [reflexivity |]. cbv zeta.
  assert ((if count <? num_images sc then count else num_images sc) =
          Z.min count (num_images sc)) as ->
    by (destruct (Z.ltb_spec count (num_images sc)); lia).
  set (n := Z.to_nat (Z.min count (num_images sc))) in *.
  assert (n <= length (images sc))%nat as Hn by lia.
  destruct (Nat.leb_spec n (length (images sc))); [| lia].
  destruct (Nat.leb_spec n (length out)); [| lia]. simpl.
  eexists. split.
  - destruct (Z.ltb_spec count (num_images sc));
      [rewrite bool_decide_eq_true_2 by done
      | rewrite bool_decide_eq_false_2 by lia]; reflexivity.
  - assert (length (map image (take n (images sc))) = n) as Hlen
      by (rewrite length_map, length_take; lia).
    split; [| split].
    + rewrite length_app, Hlen, length_drop. lia.
    + intros i Hi. rewrite lookup_app_l by lia.
      by rewrite list_lookup_fmap, lookup_take_lt.
    + intros i Hi. rewrite lookup_app_r by lia. rewrite Hlen, lookup_drop.
      f_equal. lia.
Qed.

Lemma GetSwapchainImagesKHR_fills_array_witness :
  exists written,
    GetSwapchainImagesKHR 4096 1 (Some [0; 0]) created_world =
      Some ((VK_INCOMPLETE, 1, Some written), created_world) /\
    written !! 0%nat = Some 900 /\ written !! 1%nat = Some 0.
Proof.
  destruct (GetSwapchainImagesKHR_fills_array 4096 1 [0; 0] created_world
              (swapchain_at 4096 created_world))
    as (_ & written & Hrun & _ & Hhead & Htail).
  - vm_compute. reflexivity.
  - lia.
  - vm_compute. lia.
  - vm_compute. lia.
  - exists written. split; [exact Hrun |].
    split; [rewrite (Hhead 0%nat) | rewrite (Htail 1%nat)];
      vm_compute; (reflexivity || lia).
Defined.

(** What [ReleaseSwapchainImage] without release fence calls for a slot:
    the image is destroyed, and the buffer of a dequeued slot goes back to
    the window with its fence, or, without window, its fence is closed. *)
Lemma ReleaseSwapchainImage_gives_back (device win : Z)
    (img img' : Image) (w w' : World) :
  ReleaseSwapchainImage device win (-1) img w = Some (img', w') ->
  same_heap w w' /\
  exists evs, extends w w' evs /\
    ((image img <> 0 -> exists a, In (DestroyImage device (image img), a) evs) /\
     (dequeued img = true -> win <> 0 ->
      exists a,
        In (cancelBuffer win (buffer img) (dequeue_fence img), a) evs) /\
     (dequeued img = true -> win = 0 -> 0 <= dequeue_fence img ->
      exists a, In (close (dequeue_fence img), a) evs)).
Proof.
  unfold ReleaseSwapchainImage. intros H. msteps.
  all: bool_hyps.
  all: split; [solve_same_heap |].
  all: eexists; split; [solve_extends |].
  all: simpl in *.
  all: repeat split; intros; try congruence; try lia.
  all: try (eexists; simpl; eauto 6; fail).
Qed.

(** [DestroySwapchainKHR] on a live swapchain whose local [window] is not
    called as the null pointer: that it returns, what it leaves, and what it
    calls. *)
Lemma DestroySwapchainKHR_returns
    (device handle allocator : Z) (w : World) (sc : Swapchain)
    (surf : Surface) :
  handle <> 0 ->
  swapchains w !! handle = Some sc ->
  surfaces w !! surface sc = Some surf ->
  swapchain_handle surf = handle \/ frame_timestamps_enabled sc = false ->
  (Z.to_nat (num_images sc) <= length (images sc))%nat ->
  let win := if swapchain_handle surf =? handle then window surf else 0 in
  exists (w' : World) (evs : Trace) (f : Answer),
    DestroySwapchainKHR device handle allocator w = Some (returned, w') /\
    swapchains w' = delete handle (swapchains w) /\
    surfaces w' =
      (if swapchain_handle surf =? handle
       then <[surface sc := {| window := window surf;
                               swapchain_handle := 0 |}]> (surfaces w)
       else surfaces w) /\
    trace w' = trace w ++ evs /\
    last evs = Some (pfnFree (pick_allocator allocator device) handle, f) /\
    forall j img,
      (j < Z.to_nat (num_images sc))%nat -> images sc !! j = Some img ->
      (image img <> 0 ->
       exists a, In (DestroyImage device (image img), a) evs) /\
      (dequeued img = true -> win <> 0 ->
       exists a,
         In (cancelBuffer win (buffer img) (dequeue_fence img), a) evs) /\
      (dequeued img = true -> win = 0 -> 0 <= dequeue_fence img ->
       exists a, In (close (dequeue_fence img), a) evs).
Proof.
  intros Hhandle Hsc Hsurf Hwindow Hlen win.
  assert (exists w1 evs0,
            when (frame_timestamps_enabled sc)
              (let* _ := call (native_window_enable_frame_timestamps win false)
               in ret tt) w = Some (tt, w1) /\
            same_heap w w1 /\ trace w1 = trace w ++ evs0)
    as (w1 & evs0 & Hw1 & (Hsf1 & Hsw1 & _) & Htr1).
  { destruct (frame_timestamps_enabled sc); simpl.
    - eexists _, [_]. split; [reflexivity |]. split; [solve_same_heap | done].
    - exists w, []. split; [done |]. split; [apply same_heap_refl |].
      by rewrite app_nil_r. }
  destruct (for_images_total (ReleaseSwapchainImage device win (-1))
              (Z.to_nat (num_images sc))
              (ReleaseSwapchainImage_total device win (-1))
              0%nat (images sc) Hlen w1) as [[imgs w2] Hloop].
  destruct (for_images_spec _ _ (ReleaseSwapchainImage_gives_back device win)
              _ _ _ _ _ _ Hloop)
    as ((Hsf & Hsw & _) & _ & _ & _ & evs & Hext & Hslots & _).
  unfold extends in Hext.
  set (w3 := with_swapchains
               (<[handle := with_images imgs sc]> (swapchains w)) w2).
  assert (exists w4, when (swapchain_handle surf =? handle)
                       (put_surface (surface sc)
                          {| window := window surf; swapchain_handle := 0 |})
                       w3 = Some (tt, w4) /\
                     swapchains w4 = swapchains w3 /\ trace w4 = trace w3 /\
                     surfaces w4 =
                       (if swapchain_handle surf =? handle
                        then <[surface sc := {| window := window surf;
                                                swapchain_handle := 0 |}]>
                               (surfaces w)
                        else surfaces w))
    as (w4 & Hw4 & Hsw4 & Htr4 & Hsf4).
  { destruct (swapchain_handle surf =? handle); simpl.
    - unfold put_surface. simpl. rewrite Hsf, Hsf1, Hsurf.
      eexists. split; [reflexivity |]. done.
    - exists w3. split; [reflexivity |]. unfold w3. simpl.
      by rewrite Hsf, Hsf1. }
  eexists _, (evs0 ++ evs ++ [_]), _.
  split; [| split; [| split; [| split; [| split]]]].
  - unfold DestroySwapchainKHR.
    apply Z.eqb_neq in Hhandle as ->.
    rewrite (bind_run _ _ w w sc) by by apply run_get_swapchain.
    rewrite (bind_run _ _ w w surf) by by apply run_get_surface.
    cbv zeta. fold win.
    assert (frame_timestamps_enabled sc &&
              negb (swapchain_handle surf =? handle) = false) as ->.
    { destruct Hwindow as [Hactive | ->]; [| done].
      apply Z.eqb_eq in Hactive as ->. apply andb_false_r. }
    rewrite (bind_run _ _ _ _ _ Hw1).
    rewrite (bind_run _ _ _ _ _ Hloop).
    unfold put_swapchain at 1.
    rewrite (bind_run _ _ w2 w3 tt)
      by (by simpl; rewrite Hsw, Hsw1, Hsc).
    rewrite (bind_run _ _ _ _ _ Hw4).
    unfold delete_swapchain at 1. rewrite (bind_run _ _ _ _ tt eq_refl).
    rewrite (bind_run _ _ _ _ _ eq_refl). reflexivity.
  - simpl. rewrite Hsw4. simpl. apply delete_insert_eq.
  - simpl. exact Hsf4.
  - simpl. rewrite Htr4. simpl. rewrite Hext, Htr1.
    by rewrite <- !app_assoc.
  - rewrite !app_assoc. apply last_snoc.
  - intros j img Hj Himg.
    destruct (Hslots j img) as (img' & evs_j & _ & (H1 & H2 & H3) & Hin);
      [lia | done |].
    assert (forall e rest, In e evs_j -> In e (evs0 ++ evs ++ rest)) as Hin'
      by (intros e rest He; apply in_or_app; right; apply in_or_app; left;
          by apply Hin).
    split; [| split].
    + intros Hx. destruct (H1 Hx) as [a Ha]. eauto.
    + intros Hx Hy. destruct (H2 Hx Hy) as [a Ha]. eauto.
    + intros Hx Hy Hz. destruct (H3 Hx Hy Hz) as [a Ha]. eauto.
Qed.

(** [DestroySwapchainKHR] on a live swapchain that is the one of its
    surface, or that has not enabled frame timestamps, gives back everything
    the swapchain holds.  It returns; the swapchain is gone and no other
    swapchain is touched; the surface that held it holds none, and a
    surface that did not is as before; every image of the slots below
    [num_images] has been destroyed; the buffer of every dequeued slot has
    gone back to the window with its fence if the swapchain was the one of
    its surface, and its fence has been closed if not; and the last call
    frees the memory through the allocator of the call. *)
Theorem DestroySwapchainKHR_gives_back
    (device handle allocator : Z) (w : World) (sc : Swapchain)
    (surf : Surface) :
  handle <> 0 ->
  swapchains w !! handle = Some sc ->
  surfaces w !! surface sc = Some surf ->
  swapchain_handle surf = handle \/ frame_timestamps_enabled sc = false ->
  (Z.to_nat (num_images sc) <= length (images sc))%nat ->
  let win := if swapchain_handle surf =? handle then window surf else 0 in
  exists (w' : World) (evs : Trace) (f : Answer),
    DestroySwapchainKHR device handle allocator w = Some (returned, w') /\
    swapchains w' = delete handle (swapchains w) /\
    surfaces w' =
      (if swapchain_handle surf =? handle
       then <[surface sc := {| window := window surf;
                               swapchain_handle := 0 |}]> (surfaces w)
       else surfaces w) /\
    trace w' = trace w ++ evs /\
    last evs = Some (pfnFree (pick_allocator allocator device) handle, f) /\
    forall j img,
      (j < Z.to_nat (num_images sc))%nat -> images sc !! j = Some img ->
      (image img <> 0 ->
       exists a, In (DestroyImage device (image img), a) evs) /\
      (dequeued img = true -> win <> 0 ->
       exists a,
         In (cancelBuffer win (buffer img) (dequeue_fence img), a) evs) /\
      (dequeued img = true -> win = 0 -> 0 <= dequeue_fence img ->
       exists a, In (close (dequeue_fence img), a) evs).
Proof. apply DestroySwapchainKHR_returns. Qed.

Lemma DestroySwapchainKHR_gives_back_witness :
  exists (w' : World) (evs : Trace) (a : Answer),
    DestroySwapchainKHR 1 4096 0 reacquired_world = Some (returned, w') /\
    swapchains w' = delete 4096 (swapchains reacquired_world) /\
    trace w' = trace reacquired_world ++ evs /\
    In (cancelBuffer 7 501 33, a) evs.
Proof.
  destruct (DestroySwapchainKHR_gives_back 1 4096 0 reacquired_world
              (swapchain_at 4096 reacquired_world)
              (surface_at 100 reacquired_world))
    as (w' & evs & f & Hrun & Hsw & _ & Htrace & _ & Hslots).
  - lia.
  - vm_compute. reflexivity.
  - vm_compute. reflexivity.
  - left. vm_compute. reflexivity.
  - vm_compute. lia.
  - assert ((if swapchain_handle (surface_at 100 reacquired_world) =? 4096
             then window (surface_at 100 reacquired_world) else 0) = 7)
      as Hwin by (vm_compute; reflexivity).
    rewrite Hwin in Hslots.
    destruct (Hslots 1%nat
                {| image := 901; buffer := 501;
                   dequeue_fence := 33; dequeued := true |})
      as (_ & Hcancel & _); [vm_compute; lia | vm_compute; reflexivity |].
    destruct Hcancel as [a Ha]; [reflexivity | lia |].
    exists w', evs, a.
    split; [exact Hrun |]. split; [exact Hsw |]. split; [exact Htrace |].
    exact Ha.
Defined.

(** ** Creating a swapchain: the swapchain that is created *)

Lemma on_success_ret (r : VkResult) (out : option Z)
    (post : World -> World -> option Z -> Prop) :
  r <> VK_SUCCESS -> on_success (ret (r, out)) post.
Proof. intros Hr w w' out' H. mstep. Qed.

Lemma on_success_call (c : Call) (k : Answer -> M (VkResult * option Z))
    (post : World -> World -> option Z -> Prop) :
  (forall a, on_success (k a) post) -> on_success (bind (call c) k) post.
Proof.
  intros Hk w w' out H. msteps.
  destruct (Hk _ _ _ _ H) as (w1 & evs & Hheap & Hext & Hpost).
  exists w1, ((c, oracle w (trace w) c) :: evs). split; [| split; [| done]].
  - eapply same_heap_trans; [| exact Hheap]. solve_same_heap.
  - unfold extends in *. rewrite Hext. simpl. by rewrite <- app_assoc.
Qed.

Lemma on_success_check (c : Call) (k : M (VkResult * option Z))
    (post : World -> World -> option Z -> Prop) :
  on_success k post -> on_success (check c k) post.
Proof.
  intros Hk. unfold check. apply on_success_call. intros a.
  destruct (negb (a_err a =? 0)); [by apply on_success_ret | done].
Qed.

Lemma on_success_if (b : bool) (m1 m2 : M (VkResult * option Z))
    (post : World -> World -> option Z -> Prop) :
  on_success m1 post -> on_success m2 post ->
  on_success (if b then m1 else m2) post.
Proof. by destruct b. Qed.

Lemma on_success_gralloc (device : Z) (create_info : VkSwapchainCreateInfoKHR)
    (swapchain_image_usage : Z) (k : option Z -> M (VkResult * option Z))
    (post : World -> World -> option Z -> Prop) :
  (forall usage, on_success (k usage) post) ->
  on_success (bind (swapchain_gralloc_usage device create_info
                      swapchain_image_usage) k) post.
Proof.
  intros Hk. unfold swapchain_gralloc_usage.
  intros w w' out H. apply run_bind in H as (usage & w1 & H1 & H2).
  assert (same_heap w w1 /\ exists evs, extends w w1 evs)
    as (Hheap1 & evs1 & Hext1).
  { clear H2. msteps.
    all: split; [solve_same_heap |].
    all: eexists; solve_extends. }
  destruct (Hk _ _ _ _ H2) as (w2 & evs & Hheap & Hext & Hpost).
  exists w2, (evs1 ++ evs).
  split; [by eapply same_heap_trans |].
  split; [by eapply extends_trans | done].
Qed.

(** The first loop of [CreateSwapchainKHR], when it succeeds: every slot
    holds a buffer that the window has handed out with the fence of the
    slot, and the image the driver has created for this buffer. *)
Lemma dequeue_all_success (device win : Z)
    (create_info : VkSwapchainCreateInfoKHR) (swapchain_image_usage : Z)
    (n : nat) :
  forall (i : nat) (result : VkResult) (imgs imgs' : list Image)
         (w w' : World),
    dequeue_all n i device win create_info swapchain_image_usage result imgs w
      = Some ((VK_SUCCESS, imgs'), w') ->
    exists evs, extends w w' evs /\
      forall j, (i <= j < i + n)%nat ->
        exists (a c : Answer),
          imgs' !! j = Some {| image := a_image c; buffer := a_buffer a;
                               dequeue_fence := a_fence a;
                               dequeued := true |} /\
          a_err a = 0 /\ a_result c = VK_SUCCESS /\
          In (dequeueBuffer win, a) evs /\
          In (CreateImage device (ci_imageFormat create_info)
                (ci_imageUsage create_info) (a_buffer a)
                swapchain_image_usage, c) evs.
Proof.
  induction n as [| n IH]; intros i result imgs imgs' w w' H; simpl in H.
  - mstep. exists []. split; [apply extends_refl |]. intros j Hj. lia.
  - apply run_bind in H as (img & w0 & Himg & H).
    apply run_image_at in Himg as [Himg ->].
    apply run_bind in H as (a & w1 & Ha & H).
    apply run_call in Ha as [-> ->].
    set (a := oracle w (trace w) (dequeueBuffer win)) in *.
    destruct (Z.eqb_spec (a_err a) 0) as [Herr | ?]; [| by mstep].
    simpl in H.
    apply run_bind in H as (c & w2 & Hc & H).
    apply run_call in Hc as [-> ->].
    match type of H with
    | context [bool_decide (a_result ?x <> VK_SUCCESS)] => set (c := x) in *
    end.
    destruct (decide (a_result c = VK_SUCCESS)) as [Hok | Hfail].
    2:{ rewrite bool_decide_eq_true_2 in H by done. by mstep. }
    rewrite bool_decide_eq_false_2 in H by (intros Hx; by apply Hx).
    pose proof H as Hrest.
    apply IH in H as (evs & Hext & Hslots).
    apply dequeue_all_spec in Hrest as (_ & Hlen & Hframe & _).
    eexists (_ :: _ :: evs). split.
    { unfold extends in *. rewrite Hext. simpl. rewrite <- !app_assoc.
      reflexivity. }
    intros j Hj. destruct (decide (j = i)) as [-> | Hne].
    + exists a, c. rewrite Hframe by lia.
      rewrite list_lookup_insert_eq by (by eapply lookup_lt_Some).
      split; [reflexivity |]. split; [done |]. split; [done |].
      split; [by left | right; by left].
    + destruct (Hslots j) as (a' & c' & H1 & H2 & H3 & H4 & H5); [lia |].
      exists a', c'. repeat (split; [done |]).
      split; right; by right.
Qed.

Lemma create_allocated_created (device win : Z)
    (create_info : VkSwapchainCreateInfoKHR) (allocator : Allocator)
    (num_images swapchain_image_usage : Z) (w w' : World) (out : option Z) :
  create_allocated device win create_info allocator num_images
    swapchain_image_usage w = Some ((VK_SUCCESS, out), w') ->
  created device win create_info w w' out.
Proof.
  unfold create_allocated, Swapchain_new. intros H.
  apply run_bind in H as (mem & w1 & Hmem & H).
  apply run_call in Hmem as [-> ->].
  set (mem := oracle w (trace w) (pfnAllocation allocator)) in *.
  destruct (Z.eqb_spec (a_value mem) 0) as [? | Hmem]; [by mstep |].
  cbv zeta in H.
  apply run_bind in H as (sc & w2 & Hsc & H).
  apply run_bind in Hsc as (a & w3 & Ha & Hsc).
  apply run_call in Ha as [-> ->].
  apply run_ret in Hsc as [-> ->].
  apply run_bind in H as ([] & w4 & Hnew & H).
  injection Hnew as <-.
  apply run_bind in H as ([result imgs] & w5 & Hdeq & H).
  apply run_bind in H as (imgs' & w6 & Hcancel & H).
  destruct (decide (result = VK_SUCCESS)) as [-> | Hfail].
  2:{ rewrite bool_decide_eq_true_2 in H by done. by msteps. }
  rewrite bool_decide_eq_false_2 in H by (intros Hx; by apply Hx).
  pose proof Hdeq as Hdeq'.
  apply dequeue_all_success in Hdeq as (pop & Hpop & Hslots).
  apply dequeue_all_spec in Hdeq' as (Hs1 & Hlen1 & Hframe1 & _).
  apply (for_images_spec _ _ (cancel_one_spec device win _)) in Hcancel
    as (Hs2 & Hlen2 & Hrange & Hframe2 & can & Hcan & Hpaid & _).
  pose proof (same_heap_trans _ _ _ Hs1 Hs2) as (Hsf & Hsw & _).
  simpl in Hsf, Hsw.
  apply run_bind in H as ([] & w7 & Hput & H).
  apply run_put_swapchain in Hput as [_ ->].
  apply run_bind in H as (surf & w8 & Hsurf & H).
  apply run_get_surface in Hsurf as [Hsurf ->].
  apply run_bind in H as ([] & w9 & Hput & H).
  apply run_put_surface in Hput as [_ ->].
  apply run_ret in H as [[= Hout] ->]. subst out.
  simpl in Hsurf. rewrite Hsf in Hsurf.
  cbn [images] in Hlen1, Hframe1. rewrite length_replicate in Hlen1.
  eexists (a_value mem), _, surf, (_ :: _ :: pop ++ can).
  split; [done |]. split; [done |]. split; [done |].
  split; [simpl; by rewrite Hsw, insert_insert_eq |].
  split; [simpl; by rewrite Hsf |].
  split.
  { unfold extends in *. simpl in *. rewrite Hcan, Hpop. simpl.
    rewrite <- !app_assoc. reflexivity. }
  simpl. repeat (split; [done |]).
  split; [congruence |].
  assert (Z.to_nat num_images <= NUM_BUFFER_SLOTS)%nat as Hnum.
  { destruct (Z.to_nat num_images) as [| n] eqn:Hn; [lia |].
    specialize (Hrange n). lia. }
  split; [exact Hnum |]. split.
  - intros j Hj. rewrite Hframe2, Hframe1 by lia.
    apply lookup_replicate. split; [done | lia].
  - intros j Hj.
    destruct (Hslots j) as (a & c & Hj1 & Herr & Hres & Hin1 & Hin2); [lia |].
    destruct (Hpaid j _ ltac:(lia) Hj1)
      as (img' & evs_j & Hj2 & (-> & _ & Hcb & _) & Hsub).
    destruct (Hcb eq_refl) as [a' Ha'].
    exists a, c, a', swapchain_image_usage.
    split; [exact Hj2 |]. split; [done |]. split; [done |].
    split; [right; right; apply in_or_app; by left |].
    split; [right; right; apply in_or_app; by left |].
    right; right. apply in_or_app. right. by apply Hsub.
Qed.

Lemma create_allocated_on_success (device win : Z)
    (create_info : VkSwapchainCreateInfoKHR) (allocator : Allocator)
    (num_images swapchain_image_usage : Z) :
  on_success (create_allocated device win create_info allocator num_images
                swapchain_image_usage)
             (created device win create_info).
Proof.
  intros w w' out Hrun. exists w, [].
  split; [apply same_heap_refl |]. split; [apply extends_refl |].
  by eapply create_allocated_created.
Qed.

(** [CreateSwapchainKHR] returns [VK_SUCCESS] only so: the surface held
    [oldSwapchain], which has been orphaned if there is one; after calls
    that leave the objects of the layer alone, the swapchain has been
    allocated and is as [created] says; the new swapchain is the one of its
    surface ([GetSwapchainStatusKHR] returns [VK_SUCCESS]), and it can be
    destroyed. *)
Theorem CreateSwapchainKHR_success (device allocator : Z)
    (create_info : VkSwapchainCreateInfoKHR) (w w' : World) (out : option Z) :
  CreateSwapchainKHR device create_info allocator w =
    Some ((VK_SUCCESS, out), w') ->
  exists (w0 w1 : World) (surf : Surface) (evs : Trace) (handle : Z),
    create_orphan_step device create_info w = Some (true, w0) /\
    (ci_oldSwapchain create_info = 0 -> w0 = w) /\
    surfaces w0 !! ci_surface create_info = Some surf /\
    same_heap w0 w1 /\ extends w0 w1 evs /\
    created device (window surf) create_info w1 w' out /\
    out = Some handle /\
    GetSwapchainStatusKHR handle w' = Some (VK_SUCCESS, w') /\
    exists w'' : World,
      DestroySwapchainKHR device handle allocator w' = Some (returned, w'').
Proof.
  unfold CreateSwapchainKHR. intros H.
  apply run_bind in H as (go_on & w0 & Hstep & H).
  destruct go_on; [| by mstep].
  assert (ci_oldSwapchain create_info = 0 -> w0 = w) as Hsame.
  { intros Hold. unfold create_orphan_step in Hstep. rewrite Hold in Hstep.
    msteps; done. }
  unfold create_after_orphan in H. cbv zeta in H.
  apply run_bind in H as (surf & w1 & Hsurf & H).
  apply run_get_surface in Hsurf as [Hsurf ->].
  match type of H with
  | ?m _ = _ =>
      assert (on_success m (created device (window surf) create_info)) as Hon
  end.
  2:{ destruct (Hon _ _ _ H) as (w1 & evs & Hheap & Hext & Hcreated).
      pose proof Hcreated
        as (handle & sc & surf' & evs' & -> & Hne & Hsurf' & Hsw & Hsf & _ &
            Hsc & _ & _ & Hlen & Hnum & _).
      exists w0, w1, surf, evs, handle. repeat (split; [done |]). split.
      - unfold GetSwapchainStatusKHR.
        rewrite (bind_run _ _ w' w' sc)
          by (apply run_get_swapchain; by rewrite Hsw, lookup_insert_eq).
        rewrite (bind_run _ _ w' w'
                   {| window := window surf'; swapchain_handle := handle |})
          by (apply run_get_surface; by rewrite Hsc, Hsf, lookup_insert_eq).
        simpl. by rewrite Z.eqb_refl.
      - destruct (DestroySwapchainKHR_returns device handle allocator w' sc
                    {| window := window surf'; swapchain_handle := handle |})
          as (w2 & ? & ? & Hdestroy & _); [done | | | by left | | by exists w2].
        + by rewrite Hsw, lookup_insert_eq.
        + by rewrite Hsc, Hsf, lookup_insert_eq.
        + by rewrite Hlen. }
  repeat first
    [ apply create_allocated_on_success
    | by apply on_success_ret
    | apply on_success_check
    | apply on_success_call; intros ?
    | apply on_success_gralloc; intros [?|]
    | apply on_success_if ].
Qed.

Lemma CreateSwapchainKHR_success_witness :
  exists (w1 : World) (surf : Surface),
    created 1 (window surf) sample_create_info w1 created_world (Some 4096) /\
    GetSwapchainStatusKHR 4096 created_world = Some (VK_SUCCESS, created_world).
Proof.
  destruct (CreateSwapchainKHR_success 1 0 sample_create_info friendly_world
              created_world (Some 4096))
    as (w0 & w1 & surf & evs & handle & _ & _ & _ & _ & _ & Hcreated & Hout &
        Hstatus & _).
  - vm_compute. reflexivity.
  - injection Hout as <-. exists w1, surf.
    split; [exact Hcreated | exact Hstatus].
Defined.

(** A swapchain that has been created on a surface without swapchain can
    be destroyed: [DestroySwapchainKHR] with the handle returns, its last
    call frees the memory through the allocator of the call, and, the
    memory having been fresh, the surfaces and the swapchains are as they
    were before the creation. *)
Theorem swapchain_create_destroy (device allocator handle : Z)
    (create_info : VkSwapchainCreateInfoKHR) (w w' : World) :
  CreateSwapchainKHR device create_info allocator w =
    Some ((VK_SUCCESS, Some handle), w') ->
  ci_oldSwapchain create_info = 0 ->
  swapchains w !! handle = None ->
  exists (w'' : World) (evs : Trace) (f : Answer),
    DestroySwapchainKHR device handle allocator w' = Some (returned, w'') /\
    swapchains w'' = swapchains w /\ surfaces w'' = surfaces w /\
    trace w'' = trace w' ++ evs /\
    last evs = Some (pfnFree (pick_allocator allocator device) handle, f).
Proof.
  intros Hcreate Hold Hfresh. unfold CreateSwapchainKHR in Hcreate.
  apply run_bind in Hcreate as (go_on & w0 & Hstep & H).
  destruct go_on; [| by mstep].
  assert (w0 = w /\ exists surf, surfaces w !! ci_surface create_info = Some surf
                                 /\ swapchain_handle surf = 0)
    as (-> & surf & Hsurf & Hnone).
  { unfold create_orphan_step in Hstep. rewrite Hold in Hstep. clear H.
    apply run_bind in Hstep as (surf & w1 & Hsurf & Hstep).
    apply run_get_surface in Hsurf as [Hsurf ->].
    destruct (Z.eqb_spec (swapchain_handle surf) 0) as [Hnone | ?];
      simpl in Hstep; [| by mstep].
    msteps. eauto. }
  unfold create_after_orphan in H. cbv zeta in H.
  apply run_bind in H as (surf' & w1 & Hsurf' & H).
  apply run_get_surface in Hsurf' as [Hsurf' ->].
  assert (surf' = surf) as -> by congruence.
  match type of H with
  | ?m _ = _ =>
      assert (on_success m (created device (window surf) create_info)) as Hon
  end.
  { repeat first
      [ apply create_allocated_on_success
      | by apply on_success_ret
      | apply on_success_check
      | apply on_success_call; intros ?
      | apply on_success_gralloc; intros [?|]
      | apply on_success_if ]. }
  destruct (Hon _ _ _ H)
    as (w1 & evs1 & (Hsf1 & Hsw1 & _) & _ & handle' & sc & surf' & evs' &
        [= <-] & Hne & Hsurf1 & Hsw & Hsf & _ & Hsc & _ & _ & Hlen & Hnum & _).
  rewrite Hsf1 in Hsurf1. assert (surf' = surf) as -> by congruence.
  destruct (DestroySwapchainKHR_returns device handle allocator w' sc
              {| window := window surf; swapchain_handle := handle |})
    as (w2 & evs & f & Hrun & Hsw2 & Hsf2 & Htrace & Hlast & _).
  - done.
  - by rewrite Hsw, lookup_insert_eq.
  - by rewrite Hsc, Hsf, lookup_insert_eq.
  - by left.
  - by rewrite Hlen.
  - exists w2, evs, f. split; [done |].
    split; [| split; [| done]].
    + rewrite Hsw2, Hsw, delete_insert_eq, Hsw1. by apply delete_id.
    + rewrite Hsf2. cbn [swapchain_handle window]. rewrite Z.eqb_refl.
      rewrite Hsc, Hsf, insert_insert_eq, Hsf1.
      apply insert_id. rewrite Hsurf. by destruct surf; simpl in *; subst.
Qed.

Lemma swapchain_create_destroy_witness :
  exists w'' : World,
    DestroySwapchainKHR 1 4096 0 created_world = Some (returned, w'') /\
    swapchains w'' = swapchains friendly_world /\
    surfaces w'' = surfaces friendly_world.
Proof.
  destruct (swapchain_create_destroy 1 0 4096 sample_create_info
              friendly_world created_world)
    as (w'' & evs & f & Hrun & Hsw & Hsf & _).
  - vm_compute. reflexivity.
  - reflexivity.
  - vm_compute. reflexivity.
  - exists w''. split; [exact Hrun |]. split; [exact Hsw | exact Hsf].
Defined.

(** ** Display timing: counting the ready records *)

Lemma calculate_ready (rdur : Z) (ti ti' : TimingInfo) :
  calculate rdur ti = Some ti' -> ready ti' = ready ti.
Proof.
  unfold calculate. cbv zeta.
  destruct (calculate_loop _ _ _ _ _) as [[early margin] |]; [| discriminate].
  by intros [= <-].
Qed.

(** The search for the timestamps of one record that is not ready: the
    record is counted exactly when it has become ready, and without a turn
    of the loop nothing happens. *)
Lemma probe_frames_counted (n : nat) :
  forall (f win rdur : Z) (ti ti' : TimingInfo) (counted : bool)
         (w w' : World),
    probe_frames n f win rdur ti w = Some ((ti', counted), w') ->
    ready ti = false ->
    counted = ready ti' /\ (n = 0%nat -> ti' = ti /\ w' = w).
Proof.
  induction n as [| n IH]; simpl; intros f win rdur ti ti' counted w w' H Hti.
  - mstep. by rewrite Hti.
  - apply run_bind in H as (a & w1 & Ha & H).
    apply run_call in Ha as [-> ->].
    split; [| intros; lia].
    destruct (negb (a_err _ =? 0)); [mstep; by rewrite Hti |].
    destruct (_ =? desiredPresentTime (vals_ ti)).
    + destruct (ready (with_timestamps _ ti)) eqn:Hready.
      * destruct (calculate rdur _) as [ti2 |] eqn:Hcalc; [| by mstep].
        mstep. apply calculate_ready in Hcalc. by rewrite Hcalc, Hready.
      * mstep. by rewrite Hready.
    + by apply IH in H as [-> _].
Qed.

Lemma filter_ready_cons (tm : list TimingInfo) (i n : nat) (ti : TimingInfo) :
  tm !! i = Some ti ->
  length (List.filter ready (take (S n) (drop i tm))) =
    ((if ready ti then 1 else 0) +
     length (List.filter ready (take n (drop (S i) tm))))%nat.
Proof.
  intros Hi. rewrite (drop_S _ _ _ Hi). simpl. by destruct (ready ti).
Qed.

(** The outer loop of [get_num_ready_timings] counts the records from [i]
    on that are ready when it is done, leaves the records before [i] and
    the ready records alone, and keeps the length of the store. *)
Lemma ready_loop_counts (n : nat) :
  forall (i : nat) (win rdur frames_ago : Z) (tm tm' : list TimingInfo)
         (num_ready r : Z) (w w' : World),
    ready_loop n i win rdur frames_ago tm num_ready w = Some ((tm', r), w') ->
    0 <= num_ready -> num_ready + Z.of_nat n < 2 ^ 32 ->
    r = num_ready +
        Z.of_nat (length (List.filter ready (take n (drop i tm')))) /\
    length tm' = length tm /\
    (forall j ti, tm !! j = Some ti -> (j < i)%nat \/ ready ti = true ->
                  tm' !! j = Some ti) /\
    (frames_ago <= MIN_NUM_FRAMES_AGO -> tm' = tm /\ w' = w).
Proof.
  induction n as [| n IH];
    intros i win rdur frames_ago tm tm' num_ready r w w' H Hlow Hhigh;
    cbn [ready_loop] in H.
  - mstep. simpl. split; [lia |]. by repeat split.
  - destruct (tm !! i) as [ti |] eqn:Hti; [| by mstep].
    destruct (ready ti) eqn:Hready.
    + rewrite u32_small in H by lia.
      apply IH in H as (-> & Hlen & Hkeep & Hidle); [| lia | lia].
      assert (tm' !! i = Some ti) as Hi by (apply Hkeep; auto).
      rewrite (filter_ready_cons _ _ _ _ Hi), Hready.
      split; [lia |]. split; [done |]. split; [| done].
      intros j tj Hj Hcase. apply Hkeep; [done |].
      destruct Hcase; [left; lia | by right].
    + apply run_bind in H as ([ti' counted] & w1 & Hprobe & H).
      apply probe_frames_counted in Hprobe as [-> Hnone]; [| done].
      assert (i < length tm)%nat as Hi by (by eapply lookup_lt_Some).
      assert ((if ready ti' then u32 (num_ready + 1) else num_ready) =
              num_ready + Z.of_nat (if ready ti' then 1 else 0)) as Hcount
        by (destruct (ready ti'); [rewrite u32_small |]; lia).
      rewrite Hcount in H.
      apply IH in H as (-> & Hlen & Hkeep & Hidle);
        [| destruct (ready ti'); lia | destruct (ready ti'); lia].
      rewrite length_insert in Hlen.
      assert (tm' !! i = Some ti') as Hi'
        by (apply Hkeep; [by apply list_lookup_insert_eq | left; lia]).
      rewrite (filter_ready_cons _ _ _ _ Hi').
      split; [destruct (ready ti'); lia |]. split; [done |]. split.
      * intros j tj Hj Hcase. apply Hkeep.
        -- rewrite list_lookup_insert_ne; [done |].
           intros <-. destruct Hcase; [lia | congruence].
        -- destruct Hcase; [left; lia | by right].
      * intros Hago. destruct (Hidle Hago) as [-> ->].
        destruct Hnone as [-> ->];
          [unfold MIN_NUM_FRAMES_AGO in *; lia |].
        split; [by apply list_insert_id | done].
Qed.

(** What a run of [get_num_ready_timings] that returns has done. *)
Lemma get_num_ready_timings_spec (handle n : Z) (w w' : World)
    (sc : Swapchain) :
  swapchains w !! handle = Some sc ->
  Z.of_nat (length (timing sc)) <= MAX_TIMING_INFOS ->
  get_num_ready_timings handle w = Some (n, w') ->
  exists tm' : list TimingInfo,
    swapchains w' = <[handle := with_timing tm' sc]> (swapchains w) /\
    surfaces w' = surfaces w /\
    n = Z.of_nat (length (List.filter ready tm')) /\
    length tm' = length (timing sc) /\
    store_keys tm' = store_keys (timing sc) /\
    (forall j ti, timing sc !! j = Some ti -> ready ti = true ->
                  tm' !! j = Some ti) /\
    (Z.of_nat (length (timing sc)) <= MIN_NUM_FRAMES_AGO ->
     tm' = timing sc /\ trace w' = trace w).
Proof.
  intros Hsc Hmax H. unfold get_num_ready_timings in H.
  apply run_bind in H as (sc0 & w0 & Hsc0 & H).
  apply run_get_swapchain in Hsc0 as [Hsc0 ->].
  assert (sc0 = sc) as -> by congruence.
  apply run_bind in H as (surf & w0 & Hsurf & H).
  apply run_get_surface in Hsurf as [Hsurf ->].
  cbv zeta in H. unfold MAX_TIMING_INFOS in Hmax.
  rewrite !u32_small in H by lia. rewrite Nat2Z.id in H.
  apply run_bind in H as ([tm' r] & w1 & Hloop & H).
  pose proof Hloop as Hkeys.
  apply ready_loop_spec in Hkeys as ((Hsf & Hsw & _) & Hkeys).
  apply ready_loop_counts in Hloop as (-> & Hlen & Hkeep & Hidle);
    [| lia | lia].
  apply run_bind in H as ([] & w2 & Hput & H).
  apply run_put_swapchain in Hput as [_ ->].
  apply run_ret in H as [-> ->].
  exists tm'. simpl. rewrite Hsw, Hsf.
  split; [done |]. split; [done |]. split.
  { rewrite drop_0, <- Hlen, firstn_all. lia. }
  split; [done |]. split; [done |]. split.
  - intros j ti Hj Hready. apply (Hkeep j ti Hj). by right.
  - intros Hfew. destruct (Hidle Hfew) as [-> ->]. done.
Qed.

Lemma probe_frames_calls (n : nat) :
  forall (f win rdur : Z) (ti ti' : TimingInfo) (counted : bool)
         (w w' : World),
    probe_frames n f win rdur ti w = Some ((ti', counted), w') ->
    exists evs, extends w w' evs /\ Forall (asks_timestamps win) evs.
Proof.
  induction n as [| n IH]; simpl; intros f win rdur ti ti' counted w w' H.
  - mstep. exists []. split; [apply extends_refl | done].
  - apply run_bind in H as (a & w1 & Ha & H).
    apply run_call in Ha as [-> ->].
    assert (asks_timestamps win
              (native_window_get_frame_timestamps win f,
               oracle w (trace w) (native_window_get_frame_timestamps win f)))
      as Hask by (by exists f).
    destruct (negb (a_err _ =? 0));
      [mstep; eexists [_]; split; [done | by constructor] |].
    destruct (_ =? desiredPresentTime (vals_ ti)).
    + destruct (ready (with_timestamps _ ti)).
      * destruct (calculate rdur _) as [ti2 |]; [| by mstep].
        mstep. eexists [_]. split; [done | by constructor].
      * mstep. eexists [_]. split; [done | by constructor].
    + apply IH in H as (evs & Hext & Hall).
      eexists (_ :: evs). split; [| by constructor].
      unfold extends in *. rewrite Hext. simpl. by rewrite <- app_assoc.
Qed.

Lemma ready_loop_calls (n : nat) :
  forall (i : nat) (win rdur frames_ago : Z) (tm tm' : list TimingInfo)
         (num_ready r : Z) (w w' : World),
    ready_loop n i win rdur frames_ago tm num_ready w = Some ((tm', r), w') ->
    exists evs, extends w w' evs /\ Forall (asks_timestamps win) evs.
Proof.
  induction n as [| n IH]; simpl;
    intros i win rdur frames_ago tm tm' num_ready r w w' H.
  - mstep. exists []. split; [apply extends_refl | done].
  - destruct (tm !! i) as [ti |]; [| by mstep].
    destruct (ready ti); [by eapply IH |].
    apply run_bind in H as ([ti' counted] & w1 & Hprobe & H).
    apply probe_frames_calls in Hprobe as (evs1 & Hext1 & Hall1).
    apply IH in H as (evs2 & Hext2 & Hall2).
    exists (evs1 ++ evs2). split; [by eapply extends_trans |].
    by apply Forall_app.
Qed.

(** What a run of [GetPastPresentationTimingGOOGLE] without array that
    returns has done. *)
Lemma GetPastPresentationTimingGOOGLE_spec (handle count n : Z)
    (w w' : World) (r : VkResult)
    (out : option (list VkPastPresentationTimingGOOGLE)) (sc : Swapchain) :
  swapchains w !! handle = Some sc ->
  Z.of_nat (length (timing sc)) <= MAX_TIMING_INFOS ->
  GetPastPresentationTimingGOOGLE handle count None w =
    Some ((r, n, out), w') ->
  r = VK_SUCCESS /\ out = None /\
  exists (sc' : Swapchain) (surf : Surface) (evs : Trace),
    surfaces w !! surface sc = Some surf /\
    swapchains w' = <[handle := sc']> (swapchains w) /\
    surfaces w' = surfaces w /\
    frame_timestamps_enabled sc' = true /\
    images sc' = images sc /\
    store_keys (timing sc') = store_keys (timing sc) /\
    n = Z.of_nat (length (List.filter ready (timing sc'))) /\
    trace w' = trace w ++ evs /\
    (frame_timestamps_enabled sc = true ->
     Forall (asks_timestamps (window surf)) evs) /\
    (frame_timestamps_enabled sc = false ->
     exists a rest,
       evs = (native_window_enable_frame_timestamps (window surf) true, a)
             :: rest /\
       Forall (asks_timestamps (window surf)) rest).
Proof.
  intros Hsc Hmax H. unfold GetPastPresentationTimingGOOGLE in H.
  apply run_bind in H as (sc0 & w0 & Hsc0 & H).
  apply run_get_swapchain in Hsc0 as [Hsc0 ->].
  assert (sc0 = sc) as -> by congruence.
  apply run_bind in H as (surf & w0 & Hsurf & H).
  apply run_get_surface in Hsurf as [Hsurf ->].
  apply run_bind in H as (sc1 & w1 & Henable & H).
  apply run_bind in H as (n' & w2 & Hcount & H).
  apply run_ret in H as [[= <- <- <-] ->].
  split; [done |]. split; [done |].
  assert (exists evs1,
            swapchains w1 !! handle = Some sc1 /\
            swapchains w1 = <[handle := sc1]> (swapchains w) /\
            surfaces w1 = surfaces w /\ trace w1 = trace w ++ evs1 /\
            sc1 = with_frame_timestamps_enabled true sc /\
            (frame_timestamps_enabled sc = true -> evs1 = []) /\
            (frame_timestamps_enabled sc = false ->
             exists a,
               evs1 = [(native_window_enable_frame_timestamps (window surf)
                          true, a)]))
    as (evs1 & Hsc1 & Hsw1 & Hsf1 & Htr1 & -> & Hon & Hoff).
  { destruct (frame_timestamps_enabled sc) eqn:Hen; simpl in Henable.
    - mstep. exists []. rewrite app_nil_r.
      assert (with_frame_timestamps_enabled true sc = sc) as ->
        by (destruct sc; simpl in *; by subst).
      split; [done |]. split; [by rewrite insert_id |]. by repeat split.
    - apply run_bind in Henable as (a & w3 & Ha & Henable).
      apply run_call in Ha as [-> ->].
      apply run_bind in Henable as ([] & w3 & Hput & Henable).
      apply run_put_swapchain in Hput as [_ ->].
      apply run_ret in Henable as [-> ->].
      eexists [_]. simpl. split; [apply lookup_insert_eq |].
      split; [done |]. split; [done |]. split; [done |]. split; [done |].
      split; [done |]. intros _. by eexists. }
  unfold get_num_ready_timings in Hcount.
  apply run_bind in Hcount as (sc2 & w3 & Hsc2 & Hcount).
  apply run_get_swapchain in Hsc2 as [Hsc2 ->].
  assert (sc2 = with_frame_timestamps_enabled true sc) as -> by congruence.
  apply run_bind in Hcount as (surf2 & w3 & Hsurf2 & Hcount).
  apply run_get_surface in Hsurf2 as [Hsurf2 ->].
  simpl in Hsurf2. rewrite Hsf1 in Hsurf2.
  assert (surf2 = surf) as -> by congruence.
  cbv zeta in Hcount. cbn [timing with_frame_timestamps_enabled] in Hcount.
  unfold MAX_TIMING_INFOS in Hmax.
  rewrite !u32_small in Hcount by lia. rewrite Nat2Z.id in Hcount.
  apply run_bind in Hcount as ([tm' r0] & w3 & Hloop & Hcount).
  pose proof (ready_loop_spec _ _ _ _ _ _ _ _ _ _ _ Hloop)
    as ((Hsf & Hsw & _) & Hkeys).
  pose proof (ready_loop_calls _ _ _ _ _ _ _ _ _ _ _ Hloop)
    as (evs2 & Hext2 & Hall2).
  apply ready_loop_counts in Hloop as (-> & Hlen & _); [| lia | lia].
  apply run_bind in Hcount as ([] & w4 & Hput & Hcount).
  apply run_put_swapchain in Hput as [_ ->].
  apply run_ret in Hcount as [-> ->].
  eexists (with_timing tm' (with_frame_timestamps_enabled true sc)), surf,
    (evs1 ++ evs2).
  split; [done |].
  split; [simpl; by rewrite Hsw, Hsw1, insert_insert_eq |].
  split; [simpl; congruence |]. split; [done |]. split; [done |].
  split; [done |].
  split; [simpl; rewrite drop_0, <- Hlen, firstn_all; lia |]. split.
  { simpl. unfold extends in Hext2. rewrite Hext2, Htr1.
    by rewrite <- app_assoc. }
  split.
  - intros Hen. by rewrite (Hon Hen).
  - intros Hen. destruct (Hoff Hen) as [a ->]. by eexists _, _.
Qed.

(** *** With a positive refresh duration the count returns *)

Lemma calculate_returns (rdur : Z) (ti : TimingInfo) :
  0 < rdur -> is_Some (calculate rdur ti).
Proof.
  intros Hr. unfold calculate. cbv zeta.
  set (margin := u64 (_ - _)).
  pose proof (u64_range (timestamp_composition_latch_time_ ti -
                         timestamp_render_complete_time_ ti)) as Hm.
  fold margin in Hm.
  destruct (calculate_loop_total (calculate_fuel rdur margin) rdur
              (timestamp_composition_latch_time_ ti)
              (timestamp_actual_present_time_ ti) margin)
    as (e & m & Hloop & _); [lia | lia | |].
  - unfold calculate_fuel. rewrite Z2Nat.id; [lia |].
    apply Z.div_pos; lia.
  - rewrite Hloop. by eexists.
Qed.

Lemma probe_frames_returns (win rdur : Z) (n : nat) :
  0 < rdur ->
  forall (f : Z) (ti : TimingInfo) (w : World),
    is_Some (probe_frames n f win rdur ti w).
Proof.
  intros Hr. induction n as [| n IH]; intros f ti w; simpl.
  - by eexists.
  - rewrite (bind_run _ _ w _ _ eq_refl).
    destruct (negb (a_err _ =? 0)); [by eexists |].
    destruct (_ =? desiredPresentTime (vals_ ti)); [| apply IH].
    destruct (ready (with_timestamps _ ti)); [| by eexists].
    destruct (calculate_returns rdur (with_timestamps
                (oracle w (trace w) (native_window_get_frame_timestamps win f))
                ti) Hr) as [ti' ->].
    by eexists.
Qed.

Lemma ready_loop_returns (win rdur frames_ago : Z) (n : nat) :
  0 < rdur ->
  forall (i : nat) (tm : list TimingInfo) (num_ready : Z) (w : World),
    (i + n <= length tm)%nat ->
    is_Some (ready_loop n i win rdur frames_ago tm num_ready w).
Proof.
  intros Hr. induction n as [| n IH]; intros i tm num_ready w Hlen; simpl.
  - by eexists.
  - destruct (lookup_lt_is_Some_2 tm i) as [ti ->]; [lia |].
    destruct (ready ti); [apply IH; lia |].
    destruct (probe_frames_returns win rdur
                (Z.to_nat (frames_ago - MIN_NUM_FRAMES_AGO)) Hr
                MIN_NUM_FRAMES_AGO ti w) as [[[ti' counted] w1] Hprobe].
    rewrite (bind_run _ _ _ _ _ Hprobe).
    apply IH. rewrite length_insert. lia.
Qed.

Lemma get_num_ready_timings_returns (handle : Z) (w : World) (sc : Swapchain)
    (surf : Surface) :
  swapchains w !! handle = Some sc ->
  surfaces w !! surface sc = Some surf ->
  Z.of_nat (length (timing sc)) <= MAX_TIMING_INFOS ->
  0 < min_refresh_duration sc ->
  is_Some (get_num_ready_timings handle w).
Proof.
  intros Hsc Hsurf Hmax Hr. unfold get_num_ready_timings.
  rewrite (bind_run _ _ w w sc) by by apply run_get_swapchain.
  rewrite (bind_run _ _ w w surf) by by apply run_get_surface.
  cbv zeta. unfold MAX_TIMING_INFOS in Hmax.
  rewrite !u32_small by lia. rewrite Nat2Z.id.
  destruct (ready_loop_returns (window surf) (min_refresh_duration sc)
              (Z.of_nat (length (timing sc))) (length (timing sc)) Hr
              0%nat (timing sc) 0 w) as [[[tm' r] w1] Hloop]; [lia |].
  rewrite (bind_run _ _ _ _ _ Hloop).
  apply ready_loop_spec in Hloop as ((_ & Hsw & _) & _).
  unfold put_swapchain at 1. unfold bind at 1. rewrite Hsw, Hsc.
  by eexists.
Qed.

(** [get_num_ready_timings] on a swapchain with a positive refresh
    duration and at most [MAX_TIMING_INFOS] records returns, and what it
    returns is the number of records of the store that are ready when it is
    done.  It leaves the length of the store, the present IDs, the records
    that were ready and everything else of the swapchain alone, and every
    call it makes asks the window of the surface for the timestamps of a
    frame.  With a store of [MIN_NUM_FRAMES_AGO] = 5 records or fewer it
    asks for nothing and changes nothing. *)
Theorem get_num_ready_timings_counts (handle : Z) (w : World)
    (sc : Swapchain) (surf : Surface) :
  swapchains w !! handle = Some sc ->
  surfaces w !! surface sc = Some surf ->
  Z.of_nat (length (timing sc)) <= MAX_TIMING_INFOS ->
  0 < min_refresh_duration sc ->
  exists (n : Z) (w' : World) (tm' : list TimingInfo) (evs : Trace),
    get_num_ready_timings handle w = Some (n, w') /\
    swapchains w' = <[handle := with_timing tm' sc]> (swapchains w) /\
    surfaces w' = surfaces w /\
    n = Z.of_nat (length (List.filter ready tm')) /\
    length tm' = length (timing sc) /\
    store_keys tm' = store_keys (timing sc) /\
    (forall j ti, timing sc !! j = Some ti -> ready ti = true ->
                  tm' !! j = Some ti) /\
    trace w' = trace w ++ evs /\
    Forall (asks_timestamps (window surf)) evs /\
    (Z.of_nat (length (timing sc)) <= MIN_NUM_FRAMES_AGO ->
     tm' = timing sc /\ evs = []).
Proof.
  intros Hsc Hsurf Hmax Hr.
  destruct (get_num_ready_timings_returns handle w sc surf Hsc Hsurf Hmax Hr)
    as [[n w'] Hrun].
  destruct (get_num_ready_timings_spec handle n w w' sc Hsc Hmax Hrun)
    as (tm' & Hsw & Hsf & Hn & Hlen & Hkeys & Hkeep & Hidle).
  assert (exists evs, trace w' = trace w ++ evs /\
                      Forall (asks_timestamps (window surf)) evs)
    as (evs & Htrace & Hall).
  { pose proof Hrun as H. unfold get_num_ready_timings in H.
    rewrite (bind_run _ _ w w sc) in H by by apply run_get_swapchain.
    rewrite (bind_run _ _ w w surf) in H by by apply run_get_surface.
    cbv zeta in H.
    apply run_bind in H as ([tm2 r] & w1 & Hloop & H).
    apply ready_loop_calls in Hloop as (evs & Hext & Hall).
    apply run_bind in H as ([] & w2 & Hput & H).
    apply run_put_swapchain in Hput as [_ ->].
    apply run_ret in H as [_ ->].
    exists evs. split; [exact Hext | exact Hall]. }
  exists n, w', tm', evs.
  repeat (split; [done |]).
  intros Hfew. destruct (Hidle Hfew) as [-> Hsame].
  split; [done |].
  rewrite Hsame in Htrace.
  rewrite <- (app_nil_r (trace w)) in Htrace at 1.
  by apply app_inv_head in Htrace.
Qed.

Lemma get_num_ready_timings_counts_witness :
  exists (w' : World) (tm' : list TimingInfo),
    get_num_ready_timings 4096 timed_world = Some (6, w') /\
    swapchains w' =
      <[4096 := with_timing tm' (swapchain_at 4096 timed_world)]>
        (swapchains timed_world) /\
    6 = Z.of_nat (length (List.filter ready tm')).
Proof.
  destruct (get_num_ready_timings_counts 4096 timed_world
              (swapchain_at 4096 timed_world) (surface_at 100 timed_world))
    as (n & w' & tm' & evs & Hrun & Hsw & _ & Hn & _).
  - vm_compute. reflexivity.
  - vm_compute. reflexivity.
  - vm_compute. discriminate.
  - vm_compute. reflexivity.
  - assert (fst <$> get_num_ready_timings 4096 timed_world = Some 6) as Hsix
      by (vm_compute; reflexivity).
    rewrite Hrun in Hsix. injection Hsix as ->.
    exists w', tm'. split; [exact Hrun |]. split; [exact Hsw | exact Hn].
Defined.

Lemma GetPastPresentationTimingGOOGLE_returns (handle count : Z) (w : World)
    (sc : Swapchain) (surf : Surface) :
  swapchains w !! handle = Some sc ->
  surfaces w !! surface sc = Some surf ->
  Z.of_nat (length (timing sc)) <= MAX_TIMING_INFOS ->
  0 < min_refresh_duration sc ->
  is_Some (GetPastPresentationTimingGOOGLE handle count None w).
Proof.
  intros Hsc Hsurf Hmax Hr. unfold GetPastPresentationTimingGOOGLE.
  rewrite (bind_run _ _ w w sc) by by apply run_get_swapchain.
  rewrite (bind_run _ _ w w surf) by by apply run_get_surface.
  assert (forall w1 sc1,
            swapchains w1 !! handle = Some sc1 ->
            surfaces w1 = surfaces w ->
            surface sc1 = surface sc -> timing sc1 = timing sc ->
            min_refresh_duration sc1 = min_refresh_duration sc ->
            is_Some ((let* count := get_num_ready_timings handle in
                      ret (VK_SUCCESS, count,
                           @None (list VkPastPresentationTimingGOOGLE))) w1))
    as Hcount.
  { intros w1 sc1 Hsc1 Hsf1 Hsurf1 Htm1 Hr1.
    destruct (get_num_ready_timings_returns handle w1 sc1 surf)
      as [[n w2] Hrun]; [done | by rewrite Hsurf1, Hsf1 | by rewrite Htm1
                        | by rewrite Hr1 |].
    rewrite (bind_run _ _ _ _ _ Hrun). by eexists. }
  destruct (frame_timestamps_enabled sc); simpl.
  - rewrite (bind_run _ _ w w sc) by done. by apply (Hcount w sc).
  - unfold bind at 1. unfold bind at 1. unfold call at 1.
    unfold bind at 1. unfold put_swapchain at 1. simpl. rewrite Hsc.
    apply (Hcount _ (with_frame_timestamps_enabled true sc)); simpl;
      try done.
    apply lookup_insert_eq.
Qed.

(** [GetPastPresentationTimingGOOGLE] without array, on a swapchain with a
    positive refresh duration and at most [MAX_TIMING_INFOS] records,
    returns [VK_SUCCESS] and the number of records of the store that are
    ready when it is done.  Frame timestamps are enabled on the window when
    the swapchain has not asked for them before, as the first call, and not
    again when it has; every other call asks the window for the timestamps
    of a frame.  The slots and the present IDs of the store are as
    before. *)
Theorem GetPastPresentationTimingGOOGLE_counts (handle count : Z)
    (w : World) (sc : Swapchain) (surf : Surface) :
  swapchains w !! handle = Some sc ->
  surfaces w !! surface sc = Some surf ->
  Z.of_nat (length (timing sc)) <= MAX_TIMING_INFOS ->
  0 < min_refresh_duration sc ->
  exists (n : Z) (w' : World) (sc' : Swapchain) (evs : Trace),
    GetPastPresentationTimingGOOGLE handle count None w =
      Some ((VK_SUCCESS, n, None), w') /\
    swapchains w' = <[handle := sc']> (swapchains w) /\
    surfaces w' = surfaces w /\
    frame_timestamps_enabled sc' = true /\
    images sc' = images sc /\
    store_keys (timing sc') = store_keys (timing sc) /\
    n = Z.of_nat (length (List.filter ready (timing sc'))) /\
    trace w' = trace w ++ evs /\
    (frame_timestamps_enabled sc = true ->
     Forall (asks_timestamps (window surf)) evs) /\
    (frame_timestamps_enabled sc = false ->
     exists a rest,
       evs = (native_window_enable_frame_timestamps (window surf) true, a)
             :: rest /\
       Forall (asks_timestamps (window surf)) rest).
Proof.
  intros Hsc Hsurf Hmax Hr.
  destruct (GetPastPresentationTimingGOOGLE_returns handle count w sc surf
              Hsc Hsurf Hmax Hr) as [[[[r n] out] w'] Hrun].
  destruct (GetPastPresentationTimingGOOGLE_spec handle count n w w' r out sc
              Hsc Hmax Hrun)
    as (-> & -> & sc' & surf' & evs & Hsurf' & Hrest).
  assert (surf' = surf) as -> by congruence.
  exists n, w', sc', evs. split; [exact Hrun | exact Hrest].
Qed.

Lemma GetPastPresentationTimingGOOGLE_counts_witness :
  exists (w' : World) (sc' : Swapchain),
    GetPastPresentationTimingGOOGLE 4096 0 None timed_world =
      Some ((VK_SUCCESS, 6, None), w') /\
    swapchains w' = <[4096 := sc']> (swapchains timed_world) /\
    6 = Z.of_nat (length (List.filter ready (timing sc'))).
Proof.
  destruct (GetPastPresentationTimingGOOGLE_counts 4096 0 timed_world
              (swapchain_at 4096 timed_world) (surface_at 100 timed_world))
    as (n & w' & sc' & evs & Hrun & Hsw & _ & _ & _ & _ & Hn & _).
  - vm_compute. reflexivity.
  - vm_compute. reflexivity.
  - vm_compute. discriminate.
  - vm_compute. reflexivity.
  - assert (fst <$> GetPastPresentationTimingGOOGLE 4096 0 None timed_world =
              Some (VK_SUCCESS, 6, None)) as Hsix
      by (vm_compute; reflexivity).
    rewrite Hrun in Hsix. injection Hsix as ->.
    exists w', sc'. split; [exact Hrun |]. split; [exact Hsw | exact Hn].
Defined.

(** ** Presenting on the swapchain of the surface *)

(** The hints of a present and [queueBuffer]: what the active branch of
    [QueuePresentKHR] does to the swapchain and what it calls. *)
Lemma present_queue_spec (win : Z) (present_info : VkPresentInfoKHR)
    (sc_idx : nat) (handle : Z) (image_idx : nat) (fence : Z)
    (allocator : Allocator) (rects nrects : Z) (r : VkResult)
    (scratch : Z * Z) (w w' : World) (sc : Swapchain) (img : Image) :
  swapchains w !! handle = Some sc ->
  images sc !! image_idx = Some img ->
  present_queue win present_info sc_idx handle image_idx fence allocator
    VK_SUCCESS rects nrects w = Some ((r, scratch), w') ->
  exists (sc' : Swapchain) (q : Answer) (before after : Trace),
    surfaces w' = surfaces w /\
    swapchains w' = <[handle := sc']> (swapchains w) /\
    surface sc' = surface sc /\ num_images sc' = num_images sc /\
    images sc' =
      <[image_idx :=
          {| image := image img; buffer := buffer img;
             dequeue_fence :=
               if dequeue_fence img >=? 0 then -1 else dequeue_fence img;
             dequeued := false |}]> (images sc) /\
    timing sc' =
      match pTimes present_info with
      | Some times =>
          match times !! sc_idx with
          | Some time => enroll time (timing sc)
          | None => timing sc
          end
      | None => timing sc
      end /\
    trace w' =
      trace w ++ before ++ (queueBuffer win (buffer img) fence, q) :: after /\
    Forall (fun e => forall f, disposes f e.1 = false) before /\
    after = (if dequeue_fence img >=? 0
             then [(close (dequeue_fence img),
                    oracle w (trace w ++ before ++
                              [(queueBuffer win (buffer img) fence, q)])
                      (close (dequeue_fence img)))]
             else []) /\
    r = (if a_err q =? 0 then VK_SUCCESS else VK_ERROR_OUT_OF_DATE_KHR).
Proof.
  intros Hsc Himg H. unfold present_queue in H.
  apply run_bind in H as (scratch0 & w1 & Hregion & H).
  assert (same_heap w w1 /\ exists evs1, extends w w1 evs1 /\
            Forall (fun e => forall f, disposes f e.1 = false) evs1)
    as ((Hsf1 & Hsw1 & Hor1 & _) & evs1 & Hext1 & Hall1).
  { clear H. destruct (pRegions present_info) as [regions |].
    - apply run_bind in Hregion as (region & w2 & Hreg & Hregion).
      apply run_index in Hreg as [_ ->].
      unfold present_region in Hregion. msteps.
      all: split; [solve_same_heap |].
      all: eexists; split; [solve_extends | by repeat constructor].
    - mstep. split; [apply same_heap_refl |].
      exists []. split; [apply extends_refl | done]. }
  apply run_bind in H as (sc0 & w2 & Hsc0 & H).
  apply run_get_swapchain in Hsc0 as [Hsc0 ->].
  rewrite Hsw1, Hsc in Hsc0. injection Hsc0 as <-.
  apply run_bind in H as (sc1 & w2 & Htime & H).
  assert (same_heap w1 w2 /\ images sc1 = images sc /\
          surface sc1 = surface sc /\ num_images sc1 = num_images sc /\
          timing sc1 =
            match pTimes present_info with
            | Some times =>
                match times !! sc_idx with
                | Some time => enroll time (timing sc)
                | None => timing sc
                end
            | None => timing sc
            end /\
          exists evs2, extends w1 w2 evs2 /\
            Forall (fun e => forall f, disposes f e.1 = false) evs2)
    as ((Hsf2 & Hsw2 & Hor2 & _) & Himgs & Hsurf & Hnum & Htiming & evs2 &
        Hext2 & Hall2).
  { clear H. destruct (pTimes present_info) as [times |].
    - apply run_bind in Htime as (time & w3 & Htm & Htime).
      apply run_index in Htm as [Htm ->]. rewrite Htm.
      pose proof (present_time_spec _ _ _ _ _ _ Htime)
        as (Hs & Hi & Ht & Hsu & Hn).
      repeat (split; [done |]).
      unfold present_time in Htime. msteps.
      all: eexists; split; [solve_extends | by repeat constructor].
    - mstep. split; [apply same_heap_refl |]. repeat (split; [done |]).
      exists []. split; [apply extends_refl | done]. }
  apply run_bind in H as (img0 & w3 & Himg0 & H).
  apply run_image_at in Himg0 as [Himg0 ->].
  rewrite Himgs, Himg in Himg0. injection Himg0 as <-.
  apply run_bind in H as (q & w3 & Hq & H).
  apply run_call in Hq as [-> ->].
  unfold extends in Hext1, Hext2.
  assert (trace w2 = trace w ++ evs1 ++ evs2) as Htr2
    by (by rewrite Hext2, Hext1, <- app_assoc).
  assert (oracle w2 = oracle w) as Hor by congruence.
  rewrite Htr2, Hor in H.
  set (q := oracle w (trace w ++ evs1 ++ evs2)
              (queueBuffer win (buffer img) fence)) in *.
  assert (WorstPresentResult VK_SUCCESS VK_ERROR_OUT_OF_DATE_KHR =
          VK_ERROR_OUT_OF_DATE_KHR) as Hworst by reflexivity.
  exists (with_images
            (<[image_idx :=
                 {| image := image img; buffer := buffer img;
                    dequeue_fence :=
                      if dequeue_fence img >=? 0 then -1
                      else dequeue_fence img;
                    dequeued := false |}]> (images sc1)) sc1),
    q, (evs1 ++ evs2).
  destruct (dequeue_fence img >=? 0) eqn:Hfence.
  - apply run_bind in H as (img1 & w4 & Hclose & H).
    apply run_bind in Hclose as (c & w5 & Hc & Hclose).
    apply run_call in Hc as [-> ->].
    apply run_ret in Hclose as [-> ->].
    apply run_bind in H as ([] & w4 & Hput & H).
    apply run_put_swapchain in Hput as [_ ->].
    apply run_ret in H as [[= Hr Hs] ->]. subst r scratch.
    eexists. simpl. rewrite Hsf2, Hsf1, Hsw2, Hsw1, Himgs, ?Htr2, ?Hor.
    repeat (split; [done |]).
    split; [by rewrite <- !app_assoc |].
    split; [by apply Forall_app |].
    split; [by rewrite <- !app_assoc |].
    rewrite Hworst. by destruct (a_err q =? 0).
  - apply run_bind in H as (img1 & w4 & Hret & H).
    apply run_ret in Hret as [-> ->].
    apply run_bind in H as ([] & w4 & Hput & H).
    apply run_put_swapchain in Hput as [_ ->].
    apply run_ret in H as [[= Hr Hs] ->]. subst r scratch.
    exists []. simpl. rewrite Hsf2, Hsf1, Hsw2, Hsw1, Himgs, ?Htr2.
    repeat (split; [done |]).
    split; [by rewrite <- !app_assoc |].
    split; [by apply Forall_app |].
    split; [done |].
    rewrite Hworst. by destruct (a_err q =? 0).
Qed.

(** A turn of the loop of [QueuePresentKHR] for the swapchain of its
    surface returns [VK_SUCCESS] only so: the driver has signalled the
    release of the image, and after the hints, none of which takes a
    descriptor, the buffer of the slot has been queued to the window once,
    with the release fence of the driver; then the dequeue fence of the
    slot has been closed if it was a descriptor.  The slot is not dequeued
    any more and holds no descriptor, the timing record of the present has
    been enrolled if there is one, and nothing else has changed. *)
Theorem present_one_presents (queue device : Z)
    (present_info : VkPresentInfoKHR) (sc_idx : nat) (rects nrects : Z)
    (w w' : World) (scratch : Z * Z) (handle image_idx : Z) (sc : Swapchain)
    (img : Image) (surf : Surface) :
  pSwapchains present_info !! sc_idx = Some handle ->
  pImageIndices present_info !! sc_idx = Some image_idx ->
  swapchains w !! handle = Some sc ->
  images sc !! Z.to_nat image_idx = Some img ->
  surfaces w !! surface sc = Some surf ->
  swapchain_handle surf = handle ->
  present_one queue device present_info sc_idx rects nrects w =
    Some ((VK_SUCCESS, scratch), w') ->
  let release :=
    QueueSignalReleaseImageANDROID queue (pWaitSemaphores present_info)
      (image img) in
  let a := oracle w (trace w) release in
  exists (sc' : Swapchain) (q : Answer) (before after : Trace),
    a_result a = VK_SUCCESS /\ a_err q = 0 /\
    surfaces w' = surfaces w /\
    swapchains w' = <[handle := sc']> (swapchains w) /\
    images sc' =
      <[Z.to_nat image_idx :=
          {| image := image img; buffer := buffer img;
             dequeue_fence :=
               if dequeue_fence img >=? 0 then -1 else dequeue_fence img;
             dequeued := false |}]> (images sc) /\
    timing sc' =
      match pTimes present_info with
      | Some times =>
          match times !! sc_idx with
          | Some time => enroll time (timing sc)
          | None => timing sc
          end
      | None => timing sc
      end /\
    trace w' =
      trace w ++ (release, a) :: before ++
        (queueBuffer (window surf) (buffer img) (a_fence a), q) :: after /\
    Forall (fun e => forall f, disposes f e.1 = false) before /\
    map fst after =
      (if dequeue_fence img >=? 0 then [close (dequeue_fence img)] else []).
Proof.
  intros Hhandle Hidx Hsc Himg Hsurf Hactive H release a.
  unfold present_one in H. cbv zeta in H. unfold index in H.
  rewrite Hhandle, Hidx in H.
  rewrite (bind_run _ _ w w handle) in H by done.
  rewrite (bind_run _ _ w w image_idx) in H by done.
  rewrite (bind_run _ _ w w sc) in H by by apply run_get_swapchain.
  unfold image_at in H. rewrite Himg in H.
  rewrite (bind_run _ _ w w img) in H by done.
  rewrite (bind_run _ _ w _ a eq_refl) in H.
  fold release in H.
  set (w1 := with_trace (trace w ++ [(release, a)]) w) in *.
  rewrite (bind_run _ _ w1 w1 surf) in H by by apply run_get_surface.
  apply Z.eqb_eq in Hactive. rewrite Hactive in H.
  apply run_bind in H as ([r1 scratch1] & w2 & Hqueue & H).
  destruct (decide (a_result a = VK_SUCCESS)) as [Hok | Hfail].
  2:{ rewrite (bool_decide_eq_true_2 _ Hfail) in Hqueue.
      rewrite (bool_decide_eq_false_2 (a_result a = VK_SUCCESS)) in Hqueue
        by done.
      apply run_ret in Hqueue as [[= -> ->] ->].
      rewrite (bool_decide_eq_true_2 _ Hfail) in H. msteps. }
  rewrite (bool_decide_eq_false_2 (a_result a <> VK_SUCCESS)) in Hqueue
    by (intros Hx; by apply Hx).
  rewrite bool_decide_eq_true_2 in Hqueue by done.
  destruct (decide (r1 = VK_SUCCESS)) as [-> | Hfail].
  2:{ rewrite (bool_decide_eq_true_2 _ Hfail) in H. msteps. }
  rewrite (bool_decide_eq_false_2 (VK_SUCCESS <> VK_SUCCESS)) in H by auto.
  apply run_bind in H as ([] & w3 & Hw3 & H).
  apply run_ret in Hw3 as [_ ->].
  apply run_ret in H as [[= <-] ->].
  apply (present_queue_spec _ _ _ _ _ _ _ _ _ _ _ _ _ sc img) in Hqueue
    as (sc' & q & before & after & Hsf & Hsw & _ & _ & Himgs & Htm & Htr &
        Hbefore & Hafter & Hr); [| done | done].
  exists sc', q, before, after.
  split; [done |].
  split; [by destruct (Z.eqb_spec (a_err q) 0) |].
  repeat (split; [done |]).
  split; [rewrite Htr; simpl; by rewrite <- app_assoc |].
  split; [done |].
  rewrite Hafter. by destruct (dequeue_fence img >=? 0).
Qed.

Lemma present_one_presents_witness :
  exists (sc' : Swapchain) (after : Trace),
    swapchains presented_world = <[4096 := sc']> (swapchains acquired_world) /\
    map fst after = [close 32].
Proof.
  assert (present_one 2 1 sample_present_info 0 0 0 acquired_world =
            Some ((VK_SUCCESS, (0, 0)), presented_world)) as Hrun
    by (vm_compute; reflexivity).
  destruct (present_one_presents 2 1 sample_present_info 0 0 0 acquired_world
              presented_world (0, 0) 4096 0
              (swapchain_at 4096 acquired_world)
              {| image := 900; buffer := 500;
                 dequeue_fence := 32; dequeued := true |}
              {| window := 7; swapchain_handle := 4096 |}
              eq_refl eq_refl)
    as (sc' & q & before & after & _ & _ & _ & Hsw & _ & _ & _ & _ & Hafter).
  - vm_compute. reflexivity.
  - vm_compute. reflexivity.
  - vm_compute. reflexivity.
  - reflexivity.
  - exact Hrun.
  - exists sc', after.
    split; [exact Hsw | exact Hafter].
Defined.

(** With a window, a dequeued slot is given back to it by [cancelBuffer],
    with the release fence if that is a descriptor and the dequeue fence of
    the slot otherwise. *)
Lemma ReleaseSwapchainImage_cancels (device win release_fence : Z)
    (img img' : Image) (w w' : World) (evs : Trace) :
  ReleaseSwapchainImage device win release_fence img w = Some (img', w') ->
  extends w w' evs ->
  dequeued img = true -> win <> 0 ->
  exists a,
    In (cancelBuffer win (buffer img)
          (if release_fence >=? 0 then release_fence else dequeue_fence img),
        a) evs.
Proof.
  unfold ReleaseSwapchainImage, extends. intros H Hext Hd Hwin.
  rewrite Hd in H.
  assert (negb (win =? 0) = true) as Hw by (by destruct (Z.eqb_spec win 0)).
  rewrite Hw in H.
  destruct (release_fence >=? 0); msteps.
  all: simpl in Hext; rewrite <- ?app_assoc in Hext.
  all: apply app_inv_head in Hext; subst evs.
  all: eexists; simpl; eauto 6.
Qed.

(** A turn of the loop of [QueuePresentKHR] for the swapchain of its
    surface that does not return [VK_SUCCESS]: either the driver has failed
    to signal the release of the image, and its result is the result of the
    swapchain, or the window has refused the buffer, and the result is
    [VK_ERROR_OUT_OF_DATE_KHR].  Either way the slot has been released (it
    holds no image and no buffer, and is not dequeued) and the swapchain has
    been orphaned: the surface holds no swapchain any more, the timing
    records are gone, and [GetSwapchainStatusKHR] returns
    [VK_ERROR_OUT_OF_DATE_KHR] from then on.  When the driver has failed and
    the slot was dequeued, its buffer has been given back to the window by
    [cancelBuffer]. *)
Theorem present_one_failure_orphans (queue device : Z)
    (present_info : VkPresentInfoKHR) (sc_idx : nat) (rects nrects : Z)
    (w w' : World) (r : VkResult) (scratch : Z * Z) (handle image_idx : Z)
    (sc : Swapchain) (img : Image) (surf : Surface) :
  handle <> 0 ->
  pSwapchains present_info !! sc_idx = Some handle ->
  pImageIndices present_info !! sc_idx = Some image_idx ->
  swapchains w !! handle = Some sc ->
  images sc !! Z.to_nat image_idx = Some img ->
  surfaces w !! surface sc = Some surf ->
  swapchain_handle surf = handle ->
  present_one queue device present_info sc_idx rects nrects w =
    Some ((r, scratch), w') ->
  r <> VK_SUCCESS ->
  let release :=
    QueueSignalReleaseImageANDROID queue (pWaitSemaphores present_info)
      (image img) in
  let a := oracle w (trace w) release in
  exists (sc' : Swapchain) (slot : Image) (evs : Trace),
    r = (if bool_decide (a_result a = VK_SUCCESS)
         then VK_ERROR_OUT_OF_DATE_KHR else a_result a) /\
    swapchains w' !! handle = Some sc' /\
    timing sc' = [] /\
    images sc' !! Z.to_nat image_idx = Some slot /\
    image slot = 0 /\ buffer slot = 0 /\ dequeued slot = false /\
    surfaces w' =
      <[surface sc := {| window := window surf; swapchain_handle := 0 |}]>
        (surfaces w) /\
    GetSwapchainStatusKHR handle w' = Some (VK_ERROR_OUT_OF_DATE_KHR, w') /\
    trace w' = trace w ++ (release, a) :: evs /\
    (a_result a <> VK_SUCCESS -> dequeued img = true -> window surf <> 0 ->
     exists c,
       In (cancelBuffer (window surf) (buffer img)
             (if a_fence a >=? 0 then a_fence a else dequeue_fence img), c)
          evs).
Proof.
  intros Hnull Hhandle Hidx Hsc Himg Hsurf Hactive H Hr release a.
  unfold present_one in H. cbv zeta in H. unfold index in H.
  rewrite Hhandle, Hidx in H.
  rewrite (bind_run _ _ w w handle) in H by done.
  rewrite (bind_run _ _ w w image_idx) in H by done.
  rewrite (bind_run _ _ w w sc) in H by by apply run_get_swapchain.
  unfold image_at in H. rewrite Himg in H.
  rewrite (bind_run _ _ w w img) in H by done.
  rewrite (bind_run _ _ w _ a eq_refl) in H.
  fold release in H.
  set (w1 := with_trace (trace w ++ [(release, a)]) w) in *.
  rewrite (bind_run _ _ w1 w1 surf) in H by by apply run_get_surface.
  pose proof Hactive as Hact.
  apply Z.eqb_eq in Hactive. rewrite Hactive in H.
  apply run_bind in H as ([r1 scratch1] & w2 & Hqueue & H).
  assert (r1 = r) as ->.
  { apply run_bind in H as ([] & w3 & _ & H).
    by apply run_ret in H as [[= -> _] _]. }
  rewrite (bool_decide_eq_true_2 _ Hr) in H.
  apply run_bind in H as ([] & w4 & Hrel & H).
  apply run_ret in H as [_ ->].
  apply run_bind in Hrel as ([] & w3 & Hrel & Horphan).
  (* the world the release starts from *)
  assert (exists (sc2 : Swapchain) (img2 : Image) (evs0 : Trace),
            r = (if bool_decide (a_result a = VK_SUCCESS)
                 then VK_ERROR_OUT_OF_DATE_KHR else a_result a) /\
            swapchains w2 !! handle = Some sc2 /\
            images sc2 !! Z.to_nat image_idx = Some img2 /\
            surface sc2 = surface sc /\
            surfaces w2 = surfaces w /\
            trace w2 = trace w ++ (release, a) :: evs0 /\
            (a_result a <> VK_SUCCESS -> evs0 = [] /\ img2 = img))
    as (sc2 & img2 & evs0 & Hres & Hsc2 & Himg2 & Hsf2 & Hsfs2 & Htr2 & Hdrv).
  { destruct (decide (a_result a = VK_SUCCESS)) as [Hok | Hfail].
    - rewrite (bool_decide_eq_false_2 (a_result a <> VK_SUCCESS)) in Hqueue
        by (intros Hx; by apply Hx).
      rewrite bool_decide_eq_true_2 in Hqueue by done.
      apply (present_queue_spec _ _ _ _ _ _ _ _ _ _ _ _ _ sc img) in Hqueue
        as (sc' & q & before & after & Hsf & Hsw & Hsurf' & _ & Himgs & _ &
            Htr & _ & _ & Hres); [| done | done].
      eexists sc', _, (before ++ (_, q) :: after).
      split.
      { rewrite bool_decide_eq_true_2 by done.
        destruct (a_err q =? 0); [by subst r | done]. }
      split; [by rewrite Hsw, lookup_insert_eq |].
      split.
      { rewrite Himgs. apply list_lookup_insert_eq.
        by eapply lookup_lt_Some. }
      split; [done |]. split; [done |].
      split; [rewrite Htr; simpl; by rewrite <- app_assoc |].
      intros Hx. by destruct Hx.
    - rewrite (bool_decide_eq_true_2 _ Hfail) in Hqueue.
      rewrite (bool_decide_eq_false_2 (a_result a = VK_SUCCESS)) in Hqueue
        by done.
      apply run_ret in Hqueue as [[= Hr1 _] Hw2].
      subst w1. subst w2.
      exists sc, img, [].
      split; [by rewrite bool_decide_eq_false_2 |].
      simpl. repeat (split; [done |]). done. }
  destruct (release_slot_run device (window surf) (a_fence a) handle
              (Z.to_nat image_idx) w2 sc2 img2 Hsc2 Himg2)
    as (w2' & evs1 & Hrelease & (Hsf3 & Hsw3 & _) & Hext1 & _ & Hrun).
  rewrite Hrun in Hrel. injection Hrel as <-.
  set (sc3 := with_images (<[Z.to_nat image_idx := released img2]> (images sc2))
                sc2) in *.
  apply (OrphanSwapchain_run _ _ _ _ Hnull) in Horphan
    as (sc3' & surf3 & Hsc3 & Hsurf3 & _ & Hact3 & Hstatus & _).
  simpl in Hsc3, Hsurf3. rewrite lookup_insert_eq in Hsc3.
  injection Hsc3 as <-.
  cbn [surface sc3 with_images] in Hsurf3.
  rewrite Hsf3, Hsfs2, Hsf2, Hsurf in Hsurf3. injection Hsurf3 as <-.
  destruct (Hact3 Hact)
    as (imgs & evs2 & Hsw4 & Hsfs4 & Hlen & Hslots & Htr4 & _).
  simpl in Hsw4, Hsfs4, Htr4.
  assert (images sc3 !! Z.to_nat image_idx = Some (released img2)) as Hslot.
  { apply list_lookup_insert_eq. by eapply lookup_lt_Some. }
  apply Hslots in Hslot.
  eexists _, _, (evs0 ++ evs1 ++ evs2).
  split; [exact Hres |].
  split; [by rewrite Hsw4, lookup_insert_eq |].
  split; [done |].
  split; [exact Hslot |].
  split; [by destruct (_ || _) |].
  split; [by destruct (_ || _) |].
  split; [by destruct (_ || _) |].
  split; [by rewrite Hsfs4, Hsf3, Hsfs2, Hsf2 |].
  split; [exact Hstatus |].
  split.
  { rewrite Htr4, Hext1, Htr2. by rewrite <- !app_assoc. }
  intros Hfail Hd Hwin.
  destruct (Hdrv Hfail) as [-> ->].
  destruct (ReleaseSwapchainImage_cancels _ _ _ _ _ _ _ _ Hrelease Hext1 Hd Hwin)
    as [c Hc].
  exists c. simpl. apply in_or_app. by left.
Qed.


Lemma present_one_failure_orphans_witness :
  GetSwapchainStatusKHR 4096
    (after (present_one 2 1 sample_present_info 0 0 0) stale_world) =
  Some (VK_ERROR_OUT_OF_DATE_KHR,
        after (present_one 2 1 sample_present_info 0 0 0) stale_world).
Proof.
  destruct (present_one_failure_orphans 2 1 sample_present_info 0 0 0
              stale_world
              (after (present_one 2 1 sample_present_info 0 0 0) stale_world)
              VK_ERROR_OUT_OF_DATE_KHR (0, 0) 4096 0
              (swapchain_at 4096 stale_world)
              {| image := 900; buffer := 500;
                 dequeue_fence := 32; dequeued := true |}
              {| window := 7; swapchain_handle := 4096 |})
    as (sc' & slot & evs & _ & _ & _ & _ & _ & _ & _ & _ & Hstatus & _).
  - lia.
  - reflexivity.
  - reflexivity.
  - vm_compute. reflexivity.
  - vm_compute. reflexivity.
  - vm_compute. reflexivity.
  - reflexivity.
  - apply (after_run (present_one 2 1 sample_present_info 0 0 0) stale_world).
    vm_compute. reflexivity.
  - discriminate.
  - exact Hstatus.
Defined.

(** Of two results outside the ranking, [WorstPresentResult] gives back the
    first, whichever it is: the last line of the function looks at its
    first argument only.  So the merge is not commutative there. *)
Theorem WorstPresentResult_outside_ranking (a b : VkResult) :
  present_rank a = None -> present_rank b = None ->
  WorstPresentResult a b = a /\
  (a <> b -> WorstPresentResult a b <> WorstPresentResult b a).
Proof.
  intros Ha Hb.
  assert (forall x y, present_rank x = None -> present_rank y = None ->
                      WorstPresentResult x y = x) as Hfirst.
  { intros x y Hx Hy. destruct x, y; try discriminate; reflexivity. }
  split; [by apply Hfirst |].
  intros Hne. by rewrite !Hfirst.
Qed.

Lemma WorstPresentResult_outside_ranking_witness :
  WorstPresentResult VK_ERROR_INITIALIZATION_FAILED VK_INCOMPLETE =
    VK_ERROR_INITIALIZATION_FAILED /\
  WorstPresentResult VK_INCOMPLETE VK_ERROR_INITIALIZATION_FAILED =
    VK_INCOMPLETE.
Proof.
  split.
  - apply (WorstPresentResult_outside_ranking
             VK_ERROR_INITIALIZATION_FAILED VK_INCOMPLETE);
      reflexivity.
  - apply (WorstPresentResult_outside_ranking
             VK_INCOMPLETE VK_ERROR_INITIALIZATION_FAILED);
      reflexivity.
Defined.

(** ** The result of a present over several swapchains *)


